(** * Precodahora fuel-price scraper: a shallow embedding and its properties

    The development follows [src/scraping/scraping_price.py]:

    - [Re]: the fragment of Python's [re] the script's patterns live in;
    - [Json]: parsed response bodies and the builtins applied to them;
    - the world the script runs in (network, random source, clock, files)
      and a state-and-exception monad over it;
    - CSRF discovery, the retrying request, the per-fuel collection, [main];
    - the properties, one section per component.

    Texts are sequences of Latin-1 code points (the 8-bit [ascii] of the
    Standard Library), which is how HTTP header values reach the script.
    Floating-point seconds are exact rationals. *)

From Stdlib Require Import ZArith QArith Qround Qminmax Qpower Lqa Lia.
From Stdlib Require Import List String Ascii Bool Sorted.
Import ListNotations.

Set Implicit Arguments.
Set Warnings "-register-all".
Local Open Scope string_scope.

(** ** Texts *)

Definition codepoints := list ascii.

Definition chars (s : string) : codepoints := list_ascii_of_string s.
Definition str (t : codepoints) : string := string_of_list_ascii t.

Definition code (c : ascii) : N := N_of_ascii c.

Definition between (lo hi : N) (c : ascii) : bool :=
  (N.leb lo (code c) && N.leb (code c) hi)%bool.

Definition is_upper : ascii -> bool := between 65 90.
Definition is_lower : ascii -> bool := between 97 122.
Definition is_decimal : ascii -> bool := between 48 57.

(** [str.lower] on one code point that is compared with an ASCII pattern
    character: only ASCII capitals fold onto ASCII letters. *)
Definition lower (c : ascii) : ascii :=
  if is_upper c then ascii_of_N (code c + 32) else c.

(** [str.isspace] on Latin-1: TAB..CR, FS..US, space, NEL and NBSP. *)
Definition is_space (c : ascii) : bool :=
  (between 9 13 c || between 28 32 c || N.eqb (code c) 133 || N.eqb (code c) 160)%bool.

(** The blanks [int] passes over around a number: of the ASCII characters
    TAB..CR and the space only (FS..US are no blanks to it), and beyond
    ASCII the spaces of Unicode, which on Latin-1 are NEL and NBSP. *)
Definition is_int_space (c : ascii) : bool :=
  (between 9 13 c || N.eqb (code c) 32 || N.eqb (code c) 133 || N.eqb (code c) 160)%bool.

(** [str.isdigit] on one Latin-1 code point: the decimal digits and the
    superscripts two, three and one, which are digits but not decimals. *)
Definition is_digit_char (c : ascii) : bool :=
  (is_decimal c || N.eqb (code c) 178 || N.eqb (code c) 179 || N.eqb (code c) 185)%bool.

Definition mem_char (c : ascii) (cs : list ascii) : bool :=
  existsb (Ascii.eqb c) cs.

(** A Python string is true when it is not empty. *)
Definition truthy_str (s : string) : bool :=
  match s with EmptyString => false | _ => true end.

(** ** The regular expressions of the script

    Every pattern of the script is a concatenation of character sets, each
    taken once or under [?], [*] or [+], with capture groups around some of
    them.  [Re] implements exactly that fragment with Python's semantics:
    leftmost match, greedy quantifiers, backtracking. *)

Module Re.

Inductive CharSet :=
| Lit (c : ascii)                 (* a literal character            *)
| AnyOf (cs : list ascii)         (* [...]                          *)
| NoneOf (cs : list ascii)        (* [^...]                         *)
| Space                           (* \s                             *)
| Word64.                         (* [A-Za-z0-9_\-]                 *)

Inductive Quant := One | Opt | Star | Plus.

Record Item := item { cset : CharSet; quant : Quant; captured : bool }.

Definition Regex := list Item.

(** Group 1 of every pattern that has one is a single captured item;
    [whole] is group 0. *)
Record Match := mkMatch { whole : codepoints; group1 : codepoints }.

Definition word64 (c : ascii) : bool :=
  (is_upper c || is_lower c || is_decimal c || mem_char c (chars "_-"))%bool.

(** [icase] is [re.IGNORECASE]; it bears on literals only, since no
    bracketed set of the script holds a letter. *)
Definition in_set (icase : bool) (cs : CharSet) (x : ascii) : bool :=
  match cs with
  | Lit c => if icase then Ascii.eqb (lower x) (lower c) else Ascii.eqb x c
  | AnyOf l => mem_char x l
  | NoneOf l => negb (mem_char x l)
  | Space => is_space x
  | Word64 => word64 x
  end.

Section Matching.
Variable icase : bool.

Definition Cont := codepoints -> codepoints -> option (codepoints * codepoints).

(** As many [p]-characters as possible, then the rest of the pattern;
    on failure give one character back and try again. *)
Fixpoint star (p : ascii -> bool) (cap : bool) (k : Cont)
         (acc : codepoints) (s : codepoints) : option (codepoints * codepoints) :=
  match s with
  | x :: s' =>
      if p x then
        match star p cap k (if cap then x :: acc else acc) s' with
        | Some r => Some r
        | None => k acc s
        end
      else k acc s
  | [] => k acc []
  end.

(** Match [re] at the head of [s]; the result is the text of the
    captured items and what is left of [s]. *)
Fixpoint match_here (re : Regex) (acc : codepoints) (s : codepoints)
  : option (codepoints * codepoints) :=
  match re with
  | [] => Some (rev acc, s)
  | it :: re' =>
      let p := in_set icase (cset it) in
      let k := match_here re' in
      let push x := if captured it then x :: acc else acc in
      match quant it with
      | One =>
          match s with
          | x :: s' => if p x then k (push x) s' else None
          | [] => None
          end
      | Opt =>
          match s with
          | x :: s' =>
              if p x then
                match k (push x) s' with
                | Some r => Some r
                | None => k acc s
                end
              else k acc s
          | [] => k acc []
          end
      | Star => star p (captured it) k acc s
      | Plus =>
          match s with
          | x :: s' => if p x then star p (captured it) k (push x) s' else None
          | [] => None
          end
      end
  end.

Definition match_at (re : Regex) (s : codepoints) : option Match :=
  match match_here re [] s with
  | Some (cap, rest) =>
      Some (mkMatch (firstn (List.length s - List.length rest) s) cap)
  | None => None
  end.

(** [re.search]: the match at the leftmost position that has one. *)
Fixpoint search (re : Regex) (s : codepoints) : option Match :=
  match match_at re s with
  | Some m => Some m
  | None =>
      match s with
      | [] => None
      | _ :: s' => search re s'
      end
  end.

(** [re.findall] for a pattern with one group that cannot match the
    empty text: group 1 of the successive non-overlapping matches.
    [skip] counts the characters of the last match still to pass. *)
Fixpoint findall_from (re : Regex) (skip : nat) (s : codepoints) : list codepoints :=
  match s with
  | [] => []
  | _ :: s' =>
      match skip with
      | S n => findall_from re n s'
      | O =>
          match match_at re s with
          | Some m => group1 m :: findall_from re (List.length (whole m) - 1) s'
          | None => findall_from re 0 s'
          end
      end
  end.

Definition findall (re : Regex) (s : codepoints) : list codepoints := findall_from re 0 s.

End Matching.

(** Pattern builders. *)
Definition lit (s : string) : Regex := map (fun c => item (Lit c) One false) (chars s).
Definition one (cs : CharSet) : Regex := [item cs One false].
Definition opt (cs : CharSet) : Regex := [item cs Opt false].
Definition many (cs : CharSet) : Regex := [item cs Star false].
Definition some (cs : CharSet) : Regex := [item cs Plus false].
Definition group_some (cs : CharSet) : Regex := [item cs Plus true].

Definition matches (icase : bool) (re : Regex) (s : codepoints) : bool :=
  match search icase re s with Some _ => true | None => false end.

End Re.

(** ** CSRF discovery: the pure part

    In the comments that quote a pattern of the script, [Q] stands for the
    pair of quote characters (double and single) the script writes there. *)

Definition dquote : ascii := "034"%char.
Definition squote : ascii := "039"%char.

Definition quote_mark : Re.CharSet := Re.AnyOf [dquote; squote].
Definition not_quote : Re.CharSet := Re.NoneOf [dquote; squote].
Definition not_gt : Re.CharSet := Re.NoneOf [">"%char].
Definition colon_or_eq : Re.CharSet := Re.AnyOf [":"%char; "="%char].

(** [(Im[A-Za-z0-9_\-]+)\.([A-Za-z0-9_\-]+)\.([A-Za-z0-9_\-]+)];
    only group 0 is ever read. *)
Definition SIGNED_TOKEN_RE : Re.Regex :=
  (Re.lit "Im" ++ Re.some Re.Word64 ++ Re.lit "." ++ Re.some Re.Word64
     ++ Re.lit "." ++ Re.some Re.Word64)%list.

(** The tail shared by the key-value patterns:
    [[Q]?\s*[:=]\s*[Q]([^Q]+)[Q]]. *)
Definition assigned_value : Re.Regex :=
  (Re.opt quote_mark ++ Re.many Re.Space ++ Re.one colon_or_eq ++ Re.many Re.Space
     ++ Re.one quote_mark ++ Re.group_some not_quote ++ Re.one quote_mark)%list.

(** The list [patterns] of [extract_csrf_from_html], in its order. *)
Definition patterns : list Re.Regex :=
  [ (* <input[^>]+name=[Q]csrf_token[Q][^>]+value=[Q]([^Q]+)[Q] *)
    (Re.lit "<input" ++ Re.some not_gt ++ Re.lit "name=" ++ Re.one quote_mark
      ++ Re.lit "csrf_token" ++ Re.one quote_mark ++ Re.some not_gt
      ++ Re.lit "value=" ++ Re.one quote_mark ++ Re.group_some not_quote
      ++ Re.one quote_mark)%list;
    (* <meta[^>]+name=[Q]csrf-token[Q][^>]+content=[Q]([^Q]+)[Q] *)
    (Re.lit "<meta" ++ Re.some not_gt ++ Re.lit "name=" ++ Re.one quote_mark
      ++ Re.lit "csrf-token" ++ Re.one quote_mark ++ Re.some not_gt
      ++ Re.lit "content=" ++ Re.one quote_mark ++ Re.group_some not_quote
      ++ Re.one quote_mark)%list;
    (* x-csrftoken[Q]?\s*[:=]\s*[Q]([^Q]+)[Q] *)
    (Re.lit "x-csrftoken" ++ assigned_value)%list;
    (* csrf[_-]?token[Q]?\s*[:=]\s*[Q]([^Q]+)[Q] *)
    (Re.lit "csrf" ++ Re.opt (Re.AnyOf (chars "_-")) ++ Re.lit "token" ++ assigned_value)%list;
    (* csrfToken[Q]?\s*[:=]\s*[Q]([^Q]+)[Q] *)
    (Re.lit "csrfToken" ++ assigned_value)%list ].

(** The loop [for p in patterns: m = re.search(p, html, re.IGNORECASE)]. *)
Fixpoint first_capture (ps : list Re.Regex) (html : codepoints) : option string :=
  match ps with
  | [] => None
  | p :: ps' =>
      match Re.search true p html with
      | Some m => Some (str (Re.group1 m))
      | None => first_capture ps' html
      end
  end.

Definition extract_csrf_from_html (html : string) : option string :=
  match first_capture patterns (chars html) with
  | Some t => Some t
  | None =>
      match Re.search false SIGNED_TOKEN_RE (chars html) with
      | Some m => Some (str (Re.whole m))
      | None => None
      end
  end.

Definition extract_csrf_from_js_text (t : string) : option string :=
  match Re.search false SIGNED_TOKEN_RE (chars t) with
  | Some m => Some (str (Re.whole m))
  | None => None
  end.

(** [<script[^>]+src=[Q]([^Q]+)[Q]], searched ignoring case. *)
Definition SCRIPT_SRC_RE : Re.Regex :=
  (Re.lit "<script" ++ Re.some not_gt ++ Re.lit "src=" ++ Re.one quote_mark
     ++ Re.group_some not_quote ++ Re.one quote_mark)%list.

Definition mem_string (s : string) (l : list string) : bool :=
  existsb (String.eqb s) l.

(** The [seen]/[out] loop of [find_script_srcs]: first occurrences, in order. *)
Fixpoint dedupe (seen : list string) (urls : list string) : list string :=
  match urls with
  | [] => []
  | u :: us =>
      if mem_string u seen then dedupe seen us else u :: dedupe (u :: seen) us
  end.

Definition BASE_URL : string := "https://precodahora.ba.gov.br/produtos/".

(** What the script takes from its surroundings and only calls or meets:
    the output directory of the environment ([OUT_DIR]);
    [urllib.parse.urljoin], with the references on which
    [urljoin(BASE_URL, ref)] raises [ValueError] (an address with an
    unbalanced bracket, for one) told by [urljoin_fails], [urljoin] being
    its result on the others; [os.path.abspath]; and whether the directory
    [./scraping] is there when the landing page is saved into it (it is
    when [OUT_DIR] or the directory of the logs lies under it, both being
    created before; nothing else creates it). *)
Record Env := mkEnv {
  OUT_DIR : string;
  urljoin : string -> string -> string;
  urljoin_fails : string -> bool;
  abspath : string -> string;
  scraping_dir_exists : bool
}.

Definition find_script_srcs (env : Env) (html : string) : list string :=
  let srcs := Re.findall true SCRIPT_SRC_RE (chars html) in
  let urls := map (fun s => urljoin env BASE_URL (str s)) srcs in
  dedupe [] urls.

(** ** Parsed JSON and the builtins applied to it *)

(** A Python float: a finite value, an infinity, or a NaN (the [json]
    module reads all three). *)
Inductive PyFloat := Finite (q : Q) | Infinite | NotANumber.

Inductive JSON :=
| JNull
| JBool (b : bool)
| JInt (z : Z)
| JFloat (f : PyFloat)
| JStr (s : string)
| JArr (items : list JSON)
| JObj (members : list (string * JSON)).

(** The exceptions the script raises or meets.  The [RuntimeError]s of the
    script are kept apart by what they say. *)
Inductive Exn :=
| Unauthorized (snippet : string)        (* RuntimeError: 401 unauthorized. snippet=...        *)
| RequestFailed (last_err : option Exn)  (* RuntimeError: Request failed after 6 retries. ...  *)
| NotJson (snippet : string)             (* RuntimeError: Response is not JSON. snippet=...    *)
| UnexpectedFormat                       (* RuntimeError: ... 'resultado' is not a list.       *)
| CsrfNotFound                           (* RuntimeError: CSRF token not found ...             *)
| HTTPError (status : Z)                 (* requests: raise_for_status                         *)
| RequestException (what : string)       (* requests: timeout, connection reset, ...           *)
| ValueError
| TypeError
| AttributeError
| OverflowError
| FileNotFoundError
| UnicodeEncodeError.

Inductive Outcome (A : Type) :=
| Ok (a : A)
| Raise (e : Exn).
Arguments Ok {A} a.
Arguments Raise {A} e.

Module Json.

(** [bool(x)]. *)
Definition truthy (x : JSON) : bool :=
  match x with
  | JNull => false
  | JBool b => b
  | JInt z => negb (Z.eqb z 0)
  | JFloat (Finite q) => negb (Qeq_bool q 0)
  | JFloat _ => true
  | JStr s => truthy_str s
  | JArr l => match l with [] => false | _ => true end
  | JObj m => match m with [] => false | _ => true end
  end.

(** [x or []]. *)
Definition or_empty_list (x : JSON) : JSON :=
  if truthy x then x else JArr [].

Fixpoint lookup (key : string) (m : list (string * JSON)) : option JSON :=
  match m with
  | [] => None
  | (k, v) :: m' => if String.eqb k key then Some v else lookup key m'
  end.

(** [data.get(key)] and [data.get(key, default)]; only a dict has [get],
    and a missing key without default gives [None]. *)
Definition get (data : JSON) (key : string) (default : JSON) : Outcome JSON :=
  match data with
  | JObj m => Ok (match lookup key m with Some v => v | None => default end)
  | _ => Raise AttributeError
  end.

(** [len(x)]. *)
Definition len (x : JSON) : Outcome Z :=
  match x with
  | JStr s => Ok (Z.of_nat (String.length s))
  | JArr l => Ok (Z.of_nat (List.length l))
  | JObj m => Ok (Z.of_nat (List.length m))
  | _ => Raise TypeError
  end.

Definition is_list (x : JSON) : bool :=
  match x with JArr _ => true | _ => false end.

Fixpoint lstrip (t : codepoints) : codepoints :=
  match t with
  | c :: t' => if is_int_space c then lstrip t' else t
  | [] => []
  end.

Definition strip (t : codepoints) : codepoints := rev (lstrip (rev (lstrip t))).

Definition digit_value (c : ascii) : Z := Z.of_N (code c) - 48.

(** Decimal digits with single underscores between them. *)
Fixpoint int_digits (acc : Z) (after_digit : bool) (t : codepoints) : option Z :=
  match t with
  | [] => if after_digit then Some acc else None
  | c :: t' =>
      if is_decimal c then int_digits (10 * acc + digit_value c) true t'
      else if Ascii.eqb c "_" then
             if after_digit
             then match t' with [] => None | _ => int_digits acc false t' end
             else None
      else None
  end.

(** [sys.get_int_max_str_digits()], as Python sets it. *)
Definition MAX_STR_DIGITS : Z := 4300.

Definition count_digits (t : codepoints) : Z :=
  Z.of_nat (List.length (filter is_decimal t)).

(** [int(s)] on a string: blanks around, a sign, then the digits, of
    which there may be [MAX_STR_DIGITS] at most. *)
Definition int_of_string (s : string) : option Z :=
  let t := strip (chars s) in
  if (MAX_STR_DIGITS <? count_digits t)%Z then None
  else
    match t with
    | "+"%char :: t' => int_digits 0 false t'
    | "-"%char :: t' => option_map Z.opp (int_digits 0 false t')
    | _ => int_digits 0 false t
    end.

(** [int(x)]. *)
Definition int (x : JSON) : Outcome Z :=
  match x with
  | JInt z => Ok z
  | JBool b => Ok (if b then 1 else 0)%Z
  | JFloat (Finite q) => Ok (Z.quot (Qnum q) (Zpos (Qden q)))
  | JFloat Infinite => Raise OverflowError
  | JFloat NotANumber => Raise ValueError
  | JStr s => match int_of_string s with Some z => Ok z | None => Raise ValueError end
  | JNull | JArr _ | JObj _ => Raise TypeError
  end.

End Json.

(** ** The world of a run *)

Record Request := mkRequest {
  method : string;
  url : string;
  req_headers : list (string * string);
  data : list (string * string)
}.

(** A [requests.Response]: [json] is what [r.json()] returns, or [None]
    when the body does not parse. *)
Record Response := mkResponse {
  status_code : Z;
  headers : list (string * string);
  text : string;
  json : option JSON
}.

Inductive Reply :=
| Responds (r : Response)
| Breaks (what : string).           (* the transport fails: the call raises *)

Record QueryMeta := mkQuery {
  q_horas : Z;
  q_latitude : Q;
  q_longitude : Q;
  q_raio : Z;
  q_ordenar : string;
  q_pagina : Z
}.

Record CollectedRow := mkRow {
  row_collected_at_utc : Z;
  row_run_id : string;
  row_source : string;
  row_anp : string;
  row_query : QueryMeta;
  row_raw : JSON
}.

Record ResponseStats := mkStats {
  totalPaginas_reported : Z;
  totalRegistros_reported : Z;
  registrosdaPagina_reported : Z;
  rows_written : nat
}.

Record Manifest := mkManifest {
  run_id : string;
  collected_at_utc : Z;
  anp : string;
  base_url : string;
  out_root : string;
  data_file : string;
  query : QueryMeta;
  response_stats : ResponseStats
}.

Record Overall := mkOverall {
  finished_at_utc : Z;
  out_dir : string;
  runs : list Manifest
}.

(** What is written to a file, as the values serialised rather than as
    their JSON text. *)
Inductive Chunk :=
| RowLine (r : CollectedRow)        (* one line of data.jsonl         *)
| ManifestDoc (m : Manifest)        (* manifest.json                  *)
| OverallDoc (o : Overall)          (* overall_manifest.json          *)
| Html (s : string).                (* debug_bootstrap.html           *)

Inductive FsOp :=
| MkDirs (path : string)                       (* os.makedirs(path, exist_ok=True) *)
| Write (path : string) (c : list Chunk)       (* open(path, w)                  *)
| Append (path : string) (c : list Chunk)      (* open(path, a)                  *)
| Remove (path : string).                      (* os.remove(path)                *)

(** What a run does that can be seen from outside, in the order it does it. *)
Inductive Event :=
| Requested (rq : Request)          (* a request goes out             *)
| Slept (d : Q)                     (* time.sleep(d)                  *)
| Disk (op : FsOp).                 (* a file operation               *)

(** The network and the sources of randomness are oracles indexed by the
    number of uses; the clock counts seconds and is moved by [time.sleep]
    only (requests take no time); [trace] holds the events so far, latest
    first.  A timestamp is its number of whole seconds, which orders as its
    ISO text does.  A served value may hold a text UTF-8 cannot encode (a
    lone surrogate, which the Latin-1 texts of this development do not
    show): [encodable] tells the values that can be written to a file. *)
Record World := mkWorld {
  network : nat -> Reply;
  random : nat -> Q;                (* successive values of random.random() *)
  drawn : nat;
  uuid4 : nat -> string;
  minted : nat;
  clock : Q;
  local_date : Q -> string;         (* datetime.now().strftime(%Y-%m-%d) *)
  encodable : JSON -> bool;         (* json.dumps(x) can be written as UTF-8 *)
  trace : list Event
}.

Fixpoint requests (t : list Event) : list Request :=
  match t with
  | [] => []
  | Requested rq :: t' => rq :: requests t'
  | _ :: t' => requests t'
  end.

Fixpoint sleeps (t : list Event) : list Q :=
  match t with
  | [] => []
  | Slept d :: t' => d :: sleeps t'
  | _ :: t' => sleeps t'
  end.

Fixpoint fs_ops (t : list Event) : list FsOp :=
  match t with
  | [] => []
  | Disk op :: t' => op :: fs_ops t'
  | _ :: t' => fs_ops t'
  end.

Definition sent (w : World) : list Request := requests (trace w).
Definition slept (w : World) : list Q := sleeps (trace w).
Definition disk (w : World) : list FsOp := fs_ops (trace w).

(** The content of [path] after the operations [ops] (latest first). *)
Fixpoint file_at (path : string) (ops : list FsOp) : option (list Chunk) :=
  match ops with
  | [] => None
  | op :: before =>
      match op with
      | MkDirs _ => file_at path before
      | Write p c => if String.eqb p path then Some c else file_at path before
      | Append p c =>
          if String.eqb p path
          then Some (match file_at path before with Some old => old ++ c | None => c end)%list
          else file_at path before
      | Remove p => if String.eqb p path then None else file_at path before
      end
  end.

(** ** The monad of the script: state and exceptions *)

Definition Py (A : Type) : Type := World -> Outcome A * World.

Definition ret {A} (a : A) : Py A := fun w => (Ok a, w).

Definition raise {A} (e : Exn) : Py A := fun w => (Raise e, w).

Definition bind {A B} (m : Py A) (k : A -> Py B) : Py B :=
  fun w =>
    match m w with
    | (Ok a, w') => k a w'
    | (Raise e, w') => (Raise e, w')
    end.

Notation "x <- m ;; k" := (bind m (fun x => k))
  (at level 61, m at next level, right associativity).
Notation "m ;;; k" := (bind m (fun _ => k))
  (at level 61, right associativity).

(** [try: m  except Exception as e: h e]. *)
Definition try_except {A} (m : Py A) (h : Exn -> Py A) : Py A :=
  fun w =>
    match m w with
    | (Ok a, w') => (Ok a, w')
    | (Raise e, w') => h e w'
    end.

(** [try: m  finally: f]: [f] runs either way; what [m] raised is raised
    again after it, unless [f] itself raises. *)
Definition try_finally {A} (m : Py A) (f : Py unit) : Py A :=
  fun w =>
    match m w with
    | (Ok a, w') =>
        match f w' with
        | (Ok _, w'') => (Ok a, w'')
        | (Raise e, w'') => (Raise e, w'')
        end
    | (Raise e, w') =>
        match f w' with
        | (Ok _, w'') => (Raise e, w'')
        | (Raise e', w'') => (Raise e', w'')
        end
    end.

(** Lift a pure result that may be an exception. *)
Definition lift {A} (o : Outcome A) : Py A := fun w => (o, w).

(** *** Primitive effects *)

Definition log_event (w : World) (e : Event) : World :=
  mkWorld (network w) (random w) (drawn w) (uuid4 w) (minted w)
          (clock w) (local_date w) (encodable w) (e :: trace w).

Definition set_drawn (w : World) (n : nat) : World :=
  mkWorld (network w) (random w) n (uuid4 w) (minted w)
          (clock w) (local_date w) (encodable w) (trace w).

Definition set_minted (w : World) (n : nat) : World :=
  mkWorld (network w) (random w) (drawn w) (uuid4 w) n
          (clock w) (local_date w) (encodable w) (trace w).

Definition advance (w : World) (d : Q) : World :=
  mkWorld (network w) (random w) (drawn w) (uuid4 w) (minted w)
          (clock w + d) (local_date w) (encodable w) (Slept d :: trace w).

(** [session.request(...)] and [session.get(...)]: the request goes out and
    the network answers or breaks. *)
Definition session_request (rq : Request) : Py Response :=
  fun w =>
    let w' := log_event w (Requested rq) in
    match network w (List.length (sent w)) with
    | Responds r => (Ok r, w')
    | Breaks what => (Raise (RequestException what), w')
    end.

(** The longest time [time.sleep] takes: what fits a signed 64-bit count
    of nanoseconds, so 9223372036 whole seconds and no more. *)
Definition SLEEP_MAX : Q := 9223372036854775808 # 1000000000.

(** [time.sleep(d)]: beyond [SLEEP_MAX] it raises [OverflowError] at once.
    (A negative duration is refused too; the script has none when
    [random.random()] is not negative.) *)
Definition sleep (d : Q) : Py unit :=
  fun w =>
    if Qle_bool d SLEEP_MAX then (Ok tt, advance w d)
    else (Raise OverflowError, w).

(** [random.uniform(a, b)], that is [a + (b - a) * random.random()]. *)
Definition random_uniform (a b : Q) : Py Q :=
  fun w => (Ok (a + (b - a) * random w (drawn w)), set_drawn w (S (drawn w))).

(** [str(uuid.uuid4())]. *)
Definition new_uuid : Py string :=
  fun w => (Ok (uuid4 w (minted w)), set_minted w (S (minted w))).

Definition utc_now_iso : Py Z :=
  fun w => (Ok (Qfloor (clock w)), w).

Definition local_date_yyyy_mm_dd : Py string :=
  fun w => (Ok (local_date w (clock w)), w).

(** A file operation that is made.  The files the script writes under
    [OUT_DIR] are opened in directories it has created just before; the
    one file it opens elsewhere is the debug page, whose directory may be
    missing ([save_debug_page]). *)
Definition fs_do (op : FsOp) : Py unit :=
  fun w => (Ok tt, log_event w (Disk op)).

Definition path_exists (path : string) : Py bool :=
  fun w => (Ok (match file_at path (disk w) with Some _ => true | None => false end), w).

Definition ensure_dir (path : string) : Py unit := fs_do (MkDirs path).

(** The rows before the first one that cannot be encoded. *)
Fixpoint encodable_rows (ok : JSON -> bool) (rows : list CollectedRow)
  : list CollectedRow :=
  match rows with
  | [] => []
  | row :: rest => if ok (row_raw row) then row :: encodable_rows ok rest else []
  end.

(** [append_jsonl]: the file is opened, the rows are written one after
    the other, and a row that cannot be encoded raises
    [UnicodeEncodeError]; the rows before it are in the file when it is
    closed.  (The other fields of a row are texts and numbers of the
    script.) *)
Definition append_jsonl (path : string) (rows : list CollectedRow) : Py unit :=
  fun w =>
    let written := encodable_rows (encodable w) rows in
    (fs_do (Append path (map RowLine written)) ;;;
     if forallb (fun row => encodable w (row_raw row)) rows then ret tt
     else raise UnicodeEncodeError) w.

(** ** HTTP with retry and backoff *)

Definition UA : string :=
  "Mozilla/5.0 (Windows NT 10.0; Win64; x64) AppleWebKit/537.36 (KHTML, like Gecko) Chrome/144.0.0.0 Safari/537.36".

Definition MAX_RETRIES : Z := 6.
Definition BASE_BACKOFF_SECONDS : Q := 2.
Definition MAX_BACKOFF_SECONDS : Q := 60.
Definition SLEEP_BETWEEN_FUELS : Q * Q := (6 # 5, 12 # 5).

(** [range(lo, hi)]. *)
Definition range (lo hi : Z) : list Z :=
  map (fun k => (lo + Z.of_nat k)%Z) (seq 0 (Z.to_nat (hi - lo))).

(** The [base] of [compute_backoff]. *)
Definition backoff_base (attempt : Z) : Q :=
  Qmin MAX_BACKOFF_SECONDS (BASE_BACKOFF_SECONDS * 2 ^ (attempt - 1)).

(** [compute_backoff] once [random.uniform(0.25, 0.75)] has given [fraction]. *)
Definition backoff_of (attempt : Z) (fraction : Q) : Q :=
  let base := backoff_base attempt in
  let jitter := fraction * base in
  Qmin MAX_BACKOFF_SECONDS (base + jitter).

(** The last attempt whose power of two still converts to a float: at
    [2.0 * (2 ** 1024)] Python raises [OverflowError]. *)
Definition MAX_ATTEMPT : Z := 1024.

Definition compute_backoff (attempt : Z) : Py Q :=
  if (MAX_ATTEMPT <? attempt)%Z then raise OverflowError
  else
    fraction <- random_uniform (1 # 4) (3 # 4) ;;
    ret (backoff_of attempt fraction).

Definition lower_string (s : string) : string := str (map lower (chars s)).

(** [r.headers.get(name)]: the keys compare without case. *)
Fixpoint header_get (name : string) (h : list (string * string)) : option string :=
  match h with
  | [] => None
  | (k, v) :: h' =>
      if String.eqb (lower_string k) (lower_string name) then Some v
      else header_get name h'
  end.

(** [s.isdigit()]. *)
Definition isdigit (s : string) : bool :=
  (truthy_str s && forallb is_digit_char (chars s))%bool.

(** [float(s)] where the script calls it, on a string that passed
    [isdigit]: the number its decimal digits write, and [ValueError] when
    one of its digits is a superscript. *)
Definition py_float (s : string) : Outcome Q :=
  if forallb is_decimal (chars s)
  then Ok (inject_Z (fold_left (fun acc c => (10 * acc + Json.digit_value c)%Z) (chars s) 0%Z))
  else Raise ValueError.

(** The first [n] characters of [s] with every newline turned to a blank. *)
Definition snippet (n : nat) (s : string) : string :=
  str (map (fun c => if Ascii.eqb c "010" then " "%char else c) (firstn n (chars s))).

Definition raise_for_status (r : Response) : Py unit :=
  if ((400 <=? status_code r) && (status_code r <? 600))%Z%bool
  then raise (HTTPError (status_code r))
  else ret tt.

(** How one turn of the [for attempt in ...] loop ends when nothing is raised. *)
Inductive Step :=
| Return (r : Response)
| Continue.

(** The [try] block of [request_with_retry]. *)
Definition attempt_body (rq : Request) (attempt : Z) : Py Step :=
  r <- session_request rq ;;
  if (status_code r =? 429)%Z then
    wait_s <- match header_get "Retry-After" (headers r) with
              | Some retry_after =>
                  if isdigit retry_after then lift (py_float retry_after)
                  else compute_backoff attempt
              | None => compute_backoff attempt
              end ;;
    sleep wait_s ;;;
    ret Continue
  else if (status_code r =? 401)%Z then
    raise (Unauthorized (snippet 300 (text r)))
  else
    raise_for_status r ;;;
    ret (Return r).

(** The loop over the attempts still to make, with its [except] clause. *)
Fixpoint retry_loop (rq : Request) (attempts : list Z) (last_err : option Exn)
  : Py Response :=
  match attempts with
  | [] => raise (RequestFailed last_err)
  | attempt :: rest =>
      fun w =>
        match attempt_body rq attempt w with
        | (Ok (Return r), w') => (Ok r, w')
        | (Ok Continue, w') => retry_loop rq rest last_err w'
        | (Raise e, w') =>
            (wait_s <- compute_backoff attempt ;;
             sleep wait_s ;;;
             retry_loop rq rest (Some e)) w'
        end
  end.

Definition request_with_retry (method url : string)
           (headers data : list (string * string)) : Py Response :=
  retry_loop (mkRequest method url headers data) (range 1 (MAX_RETRIES + 1)) None.

Definition post_products (csrf : string) (payload : list (string * string)) : Py JSON :=
  let headers :=
    [ ("User-Agent", UA);
      ("Accept", "*/*");
      ("Content-Type", "application/x-www-form-urlencoded; charset=UTF-8");
      ("X-Requested-With", "XMLHttpRequest");
      ("Origin", "https://precodahora.ba.gov.br");
      ("Referer", BASE_URL);
      ("X-CSRFToken", csrf) ] in
  r <- request_with_retry "POST" BASE_URL headers payload ;;
  match json r with
  | Some d => ret d
  | None => raise (NotJson (snippet 500 (text r)))
  end.

(** ** Session bootstrap *)

Definition session_get (url : string) (headers : list (string * string)) : Py Response :=
  session_request (mkRequest "GET" url headers []).

(** [if token:] on what an extractor returned. *)
Definition found (o : option string) : option string :=
  match o with
  | Some t => if truthy_str t then Some t else None
  | None => None
  end.

(** The loop [for url in script_urls[:25]] and the [raise] after it. *)
Fixpoint scan_scripts (urls : list string) : Py string :=
  match urls with
  | [] => raise CsrfNotFound
  | url :: rest =>
      rr <- session_get url [("User-Agent", UA); ("Referer", BASE_URL); ("Accept", "*/*")] ;;
      if negb (status_code rr =? 200)%Z then scan_scripts rest
      else
        match found (extract_csrf_from_js_text (text rr)) with
        | Some token => ret token
        | None => sleep (1 # 10) ;;; scan_scripts rest
        end
  end.

(** The call [find_script_srcs(html)]: it raises what [urljoin] raises. *)
Definition call_find_script_srcs (env : Env) (html : string) : Py (list string) :=
  if existsb (fun s => urljoin_fails env (str s))
             (Re.findall true SCRIPT_SRC_RE (chars html))
  then raise ValueError
  else ret (find_script_srcs env html).

(** [with open(./scraping/debug_bootstrap.html, w) as f: f.write(html)]:
    the directory is not created by the script. *)
Definition save_debug_page (env : Env) (html : string) : Py unit :=
  if scraping_dir_exists env
  then fs_do (Write "./scraping/debug_bootstrap.html" [Html html])
  else raise FileNotFoundError.

Definition bootstrap_and_find_csrf (env : Env) : Py string :=
  r <- session_get BASE_URL [] ;;
  raise_for_status r ;;;
  save_debug_page env (text r) ;;;
  match found (extract_csrf_from_html (text r)) with
  | Some csrf => ret csrf
  | None =>
      script_urls <- call_find_script_srcs env (text r) ;;
      scan_scripts (firstn 25 script_urls)
  end.

(** ** Output layout *)

Definition ends_with_slash (s : string) : bool :=
  match rev (chars s) with
  | c :: _ => Ascii.eqb c "/"
  | [] => false
  end.

(** [os.path.join(a, b)]. *)
Definition path_join (a b : string) : string :=
  match b with
  | String "/" _ => b
  | _ => if (negb (truthy_str a) || ends_with_slash a)%bool then a ++ b else a ++ "/" ++ b
  end.

(** [os.path.basename(p)]: what follows the last slash. *)
Fixpoint basename_from (t acc : codepoints) : codepoints :=
  match t with
  | [] => rev acc
  | c :: t' => if Ascii.eqb c "/" then basename_from t' [] else basename_from t' (c :: acc)
  end.
Definition basename (p : string) : string := str (basename_from (chars p) []).

Definition slug_char (c : ascii) : bool :=
  (is_lower c || is_upper c || is_decimal c || mem_char c (chars "_-=."))%bool.

Definition safe_slug (s : string) : string :=
  str (map (fun c => if slug_char c then c else "_"%char) (chars s)).

Record Paths := mkPaths {
  root : string;
  data_jsonl : string;
  manifest : string
}.

Definition make_out_paths (base_out anp run_id : string) : Py Paths :=
  dt <- local_date_yyyy_mm_dd ;;
  let root :=
    path_join (path_join (path_join (path_join base_out "source=precodahora")
                                    ("anp=" ++ safe_slug anp))
                         ("dt=" ++ dt))
              ("run_id=" ++ run_id) in
  ensure_dir root ;;;
  ret (mkPaths root (path_join root "data.jsonl") (path_join root "manifest.json")).

(** ** The collection of one fuel *)

Definition HORAS : Z := 72.
Definition LATITUDE : Q := - (1297111 # 100000).
Definition LONGITUDE : Q := - (3851083 # 100000).
Definition RAIO : Z := 100.
Definition ORDENAR : string := "preco.asc".

Definition FUELS : list string := ["GASOLINA"; "ETANOL"; "GNV"; "DIESEL"].

Definition the_query : QueryMeta := mkQuery HORAS LATITUDE LONGITUDE RAIO ORDENAR 1.

(** [for item in results]: what the loop visits. *)
Definition py_iter (x : JSON) : Outcome (list JSON) :=
  match x with
  | JArr l => Ok l
  | JStr s => Ok (map (fun c => JStr (String c EmptyString)) (chars s))
  | JObj m => Ok (map (fun kv => JStr (fst kv)) m)
  | _ => Raise TypeError
  end.

Definition page_to_rows (collected_at_utc : Z) (run_id anp : string)
           (query_meta : QueryMeta) (data : JSON) : Py (list CollectedRow) :=
  resultado <- lift (Json.get data "resultado" JNull) ;;
  let results := Json.or_empty_list resultado in
  items <- lift (py_iter results) ;;
  ret (map (fun item => mkRow collected_at_utc run_id "precodahora" anp query_meta item) items).

Definition collect_one_page_per_fuel (csrf base_out anp : string) : Py Manifest :=
  run_id <- new_uuid ;;
  paths <- make_out_paths base_out anp run_id ;;
  collected_at <- utc_now_iso ;;
  there <- path_exists (data_jsonl paths) ;;
  (if there then fs_do (Remove (data_jsonl paths)) else ret tt) ;;;
  let payload :=
    [ ("horas", "72"); ("anp", anp); ("latitude", "-12.97111");
      ("longitude", "-38.51083"); ("raio", "100"); ("pagina", "1");
      ("ordenar", ORDENAR) ] in
  data <- post_products csrf payload ;;
  (* sanity checks *)
  tp <- lift (Json.get data "totalPaginas" (JInt 1)) ;;
  total_pages <- lift (Json.int tp) ;;
  tr <- lift (Json.get data "totalRegistros" (JInt 0)) ;;
  total_registros <- lift (Json.int tr) ;;
  resultado <- lift (Json.get data "resultado" JNull) ;;
  n <- lift (Json.len (Json.or_empty_list resultado)) ;;
  rp <- lift (Json.get data "registrosdaPagina" (JInt n)) ;;
  page_count <- lift (Json.int rp) ;;
  resultado <- lift (Json.get data "resultado" JNull) ;;
  let results := Json.or_empty_list resultado in
  (if negb (Json.is_list results) then raise UnexpectedFormat else ret tt) ;;;
  rows <- page_to_rows collected_at run_id anp the_query data ;;
  append_jsonl (data_jsonl paths) rows ;;;
  let m :=
    mkManifest run_id collected_at anp BASE_URL (root paths)
               (basename (data_jsonl paths)) the_query
               (mkStats total_pages total_registros page_count (List.length rows)) in
  fs_do (Write (manifest paths) [ManifestDoc m]) ;;;
  ret m.

(** ** The run *)

(** The loop [for idx, anp in enumerate(FUELS, start=1)], with the
    [try] ... [finally] of its body; [total] is [len(FUELS)]. *)
Fixpoint fuel_loop (env : Env) (csrf : string) (total : nat)
         (todo : list (nat * string)) (runs : list Manifest) : Py (list Manifest) :=
  match todo with
  | [] => ret runs
  | (idx, anp) :: rest =>
      runs' <- try_finally
                 (m <- collect_one_page_per_fuel csrf (OUT_DIR env) anp ;;
                  ret (runs ++ [m])%list)
                 (if (idx <? total)%nat
                  then sleep_s <- random_uniform (fst SLEEP_BETWEEN_FUELS)
                                                 (snd SLEEP_BETWEEN_FUELS) ;;
                       sleep sleep_s
                  else ret tt) ;;
      fuel_loop env csrf total rest runs'
  end.

(** [enumerate(l, start=1)]. *)
Definition enumerate1 {A} (l : list A) : list (nat * A) :=
  combine (seq 1 (List.length l)) l.

Definition overall_path (env : Env) : string :=
  path_join (OUT_DIR env) "overall_manifest.json".

Definition main (env : Env) : Py unit :=
  ensure_dir (OUT_DIR env) ;;;
  csrf <- bootstrap_and_find_csrf env ;;
  finished <- utc_now_iso ;;
  runs <- fuel_loop env csrf (List.length FUELS) (enumerate1 FUELS) [] ;;
  fs_do (Write (overall_path env)
               [OverallDoc (mkOverall finished (abspath env (OUT_DIR env)) runs)]).

(** ** Vocabulary of the properties *)

(** A non-negative integer written in decimal digits, and its value. *)
Definition nonneg_integer_string (s : string) : bool :=
  (truthy_str s && forallb is_decimal (chars s))%bool.

Definition integer_value (s : string) : Z :=
  fold_left (fun acc c => (10 * acc + Json.digit_value c)%Z) (chars s) 0%Z.

(** The value [random.uniform(0.25, 0.75)] takes at the next draw of [w]. *)
Definition next_fraction (w : World) : Q :=
  (1 # 4) + ((3 # 4) - (1 # 4)) * random w (drawn w).

(** The value of the draw after that one. *)
Definition second_fraction (w : World) : Q :=
  (1 # 4) + ((3 # 4) - (1 # 4)) * random w (S (drawn w)).

(** Two header names that differ by the case of their letters at most. *)
Definition same_name (a b : string) : Prop :=
  map lower (chars a) = map lower (chars b).

(** [has_header name h o]: the first entry of the headers [h] whose name
    is [name], case apart, has the value [v] and [o] is [Some v]; or no
    entry has that name and [o] is [None]. *)
Inductive has_header (name : string) : list (string * string) -> option string -> Prop :=
| header_absent : has_header name [] None
| header_here (k v : string) (h : list (string * string)) :
    same_name k name -> has_header name ((k, v) :: h) (Some v)
| header_later (k v : string) (h : list (string * string)) (o : option string) :
    ~ same_name k name -> has_header name h o -> has_header name ((k, v) :: h) o.

(** The most whole seconds [time.sleep] takes. *)
Definition MAX_SLEEP_SECONDS : Z := 9223372036.

(** The seconds a reply asks to wait in a way the script follows: the
    reply is a 429 whose [Retry-After] header is a non-negative integer
    string, of seconds [time.sleep] takes. *)
Definition retry_after_seconds (r : Response) : option Z :=
  match header_get "Retry-After" (headers r) with
  | Some v =>
      if (nonneg_integer_string v && (integer_value v <=? MAX_SLEEP_SECONDS)%Z)%bool
      then Some (integer_value v)
      else None
  | None => None
  end.

Definition honoured (rp : Reply) : option Z :=
  match rp with
  | Responds r => if (status_code r =? 429)%Z then retry_after_seconds r else None
  | Breaks _ => None
  end.

(** The waits of a run of failing attempts, in order: after the attempt
    answered by [reply i] the seconds of [Retry-After] when the reply is
    [honoured], and otherwise the backoff of the attempt computed with the
    next value of [random.random()], [rnd n], [n] values having been drawn
    so far. *)
Fixpoint expected_waits (attempts : list Z) (reply : nat -> Reply) (i : nat)
         (rnd : nat -> Q) (n : nat) : list Q :=
  match attempts with
  | [] => []
  | attempt :: rest =>
      match honoured (reply i) with
      | Some seconds => inject_Z seconds :: expected_waits rest reply (S i) rnd n
      | None =>
          backoff_of attempt ((1 # 4) + ((3 # 4) - (1 # 4)) * rnd n)
            :: expected_waits rest reply (S i) rnd (S n)
      end
  end.

(** The pause [random.uniform(1.2, 2.4)] gives at the next draw of [w]. *)
Definition next_pause (w : World) : Q :=
  fst SLEEP_BETWEEN_FUELS
  + (snd SLEEP_BETWEEN_FUELS - fst SLEEP_BETWEEN_FUELS) * random w (drawn w).

(** An attempt of [request_with_retry] fails on this reply: the transport
    breaks, or the status is a 4xx or 5xx (429 and 401 among them). *)
Definition fails (rp : Reply) : bool :=
  match rp with
  | Breaks _ => true
  | Responds r => ((400 <=? status_code r) && (status_code r <? 600))%Z%bool
  end.

(** What the [except] clause of [request_with_retry] catches on a failing
    reply that is not a 429. *)
Definition cause (rp : Reply) : Exn :=
  match rp with
  | Breaks what => RequestException what
  | Responds r =>
      if (status_code r =? 401)%Z then Unauthorized (snippet 300 (text r))
      else HTTPError (status_code r)
  end.

(** The reply is a response with status [st]. *)
Definition has_status (st : Z) (rp : Reply) : bool :=
  match rp with
  | Responds r => (status_code r =? st)%Z
  | Breaks _ => false
  end.

(** A status [raise_for_status] lets through. *)
Definition passes (r : Response) : bool :=
  negb ((400 <=? status_code r) && (status_code r <? 600))%Z%bool.

(** The token a fetched script asset yields: it was served with status 200
    and its text holds a signed token. *)
Definition carries (rp : Reply) : option string :=
  match rp with
  | Responds rr =>
      if (status_code rr =? 200)%Z then found (extract_csrf_from_js_text (text rr)) else None
  | Breaks _ => None
  end.

(** A fetched script asset that answers and yields no token. *)
Definition yields_nothing (rp : Reply) : bool :=
  match rp with
  | Responds _ => match carries rp with Some _ => false | None => true end
  | Breaks _ => false
  end.

(** How a scan that fetched the first [k] of [urls] may end, the replies to
    its requests being [reply 0], [reply 1], ...: with the token of the
    last asset fetched; with [CsrfNotFound] once every asset was fetched
    and none yielded a token; or with the transport error of the last
    fetch. *)
Definition scan_ends (urls : list string) (reply : nat -> Reply) (k : nat)
           (o : Outcome string) : Prop :=
  (forall j, (S j < k)%nat -> yields_nothing (reply j) = true)
  /\ match o with
     | Ok token => exists i, k = S i /\ carries (reply i) = Some token
     | Raise CsrfNotFound =>
         k = List.length urls
         /\ forall j, (j < k)%nat -> yields_nothing (reply j) = true
     | Raise (RequestException what) => exists i, k = S i /\ reply i = Breaks what
     | Raise _ => False
     end.

(** [data.get(key, default)] on the entries of a JSON object. *)
Definition field (m : list (string * JSON)) (key : string) (default : JSON) : JSON :=
  match Json.lookup key m with Some v => v | None => default end.

(** The request [post_products] sends for the fuel [anp]. *)
Definition products_post (csrf anp : string) : Request :=
  mkRequest "POST" BASE_URL
    [ ("User-Agent", UA);
      ("Accept", "*/*");
      ("Content-Type", "application/x-www-form-urlencoded; charset=UTF-8");
      ("X-Requested-With", "XMLHttpRequest");
      ("Origin", "https://precodahora.ba.gov.br");
      ("Referer", BASE_URL);
      ("X-CSRFToken", csrf) ]
    [ ("horas", "72"); ("anp", anp); ("latitude", "-12.97111");
      ("longitude", "-38.51083"); ("raio", "100"); ("pagina", "1");
      ("ordenar", ORDENAR) ].

Definition landing_get : Request := mkRequest "GET" BASE_URL [] [].

Definition script_get (url : string) : Request :=
  mkRequest "GET" url [("User-Agent", UA); ("Referer", BASE_URL); ("Accept", "*/*")] [].

(** The reply to the [k]-th request from now on. *)
Definition upcoming (w : World) (k : nat) : Reply :=
  network w (List.length (sent w) + k).

(** The [open(path, a)] events of a trace, latest first. *)
Fixpoint appends (t : list Event) : list (string * list Chunk) :=
  match t with
  | [] => []
  | Disk (Append p c) :: t' => (p, c) :: appends t'
  | _ :: t' => appends t'
  end.

(** The overall manifests written in a trace, latest first. *)
Fixpoint overall_writes (t : list Event) : list Overall :=
  match t with
  | [] => []
  | Disk (Write _ [OverallDoc o]) :: t' => o :: overall_writes t'
  | _ :: t' => overall_writes t'
  end.

(** A computation that writes no overall manifest. *)
Definition quiet {A} (m : Py A) : Prop :=
  forall w, overall_writes (trace (snd (m w))) = overall_writes (trace w).

(** *** Sample worlds *)

Definition status_reply (st : Z) : Reply := Responds (mkResponse st [] "" None).

Definition json_reply (d : JSON) : Reply := Responds (mkResponse 200 [] "" (Some d)).

Definition page_reply (s : string) : Reply := Responds (mkResponse 200 [] s None).

(** A network that answers with [l], then breaks. *)
Definition scripted (l : list Reply) : nat -> Reply :=
  fun k => nth k l (Breaks "no more replies").

Definition sample_uuid (k : nat) : string :=
  "run-" ++ String (ascii_of_nat (65 + k)) EmptyString.

(** Starts at time 0 with nothing done; every random draw is one half and
    every value can be encoded. *)
Definition sample_world (net : nat -> Reply) : World :=
  mkWorld net (fun _ => 1 # 2) 0 sample_uuid 0 0 (fun _ => "2026-01-15")
          (fun _ => true) [].

Definition sample_env : Env :=
  mkEnv "./scraping/raw_out" (fun base ref => base ++ ref) (fun _ => false)
        (fun p => "/work/" ++ p) true.

Definition sample_post : Request := mkRequest "POST" BASE_URL [] [].

Definition landing_with_token : Reply :=
  page_reply "<html><meta name='csrf-token' content='ImTok.abc.def'></html>".

(** A landing page without a token that refers to two script assets, the
    first of which is missing while the second holds a token. *)
Definition landing_with_scripts : Response :=
  mkResponse 200 []
    "<html><script defer src='a.js'></script><SCRIPT type='module' SRC='b.js'></SCRIPT></html>"
    None.

Definition scripts_world : World :=
  sample_world (scripted [ Responds landing_with_scripts;
                           status_reply 404;
                           page_reply "window.cfg={csrf:'ImTok.abc.def'};" ]).

(** The same page, the two assets holding a token and being served with
    the statuses 203 and 404. *)
Definition unserved_tokens_world : World :=
  sample_world (scripted [ Responds landing_with_scripts;
                           Responds (mkResponse 203 [] "var t='ImTok.abc.def';" None);
                           Responds (mkResponse 404 [] "ImTok.abc.def" None) ]).

Definition page_of (items : list JSON) : JSON :=
  JObj [ ("resultado", JArr items);
         ("totalPaginas", JInt 1);
         ("totalRegistros", JInt (Z.of_nat (List.length items)));
         ("registrosdaPagina", JInt (Z.of_nat (List.length items))) ].

(** *** What a pattern accepts

    The texts a pattern of the fragment matches, told without the order in
    which the engine tries them. *)
Inductive accepts (icase : bool) : Re.Regex -> codepoints -> Prop :=
| accepts_nil : accepts icase [] []
| accepts_one (cs : Re.CharSet) (cap : bool) (re : Re.Regex) (x : ascii) (t : codepoints) :
    Re.in_set icase cs x = true -> accepts icase re t ->
    accepts icase (Re.item cs Re.One cap :: re) (x :: t)
| accepts_opt_none (cs : Re.CharSet) (cap : bool) (re : Re.Regex) (t : codepoints) :
    accepts icase re t ->
    accepts icase (Re.item cs Re.Opt cap :: re) t
| accepts_opt_some (cs : Re.CharSet) (cap : bool) (re : Re.Regex) (x : ascii) (t : codepoints) :
    Re.in_set icase cs x = true -> accepts icase re t ->
    accepts icase (Re.item cs Re.Opt cap :: re) (x :: t)
| accepts_star (cs : Re.CharSet) (cap : bool) (re : Re.Regex) (xs t : codepoints) :
    forallb (Re.in_set icase cs) xs = true -> accepts icase re t ->
    accepts icase (Re.item cs Re.Star cap :: re) (xs ++ t)%list
| accepts_plus (cs : Re.CharSet) (cap : bool) (re : Re.Regex) (x : ascii) (xs t : codepoints) :
    Re.in_set icase cs x = true -> forallb (Re.in_set icase cs) xs = true ->
    accepts icase re t ->
    accepts icase (Re.item cs Re.Plus cap :: re) (x :: xs ++ t)%list.


(** The pattern has a match somewhere in the text. *)
Definition occurs (icase : bool) (re : Re.Regex) (s : codepoints) : Prop :=
  exists pre t post, s = (pre ++ t ++ post)%list /\ accepts icase re t.


(** The text [t] holds [tok], a piece that has the shape of a signed
    token. *)
Definition signed_token_in (t tok : string) : Prop :=
  exists pre post,
    chars t = (pre ++ chars tok ++ post)%list
    /\ accepts false SIGNED_TOKEN_RE (chars tok).

(** A fetched script asset yields [tok]: it was served with status 200 and
    its text holds [tok]. *)
Definition yields (rp : Reply) (tok : string) : Prop :=
  exists rr,
    rp = Responds rr /\ status_code rr = 200%Z /\ signed_token_in (text rr) tok.

(** A fetched script asset is passed over: it was served with another
    status than 200, or its text holds no signed token. *)
Definition passed_over (rp : Reply) : Prop :=
  exists rr,
    rp = Responds rr
    /\ (status_code rr <> 200%Z \/ ~ occurs false SIGNED_TOKEN_RE (chars (text rr))).

(** [scan_ends] told by what the assets hold rather than by what the
    extractor returns. *)
Definition scan_outcome (urls : list string) (reply : nat -> Reply) (k : nat)
           (o : Outcome string) : Prop :=
  (forall j, (S j < k)%nat -> passed_over (reply j))
  /\ match o with
     | Ok token => exists i, k = S i /\ yields (reply i) token
     | Raise CsrfNotFound =>
         k = List.length urls
         /\ forall j, (j < k)%nat -> passed_over (reply j)
     | Raise (RequestException what) => exists i, k = S i /\ reply i = Breaks what
     | Raise _ => False
     end.

(** The references of script tags in a page. *)
Definition script_refs (html : string) : list string :=
  map str (Re.findall true SCRIPT_SRC_RE (chars html)).

(** A computation that leaves the observation [f] of the world as it was. *)
Definition unchanged {A X : Type} (f : World -> X) (m : Py A) : Prop :=
  forall w, f (snd (m w)) = f w.

(** The events that are no file operation. *)
Definition no_disk (e : Event) : bool :=
  match e with Disk _ => false | _ => true end.

(** The source of run identifiers: how many were minted, and the values to
    come. *)
Definition ids (w : World) : nat * (nat -> string) := (minted w, uuid4 w).

Definition DEBUG_PAGE : string := "./scraping/debug_bootstrap.html".

(** The directory [make_out_paths] gives the run [run_id] of the fuel
    [fuel] on the day [dt]. *)
Definition run_root (base_out fuel dt run_id : string) : string :=
  path_join (path_join (path_join (path_join base_out "source=precodahora")
                                  ("anp=" ++ safe_slug fuel))
                       ("dt=" ++ dt))
            ("run_id=" ++ run_id).

(** The form [collect_one_page_per_fuel] posts for the fuel [fuel]. *)
Definition products_form (fuel : string) : list (string * string) :=
  [ ("horas", "72"); ("anp", fuel); ("latitude", "-12.97111");
    ("longitude", "-38.51083"); ("raio", "100"); ("pagina", "1");
    ("ordenar", ORDENAR) ].

(** The [finally] clause of the loop of [main]. *)
Definition pause (idx total : nat) : Py unit :=
  if (idx <? total)%nat
  then sleep_s <- random_uniform (fst SLEEP_BETWEEN_FUELS) (snd SLEEP_BETWEEN_FUELS) ;;
       sleep sleep_s
  else ret tt.

(** [random.random()] gives no negative number. *)
Definition fair (w : World) : Prop := forall k, (0 <= random w k)%Q.

(** From [w] to [w'] the random source is the same, the events of [w] are
    still there with new ones after them, no sleep among the new ones is
    negative, and the clock has not gone back. *)
Definition calm (w w' : World) : Prop :=
  random w' = random w
  /\ (clock w <= clock w')%Q
  /\ exists t, trace w' = (t ++ trace w)%list
               /\ Forall (fun d => (0 <= d)%Q) (sleeps t).

(** Run in a fair world, [m] is calm, and what it returns satisfies [post]. *)
Definition forward_to {A : Type} (post : A -> Prop) (m : Py A) : Prop :=
  forall w, fair w -> calm w (snd (m w)) /\ forall a, fst (m w) = Ok a -> post a.

Definition anything {A : Type} (a : A) : Prop := True.

Definition nonneg (d : Q) : Prop := (0 <= d)%Q.


(** A character that is no quote, double or single. *)
Definition quote_free (x : ascii) : bool := negb (mem_char x [dquote; squote]).

(** A page whose [resultado] is [null], and a page whose [resultado] is a
    list while [totalPaginas] is [null]. *)
Definition null_page : JSON :=
  JObj [ ("resultado", JNull); ("totalPaginas", JInt 1); ("totalRegistros", JInt 0) ].

Definition uncounted_page : JSON :=
  JObj [ ("resultado", JArr [JStr "posto"]); ("totalPaginas", JNull) ].

(** A page with the given [resultado]. *)
Definition page_with (resultado : JSON) : JSON :=
  JObj [ ("resultado", resultado); ("totalPaginas", JInt 1); ("totalRegistros", JInt 0) ].

(** A page whose [resultado] is a text. *)
Definition malformed_page : JSON :=
  JObj [ ("resultado", JStr "oops"); ("totalPaginas", JInt 1) ].

(** A world like the sample one where the text [bad] stands for a value
    that cannot be encoded. *)
Definition picky_world (net : nat -> Reply) : World :=
  mkWorld net (fun _ => 1 # 2) 0 sample_uuid 0 0 (fun _ => "2026-01-15")
          (fun x => match x with JStr "bad" => false | _ => true end) [].

(** A run in which the page of the first fuel is malformed and those of
    the other fuels are in order; a run in which all four are in order. *)
Definition failing_run_world : World :=
  sample_world (scripted [ landing_with_token;
                           json_reply malformed_page;
                           json_reply (page_of [JStr "b"]);
                           json_reply (page_of [JStr "c"]);
                           json_reply (page_of [JStr "d"]) ]).

Definition full_run_world : World :=
  sample_world (scripted [ landing_with_token;
                           json_reply (page_of [JStr "a"]);
                           json_reply (page_of [JStr "b"]);
                           json_reply (page_of [JStr "c"]);
                           json_reply (page_of [JStr "d"]) ]).

(** * Properties *)

(** ** Texts *)

Lemma chars_str (l : codepoints) : chars (str l) = l.
Proof. apply list_ascii_of_string_of_list_ascii. Qed.

Lemma str_chars (s : string) : str (chars s) = s.
Proof. apply string_of_list_ascii_of_string. Qed.

Lemma length_str (l : codepoints) : String.length (str l) = List.length l.
Proof. induction l as [| c l IH]; simpl; [reflexivity | rewrite IH; reflexivity]. Qed.

Lemma length_chars (s : string) : List.length (chars s) = String.length s.
Proof. rewrite <- (str_chars s) at 2. rewrite length_str. reflexivity. Qed.

Lemma chars_append (a b : string) : chars (a ++ b) = (chars a ++ chars b)%list.
Proof. induction a as [| c a IH]; simpl; [reflexivity | rewrite IH; reflexivity]. Qed.

Lemma str_app (a b : codepoints) : str (a ++ b)%list = str a ++ str b.
Proof. induction a as [| c a IH]; simpl; [reflexivity | rewrite IH; reflexivity]. Qed.

(** ** Token extraction *)

Lemma first_capture_find (ps : list Re.Regex) (html : codepoints) :
  first_capture ps html =
  match find (fun p => Re.matches true p html) ps with
  | Some p => option_map (fun m => str (Re.group1 m)) (Re.search true p html)
  | None => None
  end.
Proof.
  induction ps as [| p ps IH]; simpl; [reflexivity |].
  unfold Re.matches at 1.
  destruct (Re.search true p html) as [m |] eqn:E; simpl.
  - rewrite E. reflexivity.
  - exact IH.
Qed.

Lemma find_matches_some (ps : list Re.Regex) (html : codepoints) (p : Re.Regex) :
  find (fun p => Re.matches true p html) ps = Some p ->
  exists m, Re.search true p html = Some m.
Proof.
  intros H. apply find_some in H. destruct H as [_ H].
  unfold Re.matches in H.
  destruct (Re.search true p html) as [m |]; [exists m; reflexivity | discriminate].
Qed.

Example extract_prefers_first_pattern :
  extract_csrf_from_html
    "<meta name='csrf-token' content='m1'><input type='hidden' NAME='csrf_token' value='tok1'> ImAbc.d-e.f_g"
  = Some "tok1".
Proof. vm_compute. reflexivity. Qed.

Example extract_falls_back_to_signed_shape :
  extract_csrf_from_html "var x = 1; xImAbc.d-e.f_g.h!" = Some "ImAbc.d-e.f_g".
Proof. vm_compute. reflexivity. Qed.

Example extract_not_found :
  extract_csrf_from_html "var x = 1; xIm.d-e.f_g.h!" = None.
Proof. vm_compute. reflexivity. Qed.

(** ** What the engine matches *)

Lemma star_sound (p : ascii -> bool) (cap : bool) (k : Re.Cont)
      (out : codepoints * codepoints) (P : codepoints -> Prop) :
  (forall acc s, k acc s = Some out -> exists t, s = (t ++ snd out)%list /\ P t) ->
  forall s acc,
    Re.star p cap k acc s = Some out ->
    exists xs t, s = (xs ++ t ++ snd out)%list /\ forallb p xs = true /\ P t.
Proof.
  intros K. induction s as [| x s IH]; intros acc H; cbn [Re.star] in H.
  - destruct (K _ _ H) as (t & E & Pt). exists [], t. auto.
  - destruct (p x) eqn:Px.
    + destruct (Re.star p cap k (if cap then x :: acc else acc) s) as [r |] eqn:R.
      * injection H as ->.
        destruct (IH _ R) as (xs & t & E & F & Pt).
        exists (x :: xs), t. cbn. rewrite Px, F, E. auto.
      * destruct (K _ _ H) as (t & E & Pt). exists [], t. auto.
    + destruct (K _ _ H) as (t & E & Pt). exists [], t. auto.
Qed.

(** What [match_here] consumes is a text the pattern accepts. *)
Lemma match_here_sound (icase : bool) (re : Re.Regex) :
  forall acc s cap rest,
    Re.match_here icase re acc s = Some (cap, rest) ->
    exists t, s = (t ++ rest)%list /\ accepts icase re t.
Proof.
  induction re as [| [cs q c] re IH]; intros acc s cap rest H; cbn [Re.match_here] in H.
  - assert (E : s = rest) by congruence. subst rest.
    exists []. split; [reflexivity | constructor].
  - cbn [Re.quant Re.cset Re.captured] in H. destruct q.
    + destruct s as [| x s]; [discriminate |].
      destruct (Re.in_set icase cs x) eqn:Px; [| discriminate].
      destruct (IH _ _ _ _ H) as (t & -> & A).
      exists (x :: t). split; [reflexivity | constructor; assumption].
    + destruct s as [| x s].
      * destruct (IH _ _ _ _ H) as (t & E & A).
        exists t. split; [exact E | apply accepts_opt_none; exact A].
      * destruct (Re.in_set icase cs x) eqn:Px.
        -- match type of H with
           | match ?e with _ => _ end = _ => destruct e as [r |] eqn:R
           end.
           ++ injection H as ->.
              destruct (IH _ _ _ _ R) as (t & -> & A).
              exists (x :: t). split; [reflexivity | apply accepts_opt_some; assumption].
           ++ destruct (IH _ _ _ _ H) as (t & E & A).
              exists t. split; [exact E | apply accepts_opt_none; exact A].
        -- destruct (IH _ _ _ _ H) as (t & E & A).
           exists t. split; [exact E | apply accepts_opt_none; exact A].
    + destruct (@star_sound (Re.in_set icase cs) c (Re.match_here icase re) (cap, rest)
                  (accepts icase re)
                  (fun acc' s' H' => IH acc' s' cap rest H') s acc H)
        as (xs & t & E & F & A).
      exists (xs ++ t)%list. split; [rewrite <- app_assoc; exact E |].
      apply accepts_star; assumption.
    + destruct s as [| x s]; [discriminate |].
      destruct (Re.in_set icase cs x) eqn:Px; [| discriminate].
      destruct (@star_sound (Re.in_set icase cs) c (Re.match_here icase re) (cap, rest)
                  (accepts icase re)
                  (fun acc' s' H' => IH acc' s' cap rest H') s _ H)
        as (xs & t & E & F & A).
      exists (x :: xs ++ t)%list. split; [cbn; rewrite <- app_assoc, E; reflexivity |].
      apply accepts_plus; assumption.
Qed.

Lemma match_at_sound (icase : bool) (re : Re.Regex) (s : codepoints) (m : Re.Match) :
  Re.match_at icase re s = Some m ->
  exists post, s = (Re.whole m ++ post)%list /\ accepts icase re (Re.whole m).
Proof.
  unfold Re.match_at.
  destruct (Re.match_here icase re [] s) as [[cap rest] |] eqn:H; [| discriminate].
  intros E. injection E as <-. cbn [Re.whole].
  destruct (match_here_sound _ _ _ _ H) as (t & -> & A).
  exists rest.
  replace (List.length (t ++ rest) - List.length rest)%nat with (List.length t)
    by (rewrite length_app; lia).
  rewrite firstn_app, firstn_all, Nat.sub_diag. cbn [firstn]. rewrite app_nil_r.
  split; [reflexivity | exact A].
Qed.

(** [re.search] returns a piece of the text, and one the pattern accepts. *)
Lemma search_sound (icase : bool) (re : Re.Regex) (s : codepoints) (m : Re.Match) :
  Re.search icase re s = Some m ->
  exists pre post, s = (pre ++ Re.whole m ++ post)%list /\ accepts icase re (Re.whole m).
Proof.
  induction s as [| x s IH]; cbn [Re.search].
  - destruct (Re.match_at icase re []) as [m' |] eqn:M; [| discriminate].
    intros E. injection E as ->.
    destruct (match_at_sound _ _ _ M) as (post & E & A). exists [], post. auto.
  - destruct (Re.match_at icase re (x :: s)) as [m' |] eqn:M.
    + intros E. injection E as ->.
      destruct (match_at_sound _ _ _ M) as (post & E & A). exists [], post. auto.
    + intros H. destruct (IH H) as (pre & post & -> & A).
      exists (x :: pre), post. auto.
Qed.

Lemma accepts_lit (icase : bool) (c : ascii) (cap : bool) (re : Re.Regex) (t : codepoints) :
  accepts icase (Re.item (Re.Lit c) Re.One cap :: re) t ->
  exists x t', t = x :: t' /\ Re.in_set icase (Re.Lit c) x = true /\ accepts icase re t'.
Proof. intros H. inversion H; subst. eauto. Qed.

Lemma accepts_some (icase : bool) (cs : Re.CharSet) (cap : bool) (re : Re.Regex)
      (t : codepoints) :
  accepts icase (Re.item cs Re.Plus cap :: re) t ->
  exists a t', t = (a ++ t')%list /\ a <> [] /\ forallb (Re.in_set icase cs) a = true
               /\ accepts icase re t'.
Proof.
  intros H. inversion H; subst.
  exists (x :: xs), t0. repeat split; try assumption; try discriminate.
  cbn. rewrite H3, H5. reflexivity.
Qed.

(** A match of the signed-token pattern is a piece of the text made of
    [Im] and three non-empty runs of word characters with dots between. *)
Lemma signed_token_shape (s : codepoints) (m : Re.Match) :
  Re.search false SIGNED_TOKEN_RE s = Some m ->
  exists pre a b c post,
    s = (pre ++ Re.whole m ++ post)%list
    /\ Re.whole m = (chars "Im" ++ a ++ chars "." ++ b ++ chars "." ++ c)%list
    /\ a <> [] /\ b <> [] /\ c <> []
    /\ forallb Re.word64 (a ++ b ++ c) = true.
Proof.
  intros S.
  destruct (search_sound _ _ _ S) as (pre & post & E & A).
  exists pre. revert E A. generalize (Re.whole m) as w. intros w E A.
  change SIGNED_TOKEN_RE with
    ([Re.item (Re.Lit "I") Re.One false; Re.item (Re.Lit "m") Re.One false;
      Re.item Re.Word64 Re.Plus false; Re.item (Re.Lit ".") Re.One false;
      Re.item Re.Word64 Re.Plus false; Re.item (Re.Lit ".") Re.One false;
      Re.item Re.Word64 Re.Plus false]) in A.
  destruct (accepts_lit A) as (x1 & t1 & -> & X1 & A1).
  destruct (accepts_lit A1) as (x2 & t2 & -> & X2 & A2).
  destruct (accepts_some A2) as (a & t3 & -> & Na & Fa & A3).
  destruct (accepts_lit A3) as (x3 & t4 & -> & X3 & A4).
  destruct (accepts_some A4) as (b & t5 & -> & Nb & Fb & A5).
  destruct (accepts_lit A5) as (x4 & t6 & -> & X4 & A6).
  destruct (accepts_some A6) as (c & t7 & -> & Nc & Fc & A7).
  revert E. inversion A7; subst. intros E.
  cbn [Re.in_set] in X1, X2, X3, X4.
  change (Re.in_set false Re.Word64) with Re.word64 in Fa, Fb, Fc.
  apply Ascii.eqb_eq in X1, X2, X3, X4. subst x1 x2 x3 x4.
  rewrite app_nil_r in E |- *. exists a, b, c, post.
  split; [exact E | split; [reflexivity |]].
  repeat split; try assumption.
  rewrite !forallb_app, Fa, Fb, Fc. reflexivity.
Qed.

(** X4.  The token [extract_csrf_from_js_text] returns is a piece of the
    text it was given, and has the shape of a signed token: [Im], then
    three non-empty runs of letters, digits, underscores and hyphens with a
    dot between them. *)
Theorem extract_csrf_from_js_text_shape (t tok : string) :
  extract_csrf_from_js_text t = Some tok ->
  exists pre a b c post,
    chars t = (pre ++ chars tok ++ post)%list
    /\ chars tok = (chars "Im" ++ a ++ chars "." ++ b ++ chars "." ++ c)%list
    /\ a <> [] /\ b <> [] /\ c <> []
    /\ forallb Re.word64 (a ++ b ++ c) = true.
Proof.
  unfold extract_csrf_from_js_text.
  destruct (Re.search false SIGNED_TOKEN_RE (chars t)) as [m |] eqn:S; [| discriminate].
  intros E. injection E as <-. rewrite chars_str.
  exact (signed_token_shape _ S).
Qed.

Lemma extract_csrf_from_js_text_shape_witness :
  exists pre a b c post,
    chars "window.cfg={csrf:'ImTok.abc.def'};"
    = (pre ++ chars "ImTok.abc.def" ++ post)%list
    /\ chars "ImTok.abc.def" = (chars "Im" ++ a ++ chars "." ++ b ++ chars "." ++ c)%list
    /\ a <> [] /\ b <> [] /\ c <> []
    /\ forallb Re.word64 (a ++ b ++ c) = true.
Proof.
  apply (@extract_csrf_from_js_text_shape "window.cfg={csrf:'ImTok.abc.def'};"
           "ImTok.abc.def").
  vm_compute. reflexivity.
Defined.

(** *** What the engine captures *)

Lemma star_inv (p : ascii -> bool) (cap : bool) (k : Re.Cont)
      (out : codepoints * codepoints) :
  forall s acc,
    Re.star p cap k acc s = Some out ->
    exists xs s',
      s = (xs ++ s')%list /\ forallb p xs = true
      /\ k (if cap then rev xs ++ acc else acc)%list s' = Some out.
Proof.
  induction s as [| x s IH]; intros acc H; cbn [Re.star] in H.
  - exists [], []. destruct cap; auto.
  - destruct (p x) eqn:Px.
    + match type of H with
      | match ?e with _ => _ end = _ => destruct e as [r |] eqn:R
      end.
      * injection H as ->.
        destruct (IH _ R) as (xs & s' & -> & F & K).
        exists (x :: xs), s'. cbn [forallb app rev]. rewrite Px, F.
        repeat split. destruct cap; [rewrite <- app_assoc; exact K | exact K].
      * exists [], (x :: s). destruct cap; auto.
    + exists [], (x :: s). destruct cap; auto.
Qed.

(** The captured text is made of characters of captured items. *)
Lemma match_here_captures (icase : bool) (Q : ascii -> Prop) (re : Re.Regex) :
  (forall it x, In it re -> Re.captured it = true ->
                Re.in_set icase (Re.cset it) x = true -> Q x) ->
  forall acc s cap rest,
    Re.match_here icase re acc s = Some (cap, rest) ->
    exists g, cap = (rev acc ++ g)%list /\ Forall Q g.
Proof.
  induction re as [| [cs q c] re IH]; intros HQ acc s cap rest H; cbn [Re.match_here] in H.
  - exists []. split; [rewrite app_nil_r; congruence | constructor].
  - cbn [Re.quant Re.cset Re.captured] in H.
    assert (HQ' : forall it x, In it re -> Re.captured it = true ->
                               Re.in_set icase (Re.cset it) x = true -> Q x)
      by (intros it x I; apply HQ; right; exact I).
    assert (here : forall x, c = true -> Re.in_set icase cs x = true -> Q x)
      by (intros x C I; apply (HQ (Re.item cs q c) x); [left; reflexivity | exact C | exact I]).
    assert (push : forall x acc' s',
               Re.in_set icase cs x = true ->
               Re.match_here icase re (if c then x :: acc' else acc') s' = Some (cap, rest) ->
               exists g, cap = (rev acc' ++ g)%list /\ Forall Q g).
    { intros x acc' s' Px K. destruct (IH HQ' _ _ _ _ K) as (g & E & F).
      destruct c; [| exists g; auto].
      exists (x :: g). cbn [rev] in E. rewrite <- app_assoc in E.
      split; [exact E | constructor; auto]. }
    assert (run : forall xs acc' s',
               forallb (Re.in_set icase cs) xs = true ->
               Re.match_here icase re (if c then rev xs ++ acc' else acc')%list s'
               = Some (cap, rest) ->
               exists g, cap = (rev acc' ++ g)%list /\ Forall Q g).
    { intros xs acc' s' F K. destruct (IH HQ' _ _ _ _ K) as (g & E & G).
      destruct c; [| exists g; auto].
      exists (xs ++ g)%list. rewrite rev_app_distr, rev_involutive, <- app_assoc in E.
      split; [exact E |]. apply Forall_app. split; [| exact G].
      apply Forall_forall. intros x I. apply here; [reflexivity |].
      rewrite forallb_forall in F. auto. }
    destruct q.
    + destruct s as [| x s]; [discriminate |].
      destruct (Re.in_set icase cs x) eqn:Px; [| discriminate].
      exact (push x acc s Px H).
    + destruct s as [| x s]; [exact (IH HQ' _ _ _ _ H) |].
      destruct (Re.in_set icase cs x) eqn:Px; [| exact (IH HQ' _ _ _ _ H)].
      match type of H with
      | match ?e with _ => _ end = _ => destruct e as [r |] eqn:R
      end; [| exact (IH HQ' _ _ _ _ H)].
      injection H as ->. exact (push x acc s Px R).
    + destruct (star_inv _ _ _ _ _ H) as (xs & s' & _ & F & K).
      exact (run xs acc s' F K).
    + destruct s as [| x s]; [discriminate |].
      destruct (Re.in_set icase cs x) eqn:Px; [| discriminate].
      destruct (star_inv _ _ _ _ _ H) as (xs & s' & _ & F & K).
      destruct c.
      * destruct (run xs (x :: acc) s' F K) as (g & E & G).
        exists (x :: g). cbn [rev] in E. rewrite <- app_assoc in E.
        split; [exact E | constructor; auto].
      * exact (run xs acc s' F K).
Qed.

(** A pattern with a captured [+] item captures at least one character. *)
Lemma match_here_captures_some (icase : bool) (re : Re.Regex) :
  Exists (fun it => Re.captured it = true /\ Re.quant it = Re.Plus) re ->
  forall acc s cap rest,
    Re.match_here icase re acc s = Some (cap, rest) ->
    (List.length acc < List.length cap)%nat.
Proof.
  assert (grows : forall re acc s cap rest,
             Re.match_here icase re acc s = Some (cap, rest) ->
             (List.length acc <= List.length cap)%nat).
  { intros re0 acc s cap rest H.
    destruct (@match_here_captures icase (fun _ => True) re0 (fun _ _ _ _ _ => I)
                _ _ _ _ H) as (g & -> & _).
    rewrite length_app, length_rev. lia. }
  induction re as [| [cs q c] re IH]; intros HE acc s cap rest H;
    [inversion HE |].
  cbn [Re.match_here] in H. cbn [Re.quant Re.cset Re.captured] in H.
  inversion HE as [it l [C P] | it l HE']; subst.
  - cbn in C, P. subst c q.
    destruct s as [| x s]; [discriminate |].
    destruct (Re.in_set icase cs x); [| discriminate].
    destruct (star_inv _ _ _ _ _ H) as (xs & s' & _ & _ & K).
    pose proof (grows _ _ _ _ _ K) as G.
    rewrite length_app, length_rev in G. cbn in G. lia.
  - assert (later : forall acc' s',
               (List.length acc <= List.length acc')%nat ->
               Re.match_here icase re acc' s' = Some (cap, rest) ->
               (List.length acc < List.length cap)%nat)
      by (intros acc' s' L K; pose proof (IH HE' _ _ _ _ K); lia).
    destruct q.
    + destruct s as [| x s]; [discriminate |].
      destruct (Re.in_set icase cs x); [| discriminate].
      eapply later; [| exact H]; destruct c; cbn; lia.
    + destruct s as [| x s]; [exact (later _ _ (Nat.le_refl _) H) |].
      destruct (Re.in_set icase cs x); [| exact (later _ _ (Nat.le_refl _) H)].
      match type of H with
      | match ?e with _ => _ end = _ => destruct e as [r |] eqn:R
      end; [| exact (later _ _ (Nat.le_refl _) H)].
      injection H as ->. eapply later; [| exact R]; destruct c; cbn; lia.
    + destruct (star_inv _ _ _ _ _ H) as (xs & s' & _ & _ & K).
      eapply later; [| exact K]; destruct c; rewrite ?length_app; lia.
    + destruct s as [| x s]; [discriminate |].
      destruct (Re.in_set icase cs x); [| discriminate].
      destruct (star_inv _ _ _ _ _ H) as (xs & s' & _ & _ & K).
      eapply later; [| exact K]; destruct c; rewrite ?length_app; cbn; lia.
Qed.

Lemma search_captures (icase : bool) (re : Re.Regex) (s : codepoints) (m : Re.Match) :
  Re.search icase re s = Some m ->
  exists s' rest, Re.match_here icase re [] s' = Some (Re.group1 m, rest).
Proof.
  assert (at_ : forall s0, Re.match_at icase re s0 = Some m ->
                           exists rest, Re.match_here icase re [] s0 = Some (Re.group1 m, rest)).
  { intros s0. unfold Re.match_at.
    destruct (Re.match_here icase re [] s0) as [[cap rest] |]; [| discriminate].
    intros E. injection E as <-. exists rest. reflexivity. }
  induction s as [| x s IH]; cbn [Re.search];
    destruct (Re.match_at icase re _) as [m' |] eqn:M; try discriminate.
  - intros E. injection E as ->. destruct (at_ _ M) as [rest R]. eauto.
  - intros E. injection E as ->. destruct (at_ _ M) as [rest R]. eauto.
  - exact IH.
Qed.

Lemma patterns_capture_values :
  Forall (fun p =>
            (forall it, In it p -> Re.captured it = true -> Re.cset it = not_quote)
            /\ Exists (fun it => Re.captured it = true /\ Re.quant it = Re.Plus) p)
         patterns.
Proof.
  unfold patterns. repeat (apply Forall_cons; [split |]); try apply Forall_nil.
  all: try (intros it I C; cbv in I;
            repeat (destruct I as [<- | I]; [try discriminate C; reflexivity |]);
            contradiction).
  all: apply Exists_exists; exists (Re.item not_quote Re.Plus true);
    (split; [cbv; repeat first [left; reflexivity | right] | split; reflexivity]).
Qed.

Lemma word64_quote_free (x : ascii) : Re.word64 x = true -> quote_free x = true.
Proof.
  intros W. unfold quote_free, mem_char. cbn [existsb].
  destruct (Ascii.eqb x dquote) eqn:E1;
    [apply Ascii.eqb_eq in E1; subst x; discriminate |].
  destruct (Ascii.eqb x squote) eqn:E2;
    [apply Ascii.eqb_eq in E2; subst x; discriminate |].
  reflexivity.
Qed.

(** X5.  A token [extract_csrf_from_html] returns is never empty and holds
    no quote character, double or single. *)
Theorem extract_csrf_from_html_token (html tok : string) :
  extract_csrf_from_html html = Some tok ->
  tok <> "" /\ forallb quote_free (chars tok) = true.
Proof.
  unfold extract_csrf_from_html. rewrite first_capture_find.
  destruct (find (fun p => Re.matches true p (chars html)) patterns) as [p |] eqn:F.
  - destruct (find_matches_some _ _ F) as [m S]. rewrite S. cbn [option_map].
    intros E. injection E as <-.
    apply find_some in F. destruct F as [I _].
    pose proof patterns_capture_values as V. rewrite Forall_forall in V.
    destruct (V p I) as [C X].
    destruct (search_captures _ _ _ S) as (s' & rest & H).
    pose proof (@match_here_captures_some true p X _ _ _ _ H) as L.
    assert (HQ : forall it x, In it p -> Re.captured it = true ->
                              Re.in_set true (Re.cset it) x = true -> quote_free x = true).
    { intros it x Iit Cit. rewrite (C it Iit Cit). cbn [Re.in_set not_quote].
      intros Q. exact Q. }
    destruct (@match_here_captures true (fun x => quote_free x = true) p HQ
                [] s' (Re.group1 m) rest H) as (g & E & G).
    cbn [rev app] in E. rewrite E in *. split.
    + intros Z. apply (f_equal chars) in Z. rewrite chars_str in Z.
      rewrite Z in L. cbn in L. lia.
    + rewrite chars_str. apply forallb_forall. rewrite Forall_forall in G. exact G.
  - destruct (Re.search false SIGNED_TOKEN_RE (chars html)) as [m |] eqn:S; [| discriminate].
    intros E. injection E as <-. rewrite chars_str.
    destruct (signed_token_shape _ S) as (pre & a & b & c & post & _ & -> & _ & _ & _ & W).
    split.
    + intros Z. apply (f_equal chars) in Z. rewrite chars_str in Z. discriminate.
    + rewrite !forallb_app in W. apply andb_true_iff in W. destruct W as [Wa W].
      apply andb_true_iff in W. destruct W as [Wb Wc].
      assert (qf : forall l, forallb Re.word64 l = true -> forallb quote_free l = true).
      { induction l as [| x l IH]; cbn [forallb]; [reflexivity |].
        intros H. apply andb_true_iff in H. destruct H as [Hx Hl].
        rewrite (word64_quote_free _ Hx), (IH Hl). reflexivity. }
      rewrite !forallb_app, (qf a Wa), (qf b Wb), (qf c Wc). reflexivity.
Qed.

Lemma extract_csrf_from_html_token_witness :
  "ImTok.abc.def" <> "" /\ forallb quote_free (chars "ImTok.abc.def") = true.
Proof.
  apply (@extract_csrf_from_html_token
           "<html><meta name='csrf-token' content='ImTok.abc.def'></html>" "ImTok.abc.def").
  vm_compute. reflexivity.
Defined.

(** ** The contract of the markup extraction *)

(** *** The engine finds what a pattern accepts *)

Lemma star_complete (p : ascii -> bool) (cap : bool) (k : Re.Cont) (s : codepoints) :
  (forall acc, k acc s <> None) ->
  forall xs acc, forallb p xs = true -> Re.star p cap k acc (xs ++ s)%list <> None.
Proof.
  intros K.
  assert (base : forall acc, Re.star p cap k acc s <> None).
  { intros acc. destruct s as [| x s']; cbn [Re.star]; [apply K |].
    destruct (p x); [| apply K].
    destruct (Re.star p cap k (if cap then x :: acc else acc) s'); [discriminate | apply K]. }
  induction xs as [| x xs IH]; intros acc F; cbn [app]; [apply base |].
  cbn [forallb] in F. apply andb_true_iff in F. destruct F as [Px Fxs].
  cbn [Re.star]. rewrite Px.
  destruct (Re.star p cap k (if cap then x :: acc else acc) (xs ++ s)%list) eqn:R;
    [discriminate |].
  exfalso. exact (IH _ Fxs R).
Qed.

(** Backtracking tries every way to match: a text the pattern accepts is
    matched at the head of whatever follows it (by this match or by a
    longer one). *)
Lemma match_here_complete (icase : bool) (re : Re.Regex) (t : codepoints) :
  accepts icase re t ->
  forall acc rest, Re.match_here icase re acc (t ++ rest)%list <> None.
Proof.
  induction 1 as [| cs cap re x t Px A IH | cs cap re t A IH | cs cap re x t Px A IH
                  | cs cap re xs t F A IH | cs cap re x xs t Px F A IH];
    intros acc rest; cbn [Re.match_here Re.quant Re.cset Re.captured app].
  - discriminate.
  - rewrite Px. apply IH.
  - destruct (t ++ rest)%list as [| x s'] eqn:E.
    + rewrite <- E. apply IH.
    + destruct (Re.in_set icase cs x); [| rewrite <- E; apply IH].
      match goal with
      | |- match ?e with _ => _ end <> None => destruct e
      end; [discriminate | rewrite <- E; apply IH].
  - rewrite Px.
    match goal with
    | |- match ?e with _ => _ end <> None => destruct e eqn:K
    end; [discriminate |].
    exfalso. exact (IH _ _ K).
  - rewrite <- app_assoc. apply star_complete; [intros acc'; apply IH | exact F].
  - rewrite Px, <- app_assoc. apply star_complete; [intros acc'; apply IH | exact F].
Qed.

Lemma search_complete (icase : bool) (re : Re.Regex) (s : codepoints) :
  occurs icase re s -> Re.search icase re s <> None.
Proof.
  intros (pre & t & post & -> & A).
  assert (here : forall s0, Re.match_at icase re s0 <> None -> Re.search icase re s0 <> None).
  { intros s0 M. destruct s0; cbn [Re.search];
      destruct (Re.match_at icase re _); congruence. }
  induction pre as [| x pre IH]; cbn [app].
  - apply here. unfold Re.match_at.
    pose proof (match_here_complete A [] post) as M.
    destruct (Re.match_here icase re [] (t ++ post)%list) as [[cap rest] |];
      [discriminate | contradiction].
  - cbn [Re.search]. destruct (Re.match_at icase re (x :: pre ++ t ++ post)%list);
      [discriminate | exact IH].
Qed.

(** [re.search] finds a match exactly when the text holds one. *)
Lemma matches_iff_occurs (icase : bool) (re : Re.Regex) (s : codepoints) :
  Re.matches icase re s = true <-> occurs icase re s.
Proof.
  unfold Re.matches. split.
  - destruct (Re.search icase re s) as [m |] eqn:S; [| discriminate].
    intros _. destruct (search_sound _ _ _ S) as (pre & post & E & A).
    exists pre, (Re.whole m), post. auto.
  - intros O. pose proof (search_complete O).
    destruct (Re.search icase re s); [reflexivity | contradiction].
Qed.

(** *** What the engine returns as group 1 *)











(** ** Backoff *)

Section Backoff.

Local Open Scope Q_scope.

Lemma backoff_base_pos (attempt : Z) : 0 < backoff_base attempt.
Proof.
  unfold backoff_base, MAX_BACKOFF_SECONDS, BASE_BACKOFF_SECONDS.
  assert (H : 0 < 2 ^ (attempt - 1)) by (apply Qpower_0_lt; reflexivity).
  destruct (Q.min_spec 60 (2 * 2 ^ (attempt - 1))) as [[_ E] | [_ E]]; rewrite E; lra.
Qed.

Lemma backoff_base_le_max (attempt : Z) : backoff_base attempt <= MAX_BACKOFF_SECONDS.
Proof. unfold backoff_base. apply Q.le_min_l. Qed.

Lemma backoff_base_small (attempt : Z) :
  (1 <= attempt <= 5)%Z -> backoff_base attempt <= 32.
Proof.
  intros H.
  assert (E : (attempt = 1 \/ attempt = 2 \/ attempt = 3 \/ attempt = 4 \/ attempt = 5)%Z) by lia.
  destruct E as [-> | [-> | [-> | [-> | ->]]]]; vm_compute; discriminate.
Qed.

Lemma backoff_of_spec (attempt : Z) (fraction : Q) :
  backoff_of attempt fraction
  == Qmin MAX_BACKOFF_SECONDS (backoff_base attempt + fraction * backoff_base attempt).
Proof. reflexivity. Qed.

Lemma backoff_of_nonneg (attempt : Z) (fraction : Q) :
  0 <= fraction -> 0 <= backoff_of attempt fraction.
Proof.
  intros Hf. rewrite backoff_of_spec.
  pose proof (backoff_base_pos attempt) as Hb.
  unfold MAX_BACKOFF_SECONDS.
  destruct (Q.min_spec 60 (backoff_base attempt + fraction * backoff_base attempt))
    as [[_ E] | [_ E]]; rewrite E; nra.
Qed.

Lemma backoff_of_le_max (attempt : Z) (fraction : Q) :
  backoff_of attempt fraction <= MAX_BACKOFF_SECONDS.
Proof. unfold backoff_of. apply Q.le_min_l. Qed.

(** [time.sleep] takes every backoff. *)
Lemma backoff_can_be_slept (attempt : Z) (fraction : Q) :
  Qle_bool (backoff_of attempt fraction) SLEEP_MAX = true.
Proof.
  apply Qle_bool_iff. eapply Qle_trans; [apply backoff_of_le_max |].
  vm_compute. discriminate.
Qed.

(** Up to the attempt 1024 [compute_backoff] draws once and returns
    [backoff_of] the fraction drawn; beyond, it raises before drawing. *)
Lemma compute_backoff_draws (attempt : Z) (w : World) :
  (attempt <= MAX_ATTEMPT)%Z ->
  compute_backoff attempt w
  = (Ok (backoff_of attempt (next_fraction w)), set_drawn w (S (drawn w))).
Proof.
  intros H. unfold compute_backoff.
  destruct (Z.ltb_spec MAX_ATTEMPT attempt); [lia | reflexivity].
Qed.

Lemma compute_backoff_overflows (attempt : Z) (w : World) :
  (MAX_ATTEMPT < attempt)%Z -> compute_backoff attempt w = (Raise OverflowError, w).
Proof.
  intros H. unfold compute_backoff.
  destruct (Z.ltb_spec MAX_ATTEMPT attempt); [reflexivity | lia].
Qed.

(** [random.random()] lies in the unit interval, so the fraction drawn lies
    between a quarter and three quarters. *)
Lemma next_fraction_range (w : World) :
  0 <= random w (drawn w) <= 1 -> 1 # 4 <= next_fraction w <= 3 # 4.
Proof. unfold next_fraction. intros [H0 H1]. split; lra. Qed.

Lemma backoff_of_bounds (attempt : Z) (fraction : Q) :
  1 # 4 <= fraction -> fraction <= 3 # 4 ->
  backoff_of attempt fraction <= MAX_BACKOFF_SECONDS
  /\ Qmin MAX_BACKOFF_SECONDS ((5 # 4) * backoff_base attempt) <= backoff_of attempt fraction
  /\ ((1 <= attempt <= 5)%Z -> (5 # 4) * backoff_base attempt <= backoff_of attempt fraction).
Proof.
  intros Hlo Hhi.
  pose proof (backoff_base_pos attempt) as Hb.
  rewrite backoff_of_spec.
  set (b := backoff_base attempt) in *.
  assert (Hj : (5 # 4) * b <= b + fraction * b) by nra.
  split; [apply Q.le_min_l | split].
  - apply Q.min_le_compat_l. exact Hj.
  - intros H5.
    assert (Hs : b <= 32) by (apply backoff_base_small; lia).
    apply Q.min_glb; [unfold MAX_BACKOFF_SECONDS; lra | exact Hj].
Qed.

(** C4.  For every attempt number from 1 to 1024 and every jitter fraction
    between 0.25 and 0.75, [compute_backoff] returns a backoff that is at
    most [MAX_BACKOFF_SECONDS] and at least the smaller of
    [MAX_BACKOFF_SECONDS] and 1.25 times the capped base; it is at least
    1.25 times the capped base itself for the attempts up to the fifth,
    where that product stays under the cap.  From the attempt 1025 on,
    [compute_backoff] raises [OverflowError] and draws nothing. *)
Theorem compute_backoff_bounds (attempt : Z) (w : World) :
  (1 <= attempt)%Z -> 1 # 4 <= next_fraction w -> next_fraction w <= 3 # 4 ->
  if (attempt <=? MAX_ATTEMPT)%Z then
    exists d,
      compute_backoff attempt w = (Ok d, set_drawn w (S (drawn w)))
      /\ d = backoff_of attempt (next_fraction w)
      /\ d <= MAX_BACKOFF_SECONDS
      /\ Qmin MAX_BACKOFF_SECONDS ((5 # 4) * backoff_base attempt) <= d
      /\ ((attempt <= 5)%Z -> (5 # 4) * backoff_base attempt <= d)
  else compute_backoff attempt w = (Raise OverflowError, w).
Proof.
  intros Hn Hlo Hhi.
  destruct (Z.leb_spec attempt MAX_ATTEMPT) as [Hin | Hout].
  - exists (backoff_of attempt (next_fraction w)).
    destruct (backoff_of_bounds attempt Hlo Hhi) as (B1 & B2 & B3).
    split; [apply compute_backoff_draws; exact Hin | split; [reflexivity |]].
    split; [exact B1 | split; [exact B2 |]].
    intros H5. apply B3. lia.
  - apply compute_backoff_overflows. exact Hout.
Qed.

Lemma compute_backoff_bounds_witness :
  exists d,
    compute_backoff 3 (sample_world (scripted []))
    = (Ok d, set_drawn (sample_world (scripted [])) 1)
    /\ d = backoff_of 3 (next_fraction (sample_world (scripted [])))
    /\ d <= MAX_BACKOFF_SECONDS
    /\ Qmin MAX_BACKOFF_SECONDS ((5 # 4) * backoff_base 3) <= d
    /\ ((3 <= 5)%Z -> (5 # 4) * backoff_base 3 <= d).
Proof.
  apply (@compute_backoff_bounds 3 (sample_world (scripted [])));
    [lia | vm_compute; discriminate | vm_compute; discriminate].
Defined.

(** The lower bound of 1.25 times the capped base does not hold from the
    sixth attempt on: there the capped base is 60, and so is the backoff. *)
Lemma compute_backoff_lower_bound_fails :
  ~ (forall (attempt : Z) (fraction : Q),
        (1 <= attempt)%Z -> 1 # 4 <= fraction -> fraction <= 3 # 4 ->
        backoff_of attempt fraction <= MAX_BACKOFF_SECONDS
        /\ (5 # 4) * backoff_base attempt <= backoff_of attempt fraction).
Proof.
  intros H.
  destruct (H 6%Z (1 # 4)) as [_ Hlow]; [lia | lra | lra |].
  vm_compute in Hlow. apply Hlow. reflexivity.
Qed.

End Backoff.

(** ** The retrying request *)

Ltac run_py :=
  unfold compute_backoff, random_uniform, sleep, raise_for_status, lift, raise, ret, bind,
    session_get, session_request, ensure_dir, append_jsonl, fs_do, utc_now_iso, new_uuid,
    local_date_yyyy_mm_dd, path_exists, try_except, try_finally in *;
  cbn [fst snd] in *.

Ltac done_step := eexists _, _; repeat split; reflexivity.

Lemma upcoming_0 (w : World) : upcoming w 0 = network w (List.length (sent w)).
Proof. unfold upcoming. rewrite Nat.add_0_r. reflexivity. Qed.

Lemma decimal_is_digit (l : codepoints) :
  forallb is_decimal l = true -> forallb is_digit_char l = true.
Proof.
  induction l as [| c l IH]; simpl; [reflexivity |].
  intros H. apply andb_true_iff in H. destruct H as [Hc Hl].
  rewrite (IH Hl). unfold is_digit_char. rewrite Hc. reflexivity.
Qed.

Lemma nonneg_integer_string_isdigit (v : string) :
  nonneg_integer_string v = (isdigit v && forallb is_decimal (chars v))%bool.
Proof.
  unfold nonneg_integer_string, isdigit.
  destruct (truthy_str v); simpl; [| reflexivity].
  destruct (forallb is_decimal (chars v)) eqn:E.
  - rewrite (decimal_is_digit _ E). reflexivity.
  - rewrite andb_false_r. reflexivity.
Qed.

(** [r.headers.get(name)] returns the header [has_header] tells. *)
Lemma header_get_spec (name : string) (h : list (string * string)) (o : option string) :
  has_header name h o -> header_get name h = o.
Proof.
  induction 1 as [| k v h S | k v h o N H IH]; cbn [header_get].
  - reflexivity.
  - unfold lower_string. unfold same_name in S. rewrite S, String.eqb_refl. reflexivity.
  - destruct (String.eqb (lower_string k) (lower_string name)) eqn:E; [| exact IH].
    exfalso. apply N. apply String.eqb_eq in E. unfold lower_string in E.
    apply (f_equal chars) in E. rewrite !chars_str in E. exact E.
Qed.

Lemma sleep_returns (d : Q) (w : World) :
  Qle_bool d SLEEP_MAX = true -> sleep d w = (Ok tt, advance w d).
Proof. intros H. unfold sleep. rewrite H. reflexivity. Qed.

Lemma sleep_overflows (d : Q) (w : World) :
  Qle_bool d SLEEP_MAX = false -> sleep d w = (Raise OverflowError, w).
Proof. intros H. unfold sleep. rewrite H. reflexivity. Qed.

(** Of the whole numbers of seconds, [time.sleep] takes those up to
    [MAX_SLEEP_SECONDS]. *)
Lemma whole_seconds_can_be_slept (n : Z) :
  Qle_bool (inject_Z n) SLEEP_MAX = (n <=? MAX_SLEEP_SECONDS)%Z.
Proof.
  unfold Qle_bool, SLEEP_MAX, MAX_SLEEP_SECONDS, inject_Z. cbn [Qnum Qden].
  destruct (Z.leb_spec n 9223372036); [apply Z.leb_le | apply Z.leb_gt]; lia.
Qed.

Lemma retry_loop_step (rq : Request) (attempt : Z) (rest : list Z)
      (last_err : option Exn) (w : World) :
  retry_loop rq (attempt :: rest) last_err w
  = match attempt_body rq attempt w with
    | (Ok (Return r), w') => (Ok r, w')
    | (Ok Continue, w') => retry_loop rq rest last_err w'
    | (Raise e, w') =>
        (wait_s <- compute_backoff attempt ;;
         sleep wait_s ;;;
         retry_loop rq rest (Some e)) w'
    end.
Proof. reflexivity. Qed.

(** The [except] clause: one draw, one sleep of the computed backoff, and
    the loop goes on with the cause recorded. *)
Lemma except_clause (rq : Request) (attempt : Z) (rest : list Z) (e : Exn) (w : World) :
  (attempt <= MAX_ATTEMPT)%Z ->
  (wait_s <- compute_backoff attempt ;;
   sleep wait_s ;;;
   retry_loop rq rest (Some e)) w
  = retry_loop rq rest (Some e)
      (advance (set_drawn w (S (drawn w))) (backoff_of attempt (next_fraction w))).
Proof.
  intros H. unfold bind. rewrite (compute_backoff_draws _ H). cbn beta iota.
  rewrite sleep_returns by apply backoff_can_be_slept. reflexivity.
Qed.

(** The [try] block on a 429 reply: the wait is the number [Retry-After]
    writes, if it is one [time.sleep] takes, and the computed backoff when
    the header is missing or is no digit string; a digit string [float]
    does not read, or a number [time.sleep] does not take, raises. *)
Lemma attempt_body_429 (rq : Request) (attempt : Z) (w : World) (r : Response) :
  upcoming w 0 = Responds r -> status_code r = 429%Z -> (attempt <= MAX_ATTEMPT)%Z ->
  attempt_body rq attempt w
  = match header_get "Retry-After" (headers r) with
    | Some v =>
        if isdigit v then
          if forallb is_decimal (chars v) then
            if (integer_value v <=? MAX_SLEEP_SECONDS)%Z
            then (Ok Continue,
                  advance (log_event w (Requested rq)) (inject_Z (integer_value v)))
            else (Raise OverflowError, log_event w (Requested rq))
          else (Raise ValueError, log_event w (Requested rq))
        else (Ok Continue,
              advance (set_drawn (log_event w (Requested rq)) (S (drawn w)))
                      (backoff_of attempt (next_fraction w)))
    | None =>
        (Ok Continue,
         advance (set_drawn (log_event w (Requested rq)) (S (drawn w)))
                 (backoff_of attempt (next_fraction w)))
    end.
Proof.
  rewrite upcoming_0. intros E S429 A.
  unfold attempt_body. unfold bind at 1. unfold session_request. rewrite E.
  cbn beta iota zeta. rewrite S429. change (429 =? 429)%Z with true. cbn iota.
  assert (backoff : (wait_s <- compute_backoff attempt ;; sleep wait_s ;;; ret Continue)
                      (log_event w (Requested rq))
                    = (Ok Continue,
                       advance (set_drawn (log_event w (Requested rq)) (S (drawn w)))
                               (backoff_of attempt (next_fraction w)))).
  { unfold bind. rewrite (compute_backoff_draws _ A). cbn beta iota.
    rewrite sleep_returns by apply backoff_can_be_slept. reflexivity. }
  destruct (header_get "Retry-After" (headers r)) as [v |]; [| exact backoff].
  destruct (isdigit v); [| exact backoff].
  unfold bind, lift, py_float. fold (integer_value v).
  destruct (forallb is_decimal (chars v)); [| reflexivity].
  unfold sleep. rewrite whole_seconds_can_be_slept.
  destruct (integer_value v <=? MAX_SLEEP_SECONDS)%Z; reflexivity.
Qed.

(** An attempt answered by a 429: the request, one sleep, and the loop
    goes on with the attempts left.  The sleep is of the seconds of
    [Retry-After] when the reply is one the script follows, and then
    nothing is drawn; it is of the computed backoff otherwise. *)
Lemma rate_limited_step (rq : Request) (attempt : Z) (rest : list Z)
      (last_err : option Exn) (w : World) (r : Response) :
  upcoming w 0 = Responds r -> status_code r = 429%Z -> (attempt <= MAX_ATTEMPT)%Z ->
  exists le w',
    retry_loop rq (attempt :: rest) last_err w = retry_loop rq rest le w'
    /\ network w' = network w
    /\ random w' = random w
    /\ match retry_after_seconds r with
       | Some seconds =>
           trace w' = Slept (inject_Z seconds) :: Requested rq :: trace w
           /\ drawn w' = drawn w /\ le = last_err
       | None =>
           trace w' = Slept (backoff_of attempt (next_fraction w)) :: Requested rq :: trace w
           /\ drawn w' = S (drawn w)
       end.
Proof.
  intros E S429 A.
  rewrite retry_loop_step, (attempt_body_429 rq w E S429 A).
  unfold retry_after_seconds.
  destruct (header_get "Retry-After" (headers r)) as [v |];
    [| eexists _, _; repeat split; auto].
  rewrite nonneg_integer_string_isdigit.
  destruct (isdigit v); cbn [andb]; [| eexists _, _; repeat split; auto].
  destruct (forallb is_decimal (chars v)); cbn [andb].
  - destruct (integer_value v <=? MAX_SLEEP_SECONDS)%Z.
    + eexists _, _. repeat split.
    + rewrite except_clause by exact A. eexists _, _. repeat split.
  - rewrite except_clause by exact A. eexists _, _. repeat split.
Qed.

(** An attempt that fails otherwise: the request, the [except] clause with
    one sleep of the computed backoff, and the loop goes on with the
    attempts left and the cause recorded. *)
Lemma errored_step (rq : Request) (attempt : Z) (rest : list Z)
      (last_err : option Exn) (w : World) :
  fails (upcoming w 0) = true -> has_status 429 (upcoming w 0) = false ->
  (attempt <= MAX_ATTEMPT)%Z ->
  exists w',
    retry_loop rq (attempt :: rest) last_err w
    = retry_loop rq rest (Some (cause (upcoming w 0))) w'
    /\ trace w' = Slept (backoff_of attempt (next_fraction w)) :: Requested rq :: trace w
    /\ network w' = network w
    /\ random w' = random w
    /\ drawn w' = S (drawn w).
Proof.
  intros F N A.
  assert (B : attempt_body rq attempt w
              = (Raise (cause (upcoming w 0)), log_event w (Requested rq))).
  { revert F N. rewrite upcoming_0.
    unfold attempt_body, bind, session_request, raise_for_status, raise.
    destruct (network w (List.length (sent w))) as [r | what]; cbn; [| reflexivity].
    intros F N. rewrite N. destruct (status_code r =? 401)%Z; [reflexivity |].
    rewrite F. reflexivity. }
  rewrite retry_loop_step, B, except_clause by exact A.
  eexists. repeat split.
Qed.

(** An attempt answered with a status that is no error returns it. *)
Lemma succeeded_step (rq : Request) (attempt : Z) (rest : list Z)
      (last_err : option Exn) (w : World) (r : Response) :
  upcoming w 0 = Responds r -> passes r = true ->
  retry_loop rq (attempt :: rest) last_err w = (Ok r, log_event w (Requested rq)).
Proof.
  rewrite upcoming_0. intros E P.
  rewrite retry_loop_step.
  unfold attempt_body, bind, session_request, raise_for_status, raise, ret. rewrite E.
  unfold passes in P. apply negb_true_iff in P.
  destruct (status_code r =? 429)%Z eqn:E429.
  - apply Z.eqb_eq in E429. rewrite E429 in P. discriminate.
  - destruct (status_code r =? 401)%Z eqn:E401.
    + apply Z.eqb_eq in E401. rewrite E401 in P. discriminate.
    + rewrite P. reflexivity.
Qed.

(** Either way a failed attempt is one request followed by one sleep: of
    the seconds asked for when the reply is one the script follows, of the
    computed backoff of the attempt otherwise. *)
Lemma failed_step (rq : Request) (attempt : Z) (rest : list Z)
      (last_err : option Exn) (w : World) :
  fails (upcoming w 0) = true -> (attempt <= MAX_ATTEMPT)%Z ->
  exists le w',
    retry_loop rq (attempt :: rest) last_err w = retry_loop rq rest le w'
    /\ network w' = network w
    /\ random w' = random w
    /\ match honoured (upcoming w 0) with
       | Some seconds =>
           trace w' = Slept (inject_Z seconds) :: Requested rq :: trace w
           /\ drawn w' = drawn w
       | None =>
           trace w' = Slept (backoff_of attempt (next_fraction w)) :: Requested rq :: trace w
           /\ drawn w' = S (drawn w)
       end.
Proof.
  intros F A. destruct (has_status 429 (upcoming w 0)) eqn:N.
  - destruct (upcoming w 0) as [r | what] eqn:E; [| discriminate].
    cbn [has_status] in N. cbn [honoured]. rewrite N. apply Z.eqb_eq in N.
    destruct (rate_limited_step rq rest last_err w E N A) as (le & w' & L & Hn & Hr & H).
    exists le, w'. split; [exact L | split; [exact Hn | split; [exact Hr |]]].
    destruct (retry_after_seconds r); tauto.
  - destruct (errored_step rq rest last_err w F N A) as (w' & L & T & Hn & Hr & D).
    eexists _, w'. split; [exact L | split; [exact Hn | split; [exact Hr |]]].
    destruct (upcoming w 0) as [r | what]; cbn [honoured has_status] in *;
      [rewrite N |]; auto.
Qed.

Lemma failed_attempt (rq : Request) (attempt : Z) (rest : list Z)
      (last_err : option Exn) (w : World) :
  fails (upcoming w 0) = true -> (attempt <= MAX_ATTEMPT)%Z ->
  exists d le w1,
    retry_loop rq (attempt :: rest) last_err w = retry_loop rq rest le w1
    /\ trace w1 = Slept d :: Requested rq :: trace w
    /\ network w1 = network w.
Proof.
  intros F A.
  destruct (failed_step rq rest last_err w F A) as (le & w1 & L & Hn & _ & H).
  destruct (honoured (upcoming w 0)); destruct H as [T _];
    eexists _, le, w1; repeat split; eassumption.
Qed.

Lemma sent_after (w w1 : World) (rq : Request) (d : Q) :
  trace w1 = Slept d :: Requested rq :: trace w ->
  List.length (sent w1) = S (List.length (sent w)).
Proof. unfold sent. intros ->. reflexivity. Qed.

Lemma upcoming_after (w w1 : World) (rq : Request) (d : Q) (k : nat) :
  trace w1 = Slept d :: Requested rq :: trace w ->
  network w1 = network w ->
  upcoming w1 k = upcoming w (S k).
Proof.
  intros Ht Hn. unfold upcoming. rewrite Hn, (@sent_after w w1 rq d Ht).
  f_equal. lia.
Qed.

Lemma the_six_attempts : range 1 (MAX_RETRIES + 1) = [1; 2; 3; 4; 5; 6]%Z.
Proof. reflexivity. Qed.

Lemma the_six_attempts_are_small :
  Forall (fun attempt => (attempt <= MAX_ATTEMPT)%Z) [1; 2; 3; 4; 5; 6]%Z.
Proof. repeat constructor; discriminate. Qed.

(** When the replies to come all fail, the loop takes every turn: each is
    the request and one sleep, of the wait [expected_waits] tells, and the
    terminal error is raised after the sleep of the last turn. *)
Lemma failing_attempts (rq : Request) (attempts : list Z) :
  Forall (fun attempt => (attempt <= MAX_ATTEMPT)%Z) attempts ->
  forall (last_err : option Exn) (w : World) (reply : nat -> Reply) (i : nat),
    (forall k, upcoming w k = reply (i + k)%nat) ->
    (forall k, (k < List.length attempts)%nat -> fails (reply (i + k)%nat) = true) ->
    exists le w',
      retry_loop rq attempts last_err w = (Raise (RequestFailed le), w')
      /\ trace w'
         = (rev (flat_map (fun d => [Requested rq; Slept d])
                          (expected_waits attempts reply i (random w) (drawn w)))
            ++ trace w)%list.
Proof.
  induction 1 as [| attempt rest A _ IH]; intros last_err w reply i U F.
  - exists last_err, w. split; reflexivity.
  - assert (F0 : fails (upcoming w 0) = true)
      by (rewrite U; apply F; cbn; lia).
    destruct (failed_step rq rest last_err w F0 A) as (le & w1 & L & Hn & Hr & H).
    assert (T : exists d, trace w1 = Slept d :: Requested rq :: trace w
                          /\ expected_waits (attempt :: rest) reply i (random w) (drawn w)
                             = d :: expected_waits rest reply (S i) (random w1) (drawn w1)).
    { cbn [expected_waits]. rewrite <- (Nat.add_0_r i), <- U, Hr.
      destruct (honoured (upcoming w 0)); destruct H as [T D]; rewrite D;
        eexists; (split; [exact T | reflexivity]). }
    destruct T as (d & T & W).
    destruct (IH le w1 reply (S i)) as (le' & w' & R & T').
    + intros k. rewrite (upcoming_after w w1 k T Hn), U. f_equal. lia.
    + intros k Hk. replace (S i + k)%nat with (i + S k)%nat by lia.
      apply F. cbn. lia.
    + exists le', w'. rewrite L. split; [exact R |].
      rewrite T', T, W. cbn [flat_map app rev]. rewrite <- !app_assoc. reflexivity.
Qed.

Lemma expected_waits_length (attempts : list Z) (reply : nat -> Reply) (rnd : nat -> Q) :
  forall i n, List.length (expected_waits attempts reply i rnd n) = List.length attempts.
Proof.
  induction attempts as [| attempt rest IH]; intros i n; cbn [expected_waits];
    [reflexivity |].
  destruct (honoured (reply i)); cbn [List.length]; rewrite IH; reflexivity.
Qed.

(** The wait after the attempt of rank [j]: the seconds asked for when its
    reply is one the script follows, a computed backoff of that attempt
    otherwise. *)
Lemma expected_waits_nth (attempts : list Z) (reply : nat -> Reply) (rnd : nat -> Q) :
  forall (i n j : nat),
    (j < List.length attempts)%nat ->
    match honoured (reply (i + j)%nat) with
    | Some seconds => nth j (expected_waits attempts reply i rnd n) 0 = inject_Z seconds
    | None =>
        exists k,
          (n <= k <= n + j)%nat
          /\ nth j (expected_waits attempts reply i rnd n) 0
             = backoff_of (nth j attempts 0%Z) ((1 # 4) + ((3 # 4) - (1 # 4)) * rnd k)
    end.
Proof.
  induction attempts as [| attempt rest IH]; intros i n j Hj; [cbn in Hj; lia |].
  destruct j as [| j].
  - rewrite Nat.add_0_r. cbn [expected_waits].
    destruct (honoured (reply i)); cbn [nth]; [reflexivity |].
    exists n. split; [lia | reflexivity].
  - cbn [List.length] in Hj. replace (i + S j)%nat with (S i + j)%nat by lia.
    cbn [expected_waits]. destruct (honoured (reply i)); cbn [nth].
    + specialize (IH (S i) n j ltac:(lia)).
      destruct (honoured (reply (S i + j)%nat)); [exact IH |].
      destruct IH as (k & Hk & E). exists k. split; [lia | exact E].
    + specialize (IH (S i) (S n) j ltac:(lia)).
      destruct (honoured (reply (S i + j)%nat)); [exact IH |].
      destruct IH as (k & Hk & E). exists k. split; [lia | exact E].
Qed.

Lemma requests_of_turns (rq : Request) (waits : list Q) :
  requests (rev (flat_map (fun d => [Requested rq; Slept d]) waits))
  = repeat rq (List.length waits)
  /\ sleeps (rev (flat_map (fun d => [Requested rq; Slept d]) waits)) = rev waits.
Proof.
  assert (R : forall t1 t2, requests (t1 ++ t2) = (requests t1 ++ requests t2)%list).
  { induction t1 as [| e t1 IH]; intros t2; [reflexivity |].
    destruct e; cbn [app requests]; rewrite IH; reflexivity. }
  assert (S : forall t1 t2, sleeps (t1 ++ t2) = (sleeps t1 ++ sleeps t2)%list).
  { induction t1 as [| e t1 IH]; intros t2; [reflexivity |].
    destruct e; cbn [app sleeps]; rewrite IH; reflexivity. }
  induction waits as [| d waits [IH1 IH2]]; [split; reflexivity |].
  cbn [flat_map app rev List.length]. rewrite <- !app_assoc, R, S, IH1, IH2.
  cbn [app requests sleeps]. split.
  - change (rq :: repeat rq (List.length waits)) with (repeat rq (S (List.length waits))).
    rewrite <- repeat_cons. reflexivity.
  - reflexivity.
Qed.

Lemma requests_app (t1 t2 : list Event) :
  requests (t1 ++ t2) = (requests t1 ++ requests t2)%list.
Proof.
  induction t1 as [| e t1 IH]; [reflexivity |].
  destruct e; cbn [app requests]; rewrite IH; reflexivity.
Qed.

Lemma sleeps_app (t1 t2 : list Event) : sleeps (t1 ++ t2) = (sleeps t1 ++ sleeps t2)%list.
Proof.
  induction t1 as [| e t1 IH]; [reflexivity |].
  destruct e; cbn [app sleeps]; rewrite IH; reflexivity.
Qed.

(** C10.  When the six attempts all fail (a 429, another error status or a
    broken transport, each time), [request_with_retry] sends the request
    six times and sleeps six times, once after each request, and then
    raises its terminal error.  Each sleep is of the wait [expected_waits]
    tells.  In particular the last event before the error is the sleep
    after the sixth request, with no request after it, and that sleep is of
    the seconds of [Retry-After] when the sixth reply is a 429 with a
    header the script follows, and of a computed backoff of the sixth
    attempt otherwise. *)
Theorem exhausted_run_sleeps_six_times
        (method url : string) (headers data : list (string * string)) (w : World) :
  (forall k, (k < 6)%nat -> fails (upcoming w k) = true) ->
  let rq := mkRequest method url headers data in
  let waits := expected_waits [1; 2; 3; 4; 5; 6]%Z (upcoming w) 0 (random w) (drawn w) in
  exists le w' d6 t,
    request_with_retry method url headers data w = (Raise (RequestFailed le), w')
    /\ trace w' = (rev (flat_map (fun d => [Requested rq; Slept d]) waits) ++ trace w)%list
    /\ List.length waits = 6%nat
    /\ slept w' = (rev waits ++ slept w)%list
    /\ sent w' = (repeat rq 6 ++ sent w)%list
    /\ trace w' = Slept d6 :: Requested rq :: t
    /\ match honoured (upcoming w 5) with
       | Some seconds => d6 = inject_Z seconds
       | None =>
           exists k, (drawn w <= k <= drawn w + 5)%nat
                     /\ d6 = backoff_of 6 ((1 # 4) + ((3 # 4) - (1 # 4)) * random w k)
       end.
Proof.
  intros H rq waits. unfold request_with_retry. rewrite the_six_attempts. fold rq.
  destruct (@failing_attempts rq _ the_six_attempts_are_small None w (upcoming w) 0%nat)
    as (le & w' & R & T); [reflexivity | exact H |].
  fold waits in T.
  pose proof (expected_waits_length [1; 2; 3; 4; 5; 6]%Z (upcoming w) (random w) 0 (drawn w))
    as L. fold waits in L. cbn [List.length] in L.
  pose proof (@expected_waits_nth [1; 2; 3; 4; 5; 6]%Z (upcoming w) (random w)
                0 (drawn w) 5 ltac:(cbn; lia)) as N.
  fold waits in N. cbn [Nat.add nth] in N.
  destruct (requests_of_turns rq waits) as [Rq Sl].
  destruct waits as [| d1 [| d2 [| d3 [| d4 [| d5 [| d6 [| d7 rest]]]]]]]; try discriminate L.
  exists le, w', d6. eexists.
  split; [exact R | split; [exact T | split; [reflexivity |]]].
  split; [unfold slept; rewrite T, sleeps_app, Sl; reflexivity |].
  split; [unfold sent; rewrite T, requests_app, Rq; reflexivity |].
  split; [rewrite T; reflexivity |].
  cbn [nth] in N. exact N.
Qed.

Lemma exhausted_run_sleeps_six_times_witness :
  let w := sample_world (fun _ => status_reply 429) in
  let waits := expected_waits [1; 2; 3; 4; 5; 6]%Z (upcoming w) 0 (random w) (drawn w) in
  exists le w' d6 t,
    request_with_retry "POST" BASE_URL [] [] w = (Raise (RequestFailed le), w')
    /\ trace w'
       = (rev (flat_map (fun d => [Requested sample_post; Slept d]) waits) ++ trace w)%list
    /\ List.length waits = 6%nat
    /\ slept w' = (rev waits ++ slept w)%list
    /\ sent w' = (repeat sample_post 6 ++ sent w)%list
    /\ trace w' = Slept d6 :: Requested sample_post :: t
    /\ match honoured (upcoming w 5) with
       | Some seconds => d6 = inject_Z seconds
       | None =>
           exists k, (drawn w <= k <= drawn w + 5)%nat
                     /\ d6 = backoff_of 6 ((1 # 4) + ((3 # 4) - (1 # 4)) * random w k)
       end.
Proof.
  apply (@exhausted_run_sleeps_six_times "POST" BASE_URL [] []
           (sample_world (fun _ => status_reply 429))).
  intros k _. reflexivity.
Defined.

(** With six 429 replies that ask for 7 seconds, the six sleeps are of 7
    seconds; with six 503 replies they are the backoffs 3, 6, 12, 24, 48
    and 60 of the six attempts (every draw of the sample world being one
    half, the jitter is half the base). *)
Example exhausted_run_waits :
  slept (snd (request_with_retry "POST" BASE_URL [] []
                (sample_world (fun _ => Responds (mkResponse 429 [("Retry-After", "7")]
                                                             "" None)))))
  = [inject_Z 7; inject_Z 7; inject_Z 7; inject_Z 7; inject_Z 7; inject_Z 7]
  /\ Forall2 Qeq
       (slept (snd (request_with_retry "POST" BASE_URL [] []
                      (sample_world (fun _ => status_reply 503)))))
       [60; 48; 24; 12; 6; 3]%Q.
Proof. split; [vm_compute; reflexivity | vm_compute; repeat constructor]. Qed.

(** C5.  An attempt answered by a 429 is followed by one sleep.  When the
    reply has a [Retry-After] header that is a non-negative integer string
    of at most 9223372036 seconds, the sleep is of exactly that many
    seconds and no backoff is computed (nothing is drawn).  When the header
    is missing or is no such string, the sleep is of the computed backoff
    of the attempt; so it is when the header asks for more seconds than
    [time.sleep] takes, the [OverflowError] of [time.sleep] being caught by
    the [except] clause.  After the sleep the loop goes on to the attempts
    left.  In particular, when the replies are a 429, a 429 and a 200, the
    first two without [Retry-After], the request is sent three times with
    one computed backoff after each of the first two, and the 200 response
    is returned.  After a sixth 429 no attempt is left: the terminal error
    is raised and the request is not sent a seventh time. *)
Theorem retry_after_is_honoured_on_429 :
  (forall (rq : Request) (attempt : Z) (rest : list Z) (last_err : option Exn)
          (w : World) (r : Response) (o : option string),
      upcoming w 0 = Responds r -> status_code r = 429%Z ->
      has_header "Retry-After" (headers r) o ->
      (attempt <= MAX_ATTEMPT)%Z ->
      exists le w',
        retry_loop rq (attempt :: rest) last_err w = retry_loop rq rest le w'
        /\ match o with
           | Some v =>
               if nonneg_integer_string v then
                 if (integer_value v <=? MAX_SLEEP_SECONDS)%Z then
                   trace w' = Slept (inject_Z (integer_value v)) :: Requested rq :: trace w
                   /\ drawn w' = drawn w /\ le = last_err
                 else
                   trace w' = Slept (backoff_of attempt (next_fraction w))
                                :: Requested rq :: trace w
                   /\ drawn w' = S (drawn w) /\ le = Some OverflowError
               else
                 trace w' = Slept (backoff_of attempt (next_fraction w))
                              :: Requested rq :: trace w
                 /\ drawn w' = S (drawn w)
           | None =>
               trace w' = Slept (backoff_of attempt (next_fraction w))
                            :: Requested rq :: trace w
               /\ drawn w' = S (drawn w) /\ le = last_err
           end)
  /\ (forall (method url : string) (hdrs form : list (string * string))
             (w : World) (r1 r2 r3 : Response),
        upcoming w 0 = Responds r1 -> upcoming w 1 = Responds r2 ->
        upcoming w 2 = Responds r3 ->
        status_code r1 = 429%Z -> status_code r2 = 429%Z -> status_code r3 = 200%Z ->
        has_header "Retry-After" (headers r1) None ->
        has_header "Retry-After" (headers r2) None ->
        exists w',
          request_with_retry method url hdrs form w = (Ok r3, w')
          /\ trace w' =
               ([ Requested (mkRequest method url hdrs form);
                  Slept (backoff_of 2 (second_fraction w));
                  Requested (mkRequest method url hdrs form);
                  Slept (backoff_of 1 (next_fraction w));
                  Requested (mkRequest method url hdrs form) ] ++ trace w)%list
          /\ List.length (slept w') = (2 + List.length (slept w))%nat)
  /\ (forall (method url : string) (hdrs form : list (string * string)) (w : World),
        (forall k, (k < 6)%nat -> has_status 429 (upcoming w k) = true) ->
        exists le w',
          request_with_retry method url hdrs form w = (Raise (RequestFailed le), w')
          /\ sent w' = (repeat (mkRequest method url hdrs form) 6 ++ sent w)%list
          /\ List.length (slept w') = (6 + List.length (slept w))%nat).
Proof.
  split; [| split].
  - intros rq attempt rest last_err w r o E S429 Hh A.
    rewrite retry_loop_step, (attempt_body_429 rq w E S429 A), (header_get_spec Hh).
    destruct o as [v |]; [| eexists _, _; repeat split].
    rewrite nonneg_integer_string_isdigit.
    destruct (isdigit v); cbn [andb]; [| eexists _, _; repeat split].
    destruct (forallb is_decimal (chars v)); cbn [andb].
    + destruct (integer_value v <=? MAX_SLEEP_SECONDS)%Z.
      * eexists _, _. repeat split.
      * rewrite except_clause by exact A. eexists _, _. repeat split.
    + rewrite except_clause by exact A. eexists _, _. repeat split.
  - intros method url hdrs form w r1 r2 r3 E1 E2 E3 S1 S2 S3 A1 A2.
    apply header_get_spec in A1, A2.
    unfold request_with_retry. rewrite the_six_attempts.
    set (rq := mkRequest method url hdrs form).
    destruct (@rate_limited_step rq 1%Z [2; 3; 4; 5; 6]%Z None w r1 E1 S1)
      as (le1 & w1 & L1 & N1 & R1 & H1); [discriminate |].
    unfold retry_after_seconds in H1. rewrite A1 in H1. destruct H1 as (T1 & D1).
    assert (U1 : forall k, upcoming w1 k = upcoming w (1 + k))
      by (intro k; exact (upcoming_after w w1 k T1 N1)).
    assert (E2' : upcoming w1 0 = Responds r2) by (rewrite U1; exact E2).
    destruct (@rate_limited_step rq 2%Z [3; 4; 5; 6]%Z le1 w1 r2 E2' S2)
      as (le2 & w2 & L2 & N2 & R2 & H2); [discriminate |].
    unfold retry_after_seconds in H2. rewrite A2 in H2. destruct H2 as (T2 & D2).
    assert (F2 : next_fraction w1 = second_fraction w)
      by (unfold next_fraction, second_fraction; rewrite R1, D1; reflexivity).
    rewrite F2 in T2.
    assert (E3' : upcoming w2 0 = Responds r3)
      by (rewrite (upcoming_after w1 w2 0 T2 N2), U1; exact E3).
    assert (P3 : passes r3 = true) by (unfold passes; rewrite S3; reflexivity).
    exists (log_event w2 (Requested rq)).
    rewrite L1, L2, (succeeded_step rq 3 [4; 5; 6]%Z le2 w2 E3' P3).
    split; [reflexivity |].
    unfold slept. cbn [log_event trace]. rewrite T2, T1.
    split; reflexivity.
  - intros method url hdrs form w H.
    unfold request_with_retry. rewrite the_six_attempts.
    set (rq := mkRequest method url hdrs form).
    destruct (@failing_attempts rq _ the_six_attempts_are_small None w (upcoming w) 0%nat)
      as (le & w' & R & T); [reflexivity | |].
    + intros k Hk. specialize (H k Hk). cbn [Nat.add].
      destruct (upcoming w k) as [r | what]; cbn [has_status fails] in *; [| discriminate].
      apply Z.eqb_eq in H. rewrite H. reflexivity.
    + exists le, w'. split; [exact R |].
      destruct (requests_of_turns rq
                  (expected_waits [1; 2; 3; 4; 5; 6]%Z (upcoming w) 0 (random w) (drawn w)))
        as [Rq Sl].
      unfold sent, slept.
      rewrite T, requests_app, sleeps_app, Rq, Sl, length_app, length_rev,
        !expected_waits_length.
      split; reflexivity.
Qed.

Lemma retry_after_is_honoured_on_429_witness :
  let w := sample_world (scripted [Responds (mkResponse 429 [("retry-after", "5")] "" None);
                                   status_reply 200]) in
  exists le w',
    retry_loop sample_post [1; 2; 3; 4; 5; 6]%Z None w
    = retry_loop sample_post [2; 3; 4; 5; 6]%Z le w'
    /\ trace w' = [Slept (inject_Z 5); Requested sample_post]
    /\ drawn w' = 0%nat /\ le = None.
Proof.
  cbv zeta.
  apply (proj1 retry_after_is_honoured_on_429 sample_post 1%Z [2; 3; 4; 5; 6]%Z None
           (sample_world (scripted [Responds (mkResponse 429 [("retry-after", "5")] "" None);
                                    status_reply 200]))
           (mkResponse 429 [("retry-after", "5")] "" None) (Some "5")).
  - reflexivity.
  - reflexivity.
  - apply header_here. reflexivity.
  - discriminate.
Defined.

(** A [Retry-After] of 9223372037 seconds is not waited: [time.sleep]
    refuses it, the [except] clause waits the backoff of the attempt
    instead, and the request is sent again.  And a seventh request is never
    sent: six 429 replies that ask for one second end in the terminal
    error. *)
Lemma retry_after_is_not_always_waited :
  (let w := sample_world
              (scripted [Responds (mkResponse 429 [("Retry-After", "9223372037")] "" None);
                         status_reply 200]) in
   fst (request_with_retry "POST" BASE_URL [] [] w) = Ok (mkResponse 200 [] "" None)
   /\ slept (snd (request_with_retry "POST" BASE_URL [] [] w))
      = [backoff_of 1 (next_fraction w)]
   /\ ~ (backoff_of 1 (next_fraction w) == inject_Z 9223372037)%Q)
  /\ (let w := sample_world (fun _ => Responds (mkResponse 429 [("Retry-After", "1")]
                                                           "" None)) in
      fst (request_with_retry "POST" BASE_URL [] [] w) = Raise (RequestFailed None)
      /\ List.length (sent (snd (request_with_retry "POST" BASE_URL [] [] w))) = 6%nat).
Proof.
  split; cbv zeta.
  - split; [vm_compute; reflexivity | split; [vm_compute; reflexivity |]].
    vm_compute. discriminate.
  - split; vm_compute; reflexivity.
Qed.

(** A [Retry-After] of five seconds is waited for five seconds, whatever
    the attempt; superscript digits pass [isdigit] and fail [float], and
    the computed backoff is waited then. *)
Example retry_after_five :
  let w := sample_world (scripted [Responds (mkResponse 429 [("retry-after", "5")] "" None);
                                   status_reply 200]) in
  slept (snd (request_with_retry "POST" BASE_URL [] [] w)) = [inject_Z 5].
Proof. vm_compute. reflexivity. Qed.

Example retry_after_superscript :
  let w := sample_world (scripted [Responds (mkResponse 429 [("Retry-After", "5" ++ String (ascii_of_nat 178) "7")] "" None);
                                   status_reply 200]) in
  slept (snd (request_with_retry "POST" BASE_URL [] [] w)) = [backoff_of 1 (next_fraction w)].
Proof. vm_compute. reflexivity. Qed.

(** *** A 401 is caught by the loop's own [except] clause *)

(** The [raise] of the 401 branch stands inside the [try] block, so for
    every world whose next reply is a 401 the first attempt is followed by
    a computed backoff and by the five attempts left. *)
Lemma unauthorized_is_retried (method url : string) (hdrs form : list (string * string))
      (w : World) (r : Response) :
  upcoming w 0 = Responds r -> status_code r = 401%Z ->
  exists w',
    request_with_retry method url hdrs form w
    = retry_loop (mkRequest method url hdrs form) [2; 3; 4; 5; 6]%Z
                 (Some (Unauthorized (snippet 300 (text r)))) w'
    /\ trace w' = Slept (backoff_of 1 (next_fraction w))
                    :: Requested (mkRequest method url hdrs form) :: trace w.
Proof.
  intros E S401. unfold request_with_retry. rewrite the_six_attempts.
  destruct (@errored_step (mkRequest method url hdrs form) 1 [2; 3; 4; 5; 6]%Z None w)
    as (w' & L & T & _).
  - rewrite E. cbn. rewrite S401. reflexivity.
  - rewrite E. cbn. rewrite S401. reflexivity.
  - discriminate.
  - exists w'. rewrite L, E. cbn [cause]. rewrite S401. split; [reflexivity | exact T].
Qed.

(** C2.  On the replies 401 then 200, [request_with_retry] does not stop at
    the 401: it sleeps the backoff of the first attempt, sends the request
    a second time and returns the 200 response. *)
Theorem unauthorized_then_ok_returns_ok :
  exists w',
    request_with_retry "POST" BASE_URL [] []
      (sample_world (scripted [status_reply 401; status_reply 200]))
    = (Ok (mkResponse 200 [] "" None), w')
    /\ trace w' = [ Requested sample_post;
                    Slept (backoff_of 1 (next_fraction (sample_world (scripted []))));
                    Requested sample_post ]
    /\ List.length (sent w') = 2%nat
    /\ List.length (slept w') = 1%nat.
Proof. vm_compute. eexists. repeat split. Qed.

(** With nothing but 401 replies the terminal error is that of the
    exhausted retries, raised after six requests and six sleeps. *)
Example unauthorized_forever :
  let out := request_with_retry "POST" BASE_URL [] []
               (sample_world (fun _ => status_reply 401)) in
  fst out = Raise (RequestFailed (Some (Unauthorized "")))
  /\ List.length (sent (snd out)) = 6%nat
  /\ List.length (slept (snd out)) = 6%nat.
Proof. vm_compute. repeat split. Qed.

(** *** What the terminal error carries *)

(** The 429 branch leaves the loop turn with [continue] and never assigns
    [last_err]: six 429 replies without [Retry-After] end in a terminal
    error that carries no cause, in every world. *)
Lemma rate_limited_six_times_carries_nothing
      (method url : string) (hdrs form : list (string * string)) (w : World) :
  (forall k, (k < 6)%nat ->
             exists r, upcoming w k = Responds r /\ status_code r = 429%Z
                       /\ header_get "Retry-After" (headers r) = None) ->
  exists w', request_with_retry method url hdrs form w = (Raise (RequestFailed None), w').
Proof.
  intros H. unfold request_with_retry. rewrite the_six_attempts.
  set (rq := mkRequest method url hdrs form).
  assert (step : forall attempt rest w0 n,
             (attempt <= MAX_ATTEMPT)%Z ->
             (n < 6)%nat ->
             (forall k, upcoming w0 k = upcoming w (n + k)) ->
             exists w1, retry_loop rq (attempt :: rest) None w0 = retry_loop rq rest None w1
                        /\ (forall k, upcoming w1 k = upcoming w (S n + k))).
  { intros attempt rest w0 n A Hn U.
    destruct (H n Hn) as (r & E & S429 & Hh).
    assert (E0 : upcoming w0 0 = Responds r) by (rewrite U, Nat.add_0_r; exact E).
    exists (advance (set_drawn (log_event w0 (Requested rq)) (S (drawn w0)))
                    (backoff_of attempt (next_fraction w0))).
    split.
    - rewrite retry_loop_step, (attempt_body_429 rq w0 E0 S429 A), Hh. reflexivity.
    - intro k.
      rewrite (@upcoming_after w0
                 (advance (set_drawn (log_event w0 (Requested rq)) (S (drawn w0)))
                          (backoff_of attempt (next_fraction w0)))
                 rq (backoff_of attempt (next_fraction w0)) k eq_refl eq_refl), U.
      f_equal. lia. }
  destruct (step 1%Z [2; 3; 4; 5; 6]%Z w 0%nat) as (w1 & L1 & U1);
    [discriminate | lia | reflexivity |].
  destruct (step 2%Z [3; 4; 5; 6]%Z w1 1%nat) as (w2 & L2 & U2);
    [discriminate | lia | exact U1 |].
  destruct (step 3%Z [4; 5; 6]%Z w2 2%nat) as (w3 & L3 & U3);
    [discriminate | lia | exact U2 |].
  destruct (step 4%Z [5; 6]%Z w3 3%nat) as (w4 & L4 & U4);
    [discriminate | lia | exact U3 |].
  destruct (step 5%Z [6]%Z w4 4%nat) as (w5 & L5 & U5);
    [discriminate | lia | exact U4 |].
  destruct (step 6%Z []%Z w5 5%nat) as (w6 & L6 & U6);
    [discriminate | lia | exact U5 |].
  exists w6. rewrite L1, L2, L3, L4, L5, L6. reflexivity.
Qed.

(** C3.  The terminal error of the exhausted retries does not carry the
    last observed cause: after six 429 replies it carries none, and after a
    500 followed by five 429 replies it carries the 500 of the first
    attempt. *)
Theorem exhausted_error_forgets_rate_limits :
  (exists w',
      request_with_retry "POST" BASE_URL [] [] (sample_world (fun _ => status_reply 429))
      = (Raise (RequestFailed None), w')
      /\ List.length (sent w') = 6%nat)
  /\ (exists w',
         request_with_retry "POST" BASE_URL [] []
           (sample_world (scripted [status_reply 500; status_reply 429; status_reply 429;
                                    status_reply 429; status_reply 429; status_reply 429]))
         = (Raise (RequestFailed (Some (HTTPError 500))), w')
         /\ List.length (sent w') = 6%nat).
Proof. vm_compute. split; eexists; split; reflexivity. Qed.

(** When the attempts fail otherwise, the error does carry the cause of
    the last one. *)
Example exhausted_error_after_errors :
  fst (request_with_retry "POST" BASE_URL [] []
         (sample_world (scripted [status_reply 500; status_reply 502; status_reply 503;
                                  status_reply 500; status_reply 404])))
  = Raise (RequestFailed (Some (RequestException "no more replies"))).
Proof. vm_compute. reflexivity. Qed.

(** ** Session bootstrap *)

Lemma upcoming_shift (w w' : World) (n : nat) :
  network w' = network w ->
  List.length (sent w') = (n + List.length (sent w))%nat ->
  forall k, upcoming w' k = upcoming w (n + k).
Proof.
  intros N L k. unfold upcoming. rewrite N, L. f_equal. lia.
Qed.

(** The scan fetches a prefix of [urls], in order, and ends as [scan_ends]
    tells. *)
Lemma scan_scripts_spec (urls : list string) :
  forall w, exists o w' k,
    scan_scripts urls w = (o, w')
    /\ (k <= List.length urls)%nat
    /\ sent w' = (rev (map script_get (firstn k urls)) ++ sent w)%list
    /\ network w' = network w
    /\ scan_ends urls (upcoming w) k o.
Proof.
  induction urls as [| url rest IH]; intros w.
  - exists (Raise CsrfNotFound), w, 0%nat. cbn.
    repeat split; try reflexivity; intros j Hj; lia.
  - cbn [scan_scripts]. unfold bind at 1. unfold session_get, session_request.
    fold (script_get url). rewrite <- upcoming_0.
    destruct (upcoming w 0) as [rr | what] eqn:E.
    + set (w1 := log_event w (Requested (script_get url))).
      assert (U1 : forall k, upcoming w1 k = upcoming w (S k))
        by (apply (@upcoming_shift w w1 1); reflexivity).
      assert (continue : forall w2,
                 network w2 = network w1 -> sent w2 = sent w1 ->
                 carries (Responds rr) = None ->
                 exists o w' k,
                   scan_scripts rest w2 = (o, w')
                   /\ (k <= List.length (url :: rest))%nat
                   /\ sent w' = (rev (map script_get (firstn k (url :: rest))) ++ sent w)%list
                   /\ network w' = network w
                   /\ scan_ends (url :: rest) (upcoming w) k o).
      { intros w2 N2 S2 C.
        assert (U2 : forall k, upcoming w2 k = upcoming w (S k)).
        { intro k. rewrite <- U1. unfold upcoming. rewrite N2, S2. reflexivity. }
        assert (M0 : yields_nothing (upcoming w 0) = true).
        { rewrite E. unfold yields_nothing. rewrite C. reflexivity. }
        destruct (IH w2) as (o & w' & k & R & Hk & Hs & Hn & Hmiss & Hend).
        exists o, w', (S k). split; [exact R |].
        split; [cbn; lia |].
        split; [cbn [firstn map rev]; rewrite Hs, S2, <- app_assoc; reflexivity |].
        split; [rewrite Hn, N2; reflexivity |].
        split.
        - intros [| j] Hj; [exact M0 |].
          rewrite <- (U2 j). apply Hmiss. lia.
        - destruct o as [token | e].
          + destruct Hend as (i & -> & Hc). exists (S i). rewrite <- (U2 i). auto.
          + destruct e; try exact Hend.
            * destruct Hend as [-> Hall]. split; [reflexivity |].
              intros [| j] Hj; [exact M0 |].
              rewrite <- (U2 j). apply Hall. cbn in Hj. lia.
            * destruct Hend as (i & -> & Hb). exists (S i). rewrite <- (U2 i). auto. }
      cbn beta iota.
      destruct (negb (status_code rr =? 200)%Z) eqn:S200.
      * apply (continue w1); try reflexivity.
        cbn [carries]. apply negb_true_iff in S200. rewrite S200. reflexivity.
      * apply negb_false_iff in S200.
        destruct (found (extract_csrf_from_js_text (text rr))) as [token |] eqn:F.
        -- exists (Ok token), w1, 1%nat. cbn.
           repeat split; try lia; try (intros j Hj; lia).
           exists 0%nat. rewrite E. cbn [carries]. rewrite S200, F. auto.
        -- unfold bind. rewrite sleep_returns by reflexivity.
           apply (continue (advance w1 (1 # 10))); try reflexivity.
           cbn [carries]. rewrite S200. exact F.
    + exists (Raise (RequestException what)), (log_event w (Requested (script_get url))), 1%nat.
      cbn. repeat split; try lia; try (intros j Hj; lia).
      exists 0%nat. auto.
Qed.

Lemma scan_ends_ext (urls : list string) (f g : nat -> Reply) (k : nat) (o : Outcome string) :
  (forall j, f j = g j) -> scan_ends urls f k o -> scan_ends urls g k o.
Proof.
  intros X [Hm He]. split.
  - intros j Hj. rewrite <- X. auto.
  - destruct o as [token | e].
    + destruct He as (i & -> & Hc). exists i. rewrite <- X. auto.
    + destruct e; try exact He.
      * destruct He as [-> Hall]. split; [reflexivity |].
        intros j Hj. rewrite <- X. auto.
      * destruct He as (i & -> & Hb). exists i. rewrite <- X. auto.
Qed.

(** The token the extractor returns for an asset served with status 200 is
    a signed token its text holds. *)
Lemma carries_yields (rp : Reply) (tok : string) : carries rp = Some tok -> yields rp tok.
Proof.
  destruct rp as [rr | what]; cbn [carries]; [| discriminate].
  destruct (status_code rr =? 200)%Z eqn:S200; [| discriminate].
  apply Z.eqb_eq in S200. unfold extract_csrf_from_js_text.
  destruct (Re.search false SIGNED_TOKEN_RE (chars (text rr))) as [m |] eqn:S;
    [| discriminate].
  cbn [found]. destruct (truthy_str (str (Re.whole m))); [| discriminate].
  intros H. injection H as <-.
  destruct (search_sound _ _ _ S) as (pre & post & E & A).
  exists rr. split; [reflexivity | split; [exact S200 |]].
  exists pre, post. rewrite chars_str. auto.
Qed.

(** An asset yields nothing when it was not served with status 200 or
    when its text holds no signed token, and then only. *)
Lemma yields_nothing_passed_over (rp : Reply) :
  yields_nothing rp = true -> passed_over rp.
Proof.
  destruct rp as [rr | what]; cbn [yields_nothing carries]; [| discriminate].
  intros H. exists rr. split; [reflexivity |].
  destruct (status_code rr =? 200)%Z eqn:S200;
    [right | left; apply Z.eqb_neq; exact S200].
  intros O. apply matches_iff_occurs in O. unfold Re.matches in O.
  unfold extract_csrf_from_js_text in H.
  destruct (Re.search false SIGNED_TOKEN_RE (chars (text rr))) as [m |] eqn:S;
    [| discriminate].
  destruct (signed_token_shape _ S) as (pre & a & b & c & post & _ & W & _).
  cbn [found] in H.
  assert (T : truthy_str (str (Re.whole m)) = true) by (rewrite W; reflexivity).
  rewrite T in H. discriminate.
Qed.

Lemma scan_ends_outcome (urls : list string) (reply : nat -> Reply) (k : nat)
      (o : Outcome string) :
  scan_ends urls reply k o -> scan_outcome urls reply k o.
Proof.
  intros [Hm He]. split.
  - intros j Hj. apply yields_nothing_passed_over. auto.
  - destruct o as [token | e].
    + destruct He as (i & -> & C). exists i. split; [reflexivity |].
      apply carries_yields. exact C.
    + destruct e; try exact He.
      destruct He as [-> Hall]. split; [reflexivity |].
      intros j Hj. apply yields_nothing_passed_over. auto.
Qed.

Lemma existsb_over_map {A B} (f : B -> bool) (g : A -> B) (l : list A) :
  existsb f (map g l) = existsb (fun x => f (g x)) l.
Proof. induction l as [| x l IH]; cbn; [reflexivity | rewrite IH; reflexivity]. Qed.

(** The bootstrap once the landing page is served without error status. *)
Lemma bootstrap_after_landing (env : Env) (w : World) (r : Response) :
  upcoming w 0 = Responds r -> passes r = true ->
  bootstrap_and_find_csrf env w
  = if scraping_dir_exists env then
      match found (extract_csrf_from_html (text r)) with
      | Some csrf =>
          (Ok csrf, log_event (log_event w (Requested landing_get))
                              (Disk (Write DEBUG_PAGE [Html (text r)])))
      | None =>
          if existsb (urljoin_fails env) (script_refs (text r))
          then (Raise ValueError,
                log_event (log_event w (Requested landing_get))
                          (Disk (Write DEBUG_PAGE [Html (text r)])))
          else scan_scripts (firstn 25 (find_script_srcs env (text r)))
                            (log_event (log_event w (Requested landing_get))
                                       (Disk (Write DEBUG_PAGE [Html (text r)])))
      end
    else (Raise FileNotFoundError, log_event w (Requested landing_get)).
Proof.
  rewrite upcoming_0. intros E P.
  unfold bootstrap_and_find_csrf, save_debug_page, call_find_script_srcs, script_refs.
  unfold bind at 1. unfold session_get, session_request. fold landing_get. rewrite E.
  cbn beta iota.
  unfold passes in P. apply negb_true_iff in P.
  unfold bind at 1. unfold raise_for_status. rewrite P.
  unfold ret at 1. cbn beta iota.
  unfold bind at 1. rewrite existsb_over_map.
  destruct (scraping_dir_exists env); [| reflexivity].
  unfold fs_do. cbn beta iota. fold DEBUG_PAGE.
  destruct (found (extract_csrf_from_html (text r))); [reflexivity |].
  unfold bind.
  destruct (existsb (fun s => urljoin_fails env (str s))
                    (Re.findall true SCRIPT_SRC_RE (chars (text r)))); reflexivity.
Qed.

(** C7.  Once the landing page is served, the bootstrap saves it and looks
    for the token in its markup, and returns it without fetching anything
    else when it is there.  Otherwise it fetches script assets of the page,
    resolved against the base address, one after the other in the order of
    the page: a prefix of the first 25 of them.  An asset that is not
    served with status 200 is passed over without being looked into, and so
    is one whose text holds no signed token; the scan ends with the first
    asset served with status 200 whose text holds a signed token, and that
    token is returned.  When all of these assets were fetched and none
    yielded a token, the bootstrap raises [CsrfNotFound]; when the transport
    of a fetch breaks, it raises that error.  It raises before any asset is
    fetched when the page cannot be saved or when a reference of the page
    does not resolve.  On the sample page, whose first asset is missing and
    whose second asset holds a token, the token of the second asset is
    returned after the two assets were fetched in order. *)
Theorem bootstrap_discovery_is_two_tier_and_bounded :
  (forall (env : Env) (w : World) (r : Response),
      upcoming w 0 = Responds r -> passes r = true ->
      exists o w',
        bootstrap_and_find_csrf env w = (o, w')
        /\ if scraping_dir_exists env then
             match found (extract_csrf_from_html (text r)) with
             | Some csrf => o = Ok csrf /\ sent w' = landing_get :: sent w
             | None =>
                 if existsb (urljoin_fails env) (script_refs (text r))
                 then o = Raise ValueError /\ sent w' = landing_get :: sent w
                 else
                   exists k,
                     (k <= 25)%nat
                     /\ sent w'
                        = (rev (map script_get
                                    (firstn k (find_script_srcs env (text r))))
                           ++ landing_get :: sent w)%list
                     /\ scan_outcome (firstn 25 (find_script_srcs env (text r)))
                                     (fun j => upcoming w (S j)) k o
             end
           else o = Raise FileNotFoundError /\ sent w' = landing_get :: sent w)
  /\ script_refs (text landing_with_scripts) = ["a.js"; "b.js"]
  /\ fst (bootstrap_and_find_csrf sample_env scripts_world) = Ok "ImTok.abc.def"
  /\ sent (snd (bootstrap_and_find_csrf sample_env scripts_world))
     = [ script_get "https://precodahora.ba.gov.br/produtos/b.js";
         script_get "https://precodahora.ba.gov.br/produtos/a.js";
         landing_get ].
Proof.
  split; [| vm_compute; repeat split].
  intros env w r E P. rewrite (bootstrap_after_landing env w E P).
  destruct (scraping_dir_exists env); [| eexists _, _; repeat split].
  destruct (found (extract_csrf_from_html (text r))) as [csrf |];
    [eexists _, _; repeat split |].
  destruct (existsb (urljoin_fails env) (script_refs (text r)));
    [eexists _, _; repeat split |].
  set (w1 := log_event (log_event w (Requested landing_get))
                       (Disk (Write DEBUG_PAGE [Html (text r)]))).
  set (urls := find_script_srcs env (text r)).
  destruct (scan_scripts_spec (firstn 25 urls) w1) as (o & w' & k & R & Hk & Hs & _ & He).
  exists o, w'. split; [exact R |].
  assert (K : (k <= 25)%nat)
    by (pose proof (firstn_le_length 25 urls); lia).
  exists k. split; [exact K | split].
  - rewrite Hs, firstn_firstn, (Nat.min_l _ _ K). reflexivity.
  - apply scan_ends_outcome.
    apply (scan_ends_ext (f := upcoming w1)); [| exact He].
    intro j. apply (@upcoming_shift w w1 1); reflexivity.
Qed.

Lemma bootstrap_discovery_is_two_tier_and_bounded_witness :
  exists o w' k,
    bootstrap_and_find_csrf sample_env scripts_world = (o, w')
    /\ o = Ok "ImTok.abc.def"
    /\ (k <= 25)%nat
    /\ sent w'
       = (rev (map script_get
                   (firstn k (find_script_srcs sample_env (text landing_with_scripts))))
          ++ landing_get :: sent scripts_world)%list
    /\ scan_outcome (firstn 25 (find_script_srcs sample_env (text landing_with_scripts)))
                    (fun j => upcoming scripts_world (S j)) k o.
Proof.
  destruct (proj1 bootstrap_discovery_is_two_tier_and_bounded
              sample_env scripts_world landing_with_scripts eq_refl eq_refl)
    as (o & w' & E & H).
  assert (F : found (extract_csrf_from_html (text landing_with_scripts)) = None)
    by (vm_compute; reflexivity).
  assert (U : existsb (urljoin_fails sample_env) (script_refs (text landing_with_scripts))
              = false)
    by (vm_compute; reflexivity).
  cbn [scraping_dir_exists sample_env] in H. rewrite F, U in H.
  destruct H as (k & K & S & O).
  assert (E' : bootstrap_and_find_csrf sample_env scripts_world
               = (Ok "ImTok.abc.def", snd (bootstrap_and_find_csrf sample_env scripts_world)))
    by (vm_compute; reflexivity).
  rewrite E in E'. cbn [snd] in E'. injection E' as ->.
  exists (Ok "ImTok.abc.def"), w', k.
  split; [exact E | split; [reflexivity | split; [exact K | split; [exact S | exact O]]]].
Defined.

(** A token in an asset that is not served with status 200 is not found:
    on the sample page with both assets holding a token, one served with
    status 203 and the other with status 404, both are fetched and the
    bootstrap raises [CsrfNotFound]. *)
Lemma unserved_assets_are_not_looked_into :
  fst (bootstrap_and_find_csrf sample_env unserved_tokens_world) = Raise CsrfNotFound
  /\ sent (snd (bootstrap_and_find_csrf sample_env unserved_tokens_world))
     = [ script_get "https://precodahora.ba.gov.br/produtos/b.js";
         script_get "https://precodahora.ba.gov.br/produtos/a.js";
         landing_get ]
  /\ extract_csrf_from_js_text "var t='ImTok.abc.def';" = Some "ImTok.abc.def"
  /\ extract_csrf_from_js_text "ImTok.abc.def" = Some "ImTok.abc.def".
Proof. vm_compute. repeat split. Qed.

(** There the missing asset is passed over and the token of the second one
    is returned, after three requests. *)
Example bootstrap_scans_scripts :
  let out := bootstrap_and_find_csrf sample_env scripts_world in
  fst out = Ok "ImTok.abc.def"
  /\ sent (snd out)
     = [ script_get "https://precodahora.ba.gov.br/produtos/b.js";
         script_get "https://precodahora.ba.gov.br/produtos/a.js";
         landing_get ].
Proof. vm_compute. split; reflexivity. Qed.

Example bootstrap_finds_no_token :
  fst (bootstrap_and_find_csrf sample_env
         (sample_world (scripted [Responds landing_with_scripts;
                                  page_reply "var a = 1;"; status_reply 500])))
  = Raise CsrfNotFound.
Proof. vm_compute. reflexivity. Qed.

(** Where the directory of the debug page is missing the bootstrap raises
    as soon as the landing page is served; where a reference of the page
    does not resolve it raises once the markup gave no token. *)
Example bootstrap_cannot_save_the_page :
  fst (bootstrap_and_find_csrf
         (mkEnv "/data/out" (fun base ref => base ++ ref) (fun _ => false)
                (fun p => p) false)
         (sample_world (scripted [landing_with_token])))
  = Raise FileNotFoundError.
Proof. vm_compute. reflexivity. Qed.

Example bootstrap_cannot_resolve_a_reference :
  fst (bootstrap_and_find_csrf
         (mkEnv "/data/out" (fun base ref => base ++ ref) (String.eqb "b.js")
                (fun p => p) true)
         scripts_world)
  = Raise ValueError.
Proof. vm_compute. reflexivity. Qed.

(** ** The collection of one fuel *)

(** When the first reply to the POST is no error and parses, no retry is
    needed and [post_products] returns its body. *)
Lemma post_products_first_reply (csrf : string) (payload : list (string * string))
      (w : World) (r : Response) (d : JSON) :
  upcoming w 0 = Responds r -> passes r = true -> json r = Some d ->
  post_products csrf payload w
  = (Ok d,
     log_event w
       (Requested
          (mkRequest "POST" BASE_URL
             [ ("User-Agent", UA);
               ("Accept", "*/*");
               ("Content-Type", "application/x-www-form-urlencoded; charset=UTF-8");
               ("X-Requested-With", "XMLHttpRequest");
               ("Origin", "https://precodahora.ba.gov.br");
               ("Referer", BASE_URL);
               ("X-CSRFToken", csrf) ]
             payload))).
Proof.
  intros E P J. unfold post_products, request_with_retry, bind.
  rewrite the_six_attempts.
  rewrite (succeeded_step _ 1 [2; 3; 4; 5; 6]%Z None w E P).
  rewrite J. reflexivity.
Qed.

Ltac split_outcomes :=
  repeat match goal with
         | |- context [match ?x with Ok _ => _ | Raise _ => _ end] => destruct x eqn:?
         end.

(** C6.  A [resultado] that is no list does not always make the collection
    raise.  When it is [false], zero, the empty text or the empty object
    (or [null]), [resultado or []] is the empty list: the check that raises
    the error saying that [resultado] is not a list is passed, and the
    collection returns a manifest that reports no row, having written an
    empty data file and the manifest.  Only a [resultado] that is no list
    and is true, such as a text that is not empty, makes the collection
    raise that error, before anything is written. *)
Theorem falsy_resultado_is_taken_for_a_list :
  Forall (fun resultado =>
            Json.is_list resultado = false
            /\ exists manifest w',
                 collect_one_page_per_fuel "ImTok.abc.def" "./scraping/raw_out" "GASOLINA"
                   (sample_world (scripted [json_reply (page_with resultado)]))
                 = (Ok manifest, w')
                 /\ rows_written (response_stats manifest) = 0%nat
                 /\ file_at (path_join (out_root manifest) "data.jsonl") (disk w')
                    = Some []
                 /\ file_at (path_join (out_root manifest) "manifest.json") (disk w')
                    = Some [ManifestDoc manifest])
         [JBool false; JInt 0; JFloat (Finite 0); JStr ""; JObj []; JNull]
  /\ (exists w',
         collect_one_page_per_fuel "ImTok.abc.def" "./scraping/raw_out" "GASOLINA"
           (sample_world (scripted [json_reply (page_with (JStr "oops"))]))
         = (Raise UnexpectedFormat, w')
         /\ appends (trace w') = []).
Proof.
  split.
  - repeat (apply Forall_cons;
            [split; [reflexivity | eexists _, _; vm_compute; repeat split] |]).
    apply Forall_nil.
  - eexists. vm_compute. split; reflexivity.
Qed.

(** A [resultado] that is a list does not make the collection return when
    a counter of the page does not convert to an integer, or when an item
    cannot be encoded: the rows before that item are then in the data file
    and no manifest is written. *)
Example counters_must_convert :
  exists w',
    collect_one_page_per_fuel "ImTok.abc.def" "./scraping/raw_out" "GASOLINA"
      (sample_world (scripted [json_reply uncounted_page]))
    = (Raise TypeError, w')
    /\ appends (trace w') = [].
Proof. vm_compute. eexists. split; reflexivity. Qed.

Example items_must_be_encodable :
  let w := picky_world (scripted [json_reply (page_of [JStr "ok"; JStr "bad"; JStr "late"])]) in
  exists w',
    collect_one_page_per_fuel "ImTok.abc.def" "./scraping/raw_out" "GASOLINA" w
    = (Raise UnicodeEncodeError, w')
    /\ map snd (appends (trace w'))
       = [[RowLine (mkRow 0 "run-A" "precodahora" "GASOLINA" the_query (JStr "ok"))]]
    /\ overall_writes (trace w') = []
    /\ file_at "./scraping/raw_out/source=precodahora/anp=GASOLINA/dt=2026-01-15/run_id=run-A/manifest.json"
               (disk w') = None.
Proof. vm_compute. eexists. repeat split. Qed.

(** ** The run *)

(** *** Nothing but [main] writes the overall manifest *)

Lemma quiet_ret {A} (a : A) : quiet (ret a).
Proof. intro w. reflexivity. Qed.

Lemma quiet_raise {A} (e : Exn) : quiet (raise (A := A) e).
Proof. intro w. reflexivity. Qed.

Lemma quiet_lift {A} (o : Outcome A) : quiet (lift o).
Proof. intro w. reflexivity. Qed.

Lemma quiet_bind {A B} (m : Py A) (k : A -> Py B) :
  quiet m -> (forall a, quiet (k a)) -> quiet (bind m k).
Proof.
  intros Hm Hk w. unfold bind. specialize (Hm w).
  destruct (m w) as [[a | e] w1]; cbn [snd] in *.
  - rewrite (Hk a w1). exact Hm.
  - exact Hm.
Qed.

Lemma quiet_try_finally {A} (m : Py A) (f : Py unit) :
  quiet m -> quiet f -> quiet (try_finally m f).
Proof.
  intros Hm Hf w. unfold try_finally. specialize (Hm w).
  destruct (m w) as [[a | e] w1]; cbn [snd] in *;
    specialize (Hf w1); destruct (f w1) as [[u | e'] w2]; cbn [snd] in *; congruence.
Qed.

Lemma quiet_sleep (d : Q) : quiet (sleep d).
Proof. intro w. unfold sleep. destruct (Qle_bool d SLEEP_MAX); reflexivity. Qed.

Lemma quiet_random_uniform (a b : Q) : quiet (random_uniform a b).
Proof. intro w. reflexivity. Qed.

Lemma quiet_new_uuid : quiet new_uuid.
Proof. intro w. reflexivity. Qed.

Lemma quiet_utc_now_iso : quiet utc_now_iso.
Proof. intro w. reflexivity. Qed.

Lemma quiet_local_date : quiet local_date_yyyy_mm_dd.
Proof. intro w. reflexivity. Qed.

Lemma quiet_path_exists (path : string) : quiet (path_exists path).
Proof. intro w. reflexivity. Qed.

Lemma quiet_session_request (rq : Request) : quiet (session_request rq).
Proof.
  intro w. unfold session_request.
  destruct (network w (List.length (sent w))); reflexivity.
Qed.

Lemma quiet_fs_do (op : FsOp) :
  match op with Write _ [OverallDoc _] => False | _ => True end -> quiet (fs_do op).
Proof.
  intros H w. unfold fs_do. cbn.
  destruct op as [p | p c | p c | p]; try reflexivity.
  destruct c as [| [] []]; try reflexivity. contradiction.
Qed.

Lemma quiet_append_jsonl (path : string) (rows : list CollectedRow) :
  quiet (append_jsonl path rows).
Proof.
  intro w. unfold append_jsonl, bind, fs_do. cbn beta iota.
  destruct (forallb _ rows); reflexivity.
Qed.

Create HintDb quiet.
#[local] Hint Resolve quiet_ret quiet_raise quiet_lift quiet_sleep quiet_random_uniform
  quiet_new_uuid quiet_utc_now_iso quiet_local_date quiet_path_exists
  quiet_session_request quiet_append_jsonl : quiet.

Ltac quiet_steps :=
  repeat first
    [ progress intros
    | solve [auto with quiet]
    | apply quiet_fs_do; exact I
    | match goal with
      | |- quiet (if ?b then _ else _) => destruct b
      | |- quiet (match ?x with _ => _ end) => destruct x
      end
    | apply quiet_try_finally
    | apply quiet_bind ].

Lemma quiet_compute_backoff (attempt : Z) : quiet (compute_backoff attempt).
Proof. unfold compute_backoff. quiet_steps. Qed.

Lemma quiet_attempt_body (rq : Request) (attempt : Z) : quiet (attempt_body rq attempt).
Proof.
  pose proof quiet_compute_backoff.
  unfold attempt_body, raise_for_status. quiet_steps.
Qed.

Lemma quiet_retry_loop (rq : Request) (attempts : list Z) :
  forall last_err, quiet (retry_loop rq attempts last_err).
Proof.
  induction attempts as [| attempt rest IH]; intros last_err w; [reflexivity |].
  cbn [retry_loop].
  pose proof (quiet_attempt_body rq attempt w) as Ha.
  destruct (attempt_body rq attempt w) as [[[r |] | e] w1]; cbn [snd] in *.
  - exact Ha.
  - rewrite (IH last_err w1). exact Ha.
  - rewrite <- Ha. revert w1 Ha. intros w1 _.
    apply (@quiet_bind _ _ (compute_backoff attempt)
             (fun wait_s => sleep wait_s ;;; retry_loop rq rest (Some e))).
    + apply quiet_compute_backoff.
    + intro d. apply quiet_bind; [apply quiet_sleep | intros _; apply IH].
Qed.

Lemma quiet_post_products (csrf : string) (payload : list (string * string)) :
  quiet (post_products csrf payload).
Proof.
  unfold post_products, request_with_retry. apply quiet_bind.
  - apply quiet_retry_loop.
  - intro r. quiet_steps.
Qed.

Lemma quiet_scan_scripts (urls : list string) : quiet (scan_scripts urls).
Proof.
  induction urls as [| url rest IH]; cbn [scan_scripts]; [apply quiet_raise |].
  unfold session_get. quiet_steps; exact IH.
Qed.

Lemma quiet_bootstrap (env : Env) : quiet (bootstrap_and_find_csrf env).
Proof.
  pose proof quiet_scan_scripts.
  unfold bootstrap_and_find_csrf, save_debug_page, call_find_script_srcs, session_get,
    raise_for_status.
  quiet_steps.
Qed.

Lemma quiet_collect (csrf base_out anp : string) :
  quiet (collect_one_page_per_fuel csrf base_out anp).
Proof.
  pose proof quiet_post_products.
  unfold collect_one_page_per_fuel, make_out_paths, page_to_rows, ensure_dir.
  quiet_steps.
Qed.

Lemma quiet_pause (idx total : nat) :
  quiet (if (idx <? total)%nat
         then sleep_s <- random_uniform (fst SLEEP_BETWEEN_FUELS) (snd SLEEP_BETWEEN_FUELS) ;;
              sleep sleep_s
         else ret tt).
Proof. quiet_steps. Qed.

Lemma quiet_fuel_loop (env : Env) (csrf : string) (total : nat) (todo : list (nat * string)) :
  forall runs, quiet (fuel_loop env csrf total todo runs).
Proof.
  induction todo as [| [idx anp] rest IH]; intros runs; cbn [fuel_loop]; [apply quiet_ret |].
  apply quiet_bind; [| intro runs'; apply IH].
  apply quiet_try_finally; [| apply quiet_pause].
  apply quiet_bind; [apply quiet_collect | intro; apply quiet_ret].
Qed.

(** *** A failed category ends the run *)

Lemma fuel_loop_app (env : Env) (csrf : string) (total : nat)
      (done rest : list (nat * string)) :
  forall runs w,
    fuel_loop env csrf total (done ++ rest) runs w
    = match fuel_loop env csrf total done runs w with
      | (Ok runs', w') => fuel_loop env csrf total rest runs' w'
      | (Raise e, w') => (Raise e, w')
      end.
Proof.
  induction done as [| [idx anp] done IH]; intros runs w; cbn [app fuel_loop].
  - reflexivity.
  - unfold bind.
    destruct (try_finally _ _ w) as [[runs' | e] w1]; [apply IH | reflexivity].
Qed.

Lemma pause_can_be_slept (w : World) :
  (random w (drawn w) <= 1)%Q -> Qle_bool (next_pause w) SLEEP_MAX = true.
Proof.
  intros H. apply Qle_bool_iff. unfold next_pause, SLEEP_BETWEEN_FUELS. cbn [fst snd].
  apply Qle_trans with (12 # 5)%Q; [lra | vm_compute; discriminate].
Qed.

(** C1.  A failure of one category is not isolated.  Let the bootstrap have
    returned a token and the categories before [anp] have been collected
    ([random.random()] giving a number that is at most one).  When the
    collection of [anp] raises, the pause between categories is still made
    (unless [anp] is the last category), and then [main] raises the same
    exception: the [try] of the loop has a [finally] clause and no [except]
    clause, so nothing follows the pause, no later category is collected
    and no overall manifest is written. *)
Theorem category_failure_aborts_the_run
        (env : Env) (w0 : World) (csrf : string) (w1 : World)
        (done rest : list (nat * string)) (idx : nat) (anp : string)
        (runs : list Manifest) (w2 : World) (e : Exn) (w3 : World) :
  bootstrap_and_find_csrf env (log_event w0 (Disk (MkDirs (OUT_DIR env)))) = (Ok csrf, w1) ->
  enumerate1 FUELS = (done ++ (idx, anp) :: rest)%list ->
  fuel_loop env csrf (List.length FUELS) done [] w1 = (Ok runs, w2) ->
  collect_one_page_per_fuel csrf (OUT_DIR env) anp w2 = (Raise e, w3) ->
  (random w3 (drawn w3) <= 1)%Q ->
  exists w',
    main env w0 = (Raise e, w')
    /\ trace w' = ((if (idx <? List.length FUELS)%nat then [Slept (next_pause w3)] else [])
                   ++ trace w3)%list
    /\ sent w' = sent w3
    /\ overall_writes (trace w') = overall_writes (trace w0).
Proof.
  intros Hboot Henum Hdone Hcollect Hrandom.
  assert (Q3 : overall_writes (trace w3) = overall_writes (trace w0)).
  { pose proof (quiet_collect csrf (OUT_DIR env) anp w2) as Qc.
    pose proof (quiet_fuel_loop env csrf (List.length FUELS) done [] w1) as Ql.
    pose proof (quiet_bootstrap env (log_event w0 (Disk (MkDirs (OUT_DIR env))))) as Qb.
    rewrite Hcollect in Qc. rewrite Hdone in Ql. rewrite Hboot in Qb.
    cbn [snd] in *. rewrite Qc, Ql, Qb. reflexivity. }
  unfold main, ensure_dir, fs_do, utc_now_iso.
  unfold bind at 1. cbn beta iota zeta.
  unfold bind at 1. rewrite Hboot.
  unfold bind at 1. cbn beta iota zeta.
  unfold bind at 1. rewrite Henum, fuel_loop_app, Hdone.
  cbn [fuel_loop]. unfold bind at 1. unfold try_finally.
  unfold bind at 1. rewrite Hcollect.
  destruct (idx <? List.length FUELS)%nat.
  - unfold bind, random_uniform. cbn beta iota zeta.
    rewrite sleep_returns by exact (pause_can_be_slept w3 Hrandom).
    eexists. split; [reflexivity |]. repeat split. exact Q3.
  - unfold ret. eexists. split; [reflexivity |]. repeat split. exact Q3.
Qed.

Lemma category_failure_aborts_the_run_witness :
  exists w',
    main sample_env failing_run_world = (Raise UnexpectedFormat, w')
    /\ overall_writes (trace w') = overall_writes (trace failing_run_world).
Proof.
  epose proof (@category_failure_aborts_the_run sample_env failing_run_world
                 "ImTok.abc.def" _ [] [(2%nat, "ETANOL"); (3%nat, "GNV"); (4%nat, "DIESEL")]
                 1%nat "GASOLINA" [] _ UnexpectedFormat _) as H.
  destruct H as (w' & E & _ & _ & O).
  - vm_compute. reflexivity.
  - reflexivity.
  - reflexivity.
  - vm_compute. reflexivity.
  - vm_compute. discriminate.
  - exists w'. split; [exact E | exact O].
Defined.

(** In a run where the page of the first fuel is malformed, [main] raises
    after the one request of that fuel: the three other fuels, whose pages
    are in order, are never asked for, and no overall manifest is written. *)
Lemma category_failure_is_not_isolated :
  fst (main sample_env failing_run_world) = Raise UnexpectedFormat
  /\ sent (snd (main sample_env failing_run_world))
     = [products_post "ImTok.abc.def" "GASOLINA"; landing_get]
  /\ overall_writes (trace (snd (main sample_env failing_run_world))) = [].
Proof. vm_compute. repeat split. Qed.

(** *** The overall manifest *)

(** A run of [main] that returns has written the overall manifest once, as
    its last action; the timestamp in it is the time at which the bootstrap
    returned, read before the first category is collected. *)
Lemma main_stamps_before_the_loop (env : Env) (w0 w' : World) :
  main env w0 = (Ok tt, w') ->
  exists csrf w1 runs w2,
    bootstrap_and_find_csrf env (log_event w0 (Disk (MkDirs (OUT_DIR env)))) = (Ok csrf, w1)
    /\ fuel_loop env csrf (List.length FUELS) (enumerate1 FUELS) [] w1 = (Ok runs, w2)
    /\ trace w'
       = Disk (Write (overall_path env)
                     [OverallDoc (mkOverall (Qfloor (clock w1))
                                            (abspath env (OUT_DIR env)) runs)])
           :: trace w2
    /\ overall_writes (trace w')
       = mkOverall (Qfloor (clock w1)) (abspath env (OUT_DIR env)) runs
           :: overall_writes (trace w0).
Proof.
  unfold main, ensure_dir, fs_do, utc_now_iso.
  unfold bind at 1. cbn beta iota zeta.
  unfold bind at 1.
  pose proof (quiet_bootstrap env (log_event w0 (Disk (MkDirs (OUT_DIR env))))) as Qb.
  destruct (bootstrap_and_find_csrf env (log_event w0 (Disk (MkDirs (OUT_DIR env)))))
    as [[csrf | e] w1] eqn:Hb; [| discriminate].
  unfold bind at 1. cbn beta iota zeta.
  unfold bind at 1.
  pose proof (quiet_fuel_loop env csrf (List.length FUELS) (enumerate1 FUELS) [] w1) as Ql.
  destruct (fuel_loop env csrf (List.length FUELS) (enumerate1 FUELS) [] w1)
    as [[runs | e] w2] eqn:Hl; [| discriminate].
  intros H. injection H as <-.
  exists csrf, w1, runs, w2.
  split; [reflexivity | split; [exact Hl | split; [reflexivity |]]].
  cbn [snd] in *. unfold log_event. cbn [trace overall_writes].
  rewrite Ql, Qb. reflexivity.
Qed.

(** C9.  In a run whose four categories are collected, the overall
    manifest is written once, last of all, and aggregates the four runs;
    its [finished_at_utc] is the time 0 at which the loop began, while the
    runs it aggregates were collected at the times 0, 1, 3 and 5. *)
Theorem finished_at_utc_is_read_before_the_loop :
  exists o w' t,
    main sample_env full_run_world = (Ok tt, w')
    /\ trace w' = Disk (Write (overall_path sample_env) [OverallDoc o]) :: t
    /\ overall_writes (trace w') = [o]
    /\ map anp (runs o) = FUELS
    /\ map collected_at_utc (runs o) = [0; 1; 3; 5]%Z
    /\ finished_at_utc o = 0%Z.
Proof. vm_compute. eexists _, _, _. repeat split. Qed.

(** * Further properties of the script *)

(** ** Texts and slugs *)

Lemma slug_chars_have_no_slash (l : codepoints) :
  forallb slug_char l = true -> mem_char "/" l = false.
Proof.
  unfold mem_char. induction l as [| c l IH]; cbn [forallb existsb]; [reflexivity |].
  intros H. apply andb_true_iff in H. destruct H as [Hc Hl].
  rewrite (IH Hl), orb_false_r.
  destruct (Ascii.eqb "/" c) eqn:E; [| reflexivity].
  apply Ascii.eqb_eq in E. subst c. discriminate.
Qed.

Lemma safe_slug_chars (s : string) : forallb slug_char (chars (safe_slug s)) = true.
Proof.
  unfold safe_slug. rewrite chars_str.
  induction (chars s) as [| c l IH]; simpl; [reflexivity |].
  rewrite IH, andb_true_r. destruct (slug_char c) eqn:E; [exact E | reflexivity].
Qed.

(** X1.  [safe_slug] keeps the length of its argument, and every character
    of its result is a letter, a digit or one of [_-=.]; in particular the
    result holds no slash, so it is a single path component. *)
Theorem safe_slug_is_safe (s : string) :
  String.length (safe_slug s) = String.length s
  /\ forallb slug_char (chars (safe_slug s)) = true
  /\ mem_char "/" (chars (safe_slug s)) = false.
Proof.
  pose proof (safe_slug_chars s) as A.
  split; [| split; [exact A | apply slug_chars_have_no_slash; exact A]].
  unfold safe_slug. rewrite length_str, length_map. apply length_chars.
Qed.

(** X2.  [safe_slug] changes nothing in a text it has produced, and nothing
    in a text whose characters are all allowed. *)
Theorem safe_slug_idempotent (s : string) :
  safe_slug (safe_slug s) = safe_slug s
  /\ (if forallb slug_char (chars s) then safe_slug s = s else safe_slug s <> s).
Proof.
  assert (fix_safe : forall l, forallb slug_char l = true ->
                               map (fun c => if slug_char c then c else "_"%char) l = l).
  { induction l as [| c l IH]; simpl; [reflexivity |].
    intros H. apply andb_true_iff in H. destruct H as [Hc Hl].
    rewrite Hc, (IH Hl). reflexivity. }
  split.
  - pose proof (safe_slug_chars s) as A.
    unfold safe_slug at 1. rewrite (fix_safe _ A). apply str_chars.
  - destruct (forallb slug_char (chars s)) eqn:E.
    + unfold safe_slug. rewrite (fix_safe _ E). apply str_chars.
    + intros H. pose proof (safe_slug_chars s) as A.
      rewrite H, E in A. discriminate.
Qed.

(** ** Script addresses *)

Lemma mem_string_In (u : string) (l : list string) : mem_string u l = true <-> In u l.
Proof.
  unfold mem_string. rewrite existsb_exists. split.
  - intros (x & Hx & E). apply String.eqb_eq in E. subst x. exact Hx.
  - intros H. exists u. split; [exact H | apply String.eqb_refl].
Qed.

Lemma dedupe_spec (urls : list string) :
  forall seen,
    NoDup (dedupe seen urls)
    /\ forall u, In u (dedupe seen urls) <-> In u urls /\ ~ In u seen.
Proof.
  induction urls as [| v urls IH]; intros seen; cbn [dedupe].
  - split; [constructor | intros u; cbn; tauto].
  - destruct (mem_string v seen) eqn:M.
    + apply mem_string_In in M. destruct (IH seen) as [N I]. split; [exact N |].
      intros u. rewrite I. cbn. split; [tauto |].
      intros [[-> | H] S]; [contradiction | tauto].
    + assert (M' : ~ In v seen)
        by (intros H; apply mem_string_In in H; rewrite H in M; discriminate).
      destruct (IH (v :: seen)) as [N I]. split.
      * constructor; [| exact N]. rewrite I. cbn. tauto.
      * intros u. cbn. rewrite I. cbn. split.
        -- intros [-> | [H S]]; [tauto | tauto].
        -- intros [[-> | H] S]; [tauto |].
           destruct (String.eqb v u) eqn:E.
           ++ apply String.eqb_eq in E. tauto.
           ++ apply String.eqb_neq in E. tauto.
Qed.

(** X3.  [find_script_srcs] returns every address the page refers to in a
    script tag, resolved against the base address, and returns none of
    them twice. *)
Theorem find_script_srcs_distinct (env : Env) (html : string) :
  NoDup (find_script_srcs env html)
  /\ forall u,
       In u (find_script_srcs env html)
       <-> In u (map (fun s => urljoin env BASE_URL (str s))
                     (Re.findall true SCRIPT_SRC_RE (chars html))).
Proof.
  unfold find_script_srcs. cbn zeta.
  destruct (dedupe_spec (map (fun s => urljoin env BASE_URL (str s))
                             (Re.findall true SCRIPT_SRC_RE (chars html))) [])
    as [N I].
  split; [exact N |]. intros u. rewrite I. cbn. tauto.
Qed.

(** ** The retrying request, whatever the network does *)

Lemma fails_or_passes (rp : Reply) :
  fails rp = false -> exists r, rp = Responds r /\ passes r = true.
Proof.
  destruct rp as [r | what]; cbn; [| discriminate].
  intros F. exists r. unfold passes. rewrite F. auto.
Qed.

Lemma repeat_shift {A} (x : A) (n : nat) (l : list A) :
  (repeat x n ++ x :: l = x :: repeat x n ++ l)%list.
Proof. induction n as [| n IH]; cbn; [reflexivity | rewrite IH; reflexivity]. Qed.

(** The loop sends the same request once per turn, stops at the first
    reply that is no failure and returns it, and raises its terminal error
    when the turns are used up. *)
Lemma retry_loop_spec (rq : Request) (attempts : list Z) :
  Forall (fun attempt => (attempt <= MAX_ATTEMPT)%Z) attempts ->
  forall last_err w,
  exists o w' n,
    retry_loop rq attempts last_err w = (o, w')
    /\ (n <= List.length attempts)%nat
    /\ sent w' = (repeat rq n ++ sent w)%list
    /\ network w' = network w
    /\ match o with
       | Ok r =>
           exists i, n = S i /\ upcoming w i = Responds r /\ passes r = true
                     /\ forall j, (j < i)%nat -> fails (upcoming w j) = true
       | Raise e =>
           n = List.length attempts
           /\ (exists cause, e = RequestFailed cause)
           /\ forall j, (j < n)%nat -> fails (upcoming w j) = true
       end.
Proof.
  induction 1 as [| attempt rest A _ IH]; intros last_err w.
  - exists (Raise (RequestFailed last_err)), w, 0%nat. cbn.
    repeat split; eauto. intros j Hj. lia.
  - destruct (fails (upcoming w 0)) eqn:F.
    + destruct (failed_attempt rq rest last_err w F A)
        as (d & le & w1 & L & T & N).
      destruct (IH le w1) as (o & w' & n & R & Hn & Hs & Hnet & Ho).
      assert (U : forall k, upcoming w1 k = upcoming w (S k))
        by (intro k; exact (upcoming_after w w1 k T N)).
      exists o, w', (S n). rewrite L. split; [exact R |].
      split; [cbn; lia |].
      split; [rewrite Hs; unfold sent at 1; rewrite T; cbn [requests];
              fold (sent w); apply repeat_shift |].
      split; [rewrite Hnet; exact N |].
      destruct o as [r | e].
      * destruct Ho as (i & -> & E & P & Fj). exists (S i).
        rewrite <- U. repeat split; auto.
        intros [| j] Hj; [exact F | rewrite <- U; apply Fj; lia].
      * destruct Ho as (-> & C & Fj). repeat split; auto.
        intros [| j] Hj; [exact F | rewrite <- U; apply Fj; cbn in Hj; lia].
    + destruct (fails_or_passes _ F) as (r & E & P).
      exists (Ok r), (log_event w (Requested rq)), 1%nat.
      rewrite (succeeded_step rq attempt rest last_err w E P).
      split; [reflexivity |]. split; [cbn; lia |].
      split; [reflexivity |]. split; [reflexivity |].
      exists 0%nat. repeat split; auto. intros j Hj. lia.
Qed.


(** ** The products request *)

Lemma snippet_is_short (n : nat) (s : string) :
  (String.length (snippet n s) <= n)%nat
  /\ mem_char "010" (chars (snippet n s)) = false.
Proof.
  unfold snippet. rewrite length_str, length_map, chars_str. split.
  - apply firstn_le_length.
  - unfold mem_char. induction (firstn n (chars s)) as [| c l IH];
      cbn [map existsb]; [reflexivity |].
    rewrite IH, orb_false_r.
    destruct (Ascii.eqb c "010") eqn:E; [reflexivity |].
    rewrite Ascii.eqb_sym. exact E.
Qed.

(** X7.  [post_products] returns the parsed body of the response
    [request_with_retry] returned, a response whose status is no error.
    It raises in two ways only: with the terminal error of the retries, or,
    when the body of that response does not parse, with [NotJson] and a
    snippet of the body of at most 500 characters on one line. *)
Theorem post_products_outcomes (csrf : string) (payload : list (string * string))
        (w : World) :
  exists o w',
    post_products csrf payload w = (o, w')
    /\ match o with
       | Ok d =>
           exists r k, upcoming w k = Responds r /\ passes r = true /\ json r = Some d
       | Raise (NotJson s) =>
           (exists r k, upcoming w k = Responds r /\ passes r = true /\ json r = None
                        /\ s = snippet 500 (text r))
           /\ (String.length s <= 500)%nat
           /\ mem_char "010" (chars s) = false
       | Raise (RequestFailed _) =>
           forall j, (j < 6)%nat -> fails (upcoming w j) = true
       | Raise _ => False
       end.
Proof.
  unfold post_products, request_with_retry, bind.
  rewrite the_six_attempts.
  match goal with
  | |- context [retry_loop ?rq ?l None w] =>
      destruct (@retry_loop_spec rq l the_six_attempts_are_small None w)
        as (o & w' & n & R & _ & _ & _ & Ho);
      rewrite R
  end.
  destruct o as [r | e].
  - destruct Ho as (i & _ & E & P & _).
    destruct (json r) as [d |] eqn:J.
    + eexists _, _. split; [reflexivity |]. exists r, i. auto.
    + eexists _, _. split; [reflexivity |].
      destruct (snippet_is_short 500 (text r)) as [L N].
      split; [exists r, i; auto | auto].
  - destruct Ho as (-> & (c & ->) & Fj).
    eexists _, _. split; [reflexivity |]. exact Fj.
Qed.

(** ** What a computation leaves alone *)

Section Unchanged.

Context {X : Type} (f : World -> X) (keeps : Event -> bool).
Hypothesis f_log : forall w e, keeps e = true -> f (log_event w e) = f w.
Hypothesis f_advance : forall w d, f (advance w d) = f w.
Hypothesis f_drawn : forall w n, f (set_drawn w n) = f w.
Hypothesis keeps_requests : forall rq, keeps (Requested rq) = true.

Lemma unchanged_ret {A} (a : A) : unchanged f (ret a).
Proof. intro w. reflexivity. Qed.

Lemma unchanged_raise {A} (e : Exn) : unchanged f (raise (A := A) e).
Proof. intro w. reflexivity. Qed.

Lemma unchanged_lift {A} (o : Outcome A) : unchanged f (lift o).
Proof. intro w. reflexivity. Qed.

Lemma unchanged_bind {A B} (m : Py A) (k : A -> Py B) :
  unchanged f m -> (forall a, unchanged f (k a)) -> unchanged f (bind m k).
Proof.
  intros Hm Hk w. unfold bind. specialize (Hm w).
  destruct (m w) as [[a | e] w1]; cbn [snd] in *.
  - rewrite (Hk a w1). exact Hm.
  - exact Hm.
Qed.

Lemma unchanged_try_finally {A} (m : Py A) (g : Py unit) :
  unchanged f m -> unchanged f g -> unchanged f (try_finally m g).
Proof.
  intros Hm Hg w. unfold try_finally. specialize (Hm w).
  destruct (m w) as [[a | e] w1]; cbn [snd] in *;
    specialize (Hg w1); destruct (g w1) as [[u | e'] w2]; cbn [snd] in *; congruence.
Qed.

Lemma unchanged_sleep (d : Q) : unchanged f (sleep d).
Proof.
  intro w. unfold sleep.
  destruct (Qle_bool d SLEEP_MAX); cbn [snd]; [apply f_advance | reflexivity].
Qed.

Lemma unchanged_random_uniform (a b : Q) : unchanged f (random_uniform a b).
Proof. intro w. apply f_drawn. Qed.

Lemma unchanged_utc_now_iso : unchanged f utc_now_iso.
Proof. intro w. reflexivity. Qed.

Lemma unchanged_local_date : unchanged f local_date_yyyy_mm_dd.
Proof. intro w. reflexivity. Qed.

Lemma unchanged_path_exists (path : string) : unchanged f (path_exists path).
Proof. intro w. reflexivity. Qed.

Lemma unchanged_session_request (rq : Request) : unchanged f (session_request rq).
Proof.
  intro w. unfold session_request.
  destruct (network w (List.length (sent w))); cbn [snd]; apply f_log, keeps_requests.
Qed.

Lemma unchanged_fs_do (op : FsOp) : keeps (Disk op) = true -> unchanged f (fs_do op).
Proof. intros K w. apply f_log, K. Qed.

Lemma unchanged_compute_backoff (attempt : Z) : unchanged f (compute_backoff attempt).
Proof.
  unfold compute_backoff. destruct (MAX_ATTEMPT <? attempt)%Z; [apply unchanged_raise |].
  apply unchanged_bind; [apply unchanged_random_uniform | intro; apply unchanged_ret].
Qed.

Ltac unchanged_steps :=
  repeat first
    [ progress intros
    | assumption
    | apply unchanged_ret | apply unchanged_raise | apply unchanged_lift
    | apply unchanged_sleep | apply unchanged_random_uniform
    | apply unchanged_utc_now_iso | apply unchanged_local_date
    | apply unchanged_path_exists | apply unchanged_session_request
    | apply unchanged_compute_backoff
    | match goal with
      | |- unchanged _ (if ?b then _ else _) => destruct b
      | |- unchanged _ (match ?x with _ => _ end) => destruct x
      end
    | apply unchanged_try_finally
    | apply unchanged_bind ].

Lemma unchanged_attempt_body (rq : Request) (attempt : Z) :
  unchanged f (attempt_body rq attempt).
Proof. unfold attempt_body, raise_for_status. unchanged_steps. Qed.

Lemma unchanged_retry_loop (rq : Request) (attempts : list Z) :
  forall last_err, unchanged f (retry_loop rq attempts last_err).
Proof.
  induction attempts as [| attempt rest IH]; intros last_err w; [reflexivity |].
  cbn [retry_loop].
  pose proof (unchanged_attempt_body rq attempt w) as Ha.
  destruct (attempt_body rq attempt w) as [[[r |] | e] w1]; cbn [snd] in *.
  - exact Ha.
  - rewrite (IH last_err w1). exact Ha.
  - rewrite <- Ha.
    apply (@unchanged_bind _ _ (compute_backoff attempt)
             (fun wait_s => sleep wait_s ;;; retry_loop rq rest (Some e))).
    + apply unchanged_compute_backoff.
    + intro d. apply unchanged_bind; [apply unchanged_sleep | intros _; apply IH].
Qed.

Lemma unchanged_post_products (csrf : string) (payload : list (string * string)) :
  unchanged f (post_products csrf payload).
Proof.
  unfold post_products, request_with_retry. apply unchanged_bind.
  - apply unchanged_retry_loop.
  - intro r. unchanged_steps.
Qed.

Lemma unchanged_scan_scripts (urls : list string) : unchanged f (scan_scripts urls).
Proof.
  induction urls as [| url rest IH]; cbn [scan_scripts]; [apply unchanged_raise |].
  unfold session_get. unchanged_steps.
Qed.

End Unchanged.

Lemma disk_log (w : World) (e : Event) : no_disk e = true -> disk (log_event w e) = disk w.
Proof. destruct e; cbn; [reflexivity | reflexivity | discriminate]. Qed.

Lemma ids_log (w : World) (e : Event) : (fun _ => true) e = true -> ids (log_event w e) = ids w.
Proof. reflexivity. Qed.

(** The retrying request and the scan of the script assets touch neither
    the files nor the source of run identifiers. *)
Lemma post_products_keeps_disk (csrf : string) (payload : list (string * string)) :
  unchanged disk (post_products csrf payload).
Proof.
  apply (unchanged_post_products disk no_disk disk_log); reflexivity.
Qed.

Lemma post_products_keeps_ids (csrf : string) (payload : list (string * string)) :
  unchanged ids (post_products csrf payload).
Proof.
  apply (unchanged_post_products ids (fun _ => true) ids_log); reflexivity.
Qed.

Lemma scan_scripts_keeps_disk (urls : list string) : unchanged disk (scan_scripts urls).
Proof.
  apply (unchanged_scan_scripts disk no_disk disk_log); reflexivity.
Qed.

Lemma scan_scripts_keeps_ids (urls : list string) : unchanged ids (scan_scripts urls).
Proof.
  apply (unchanged_scan_scripts ids (fun _ => true) ids_log); reflexivity.
Qed.

(** ** The bootstrap, whatever the network does *)

(** X8.  The request for the landing page is sent once and is not retried:
    when it is answered with an error status, a 429 or a 5xx among them, or
    when the transport breaks, the bootstrap raises at once, having fetched
    nothing else, slept no time and written no file. *)
Theorem bootstrap_does_not_retry_the_landing_page (env : Env) (w : World) :
  fails (upcoming w 0) = true ->
  bootstrap_and_find_csrf env w
  = (Raise (match upcoming w 0 with
            | Responds r => HTTPError (status_code r)
            | Breaks what => RequestException what
            end),
     log_event w (Requested landing_get)).
Proof.
  rewrite upcoming_0. intros F.
  unfold bootstrap_and_find_csrf. run_py. fold landing_get.
  destruct (network w (List.length (sent w))) as [r | what]; [| reflexivity].
  cbn [fails] in F. rewrite F. reflexivity.
Qed.

Lemma bootstrap_does_not_retry_the_landing_page_witness :
  bootstrap_and_find_csrf sample_env (sample_world (scripted [status_reply 429; landing_with_token]))
  = (Raise (HTTPError 429),
     log_event (sample_world (scripted [status_reply 429; landing_with_token]))
               (Requested landing_get)).
Proof.
  apply (@bootstrap_does_not_retry_the_landing_page sample_env
           (sample_world (scripted [status_reply 429; landing_with_token]))).
  reflexivity.
Defined.

Lemma found_is_true (o : option string) (t : string) : found o = Some t -> truthy_str t = true.
Proof.
  destruct o as [t' |]; cbn; [| discriminate].
  destruct (truthy_str t') eqn:E; [| discriminate].
  intros H. injection H as <-. exact E.
Qed.

Lemma scan_scripts_token (urls : list string) :
  forall w t w', scan_scripts urls w = (Ok t, w') -> truthy_str t = true.
Proof.
  induction urls as [| url rest IH]; intros w t w'; cbn [scan_scripts]; [discriminate |].
  run_py. destruct (network w (List.length (sent w))) as [rr | what]; [| discriminate].
  destruct (negb (status_code rr =? 200)%Z); [apply IH |].
  destruct (found (extract_csrf_from_js_text (text rr))) as [token |] eqn:F; [| apply IH].
  intros H. injection H as <- _. exact (found_is_true _ F).
Qed.

(** X9.  A token the bootstrap returns is never the empty text. *)
Theorem bootstrap_token_is_not_empty (env : Env) (w w' : World) (csrf : string) :
  bootstrap_and_find_csrf env w = (Ok csrf, w') -> csrf <> "".
Proof.
  unfold bootstrap_and_find_csrf, save_debug_page, call_find_script_srcs. run_py.
  destruct (network w (List.length (sent w))) as [r | what]; [| discriminate].
  destruct ((400 <=? status_code r) && (status_code r <? 600))%Z%bool; [discriminate |].
  destruct (scraping_dir_exists env); [| discriminate].
  intros H. assert (T : truthy_str csrf = true).
  { destruct (found (extract_csrf_from_html (text r))) as [t |] eqn:F.
    - injection H as <- _. exact (found_is_true _ F).
    - destruct (existsb _ _); [discriminate |].
      exact (scan_scripts_token _ _ H). }
  intros ->. discriminate.
Qed.

Lemma bootstrap_token_is_not_empty_witness : "ImTok.abc.def" <> "".
Proof.
  eapply (@bootstrap_token_is_not_empty sample_env scripts_world).
  vm_compute. reflexivity.
Defined.

Lemma call_find_script_srcs_keeps_disk (env : Env) (html : string) :
  unchanged disk (call_find_script_srcs env html).
Proof.
  intro w. unfold call_find_script_srcs. destruct (existsb _ _); reflexivity.
Qed.

(** X10.  Once the landing page is served without error status, and where
    the directory [./scraping] is there, the text of the page is what the
    debug file holds when the bootstrap ends, whether a token was found in
    the page, in a script asset, or not at all.  Where that directory is
    missing, the bootstrap raises [FileNotFoundError] as soon as the page
    is served: it has looked for no token and sent no other request. *)
Theorem bootstrap_saves_the_landing_page (env : Env) (w : World) (r : Response) :
  upcoming w 0 = Responds r -> passes r = true ->
  if scraping_dir_exists env
  then file_at DEBUG_PAGE (disk (snd (bootstrap_and_find_csrf env w)))
       = Some [Html (text r)]
  else bootstrap_and_find_csrf env w
       = (Raise FileNotFoundError, log_event w (Requested landing_get)).
Proof.
  intros E P. rewrite (bootstrap_after_landing env w E P).
  destruct (scraping_dir_exists env); [| reflexivity].
  destruct (found (extract_csrf_from_html (text r))) as [csrf |].
  - unfold disk. cbn [snd log_event trace fs_ops file_at].
    rewrite String.eqb_refl. reflexivity.
  - destruct (existsb (urljoin_fails env) (script_refs (text r))).
    + unfold disk. cbn [snd log_event trace fs_ops file_at].
      rewrite String.eqb_refl. reflexivity.
    + rewrite scan_scripts_keeps_disk.
      unfold disk. cbn [log_event trace fs_ops file_at].
      rewrite String.eqb_refl. reflexivity.
Qed.

Lemma bootstrap_saves_the_landing_page_witness :
  file_at DEBUG_PAGE (disk (snd (bootstrap_and_find_csrf sample_env scripts_world)))
  = Some [Html (text landing_with_scripts)].
Proof.
  apply (@bootstrap_saves_the_landing_page sample_env scripts_world landing_with_scripts);
    reflexivity.
Defined.

(** ** Paths *)

Lemma basename_from_plain (t : codepoints) :
  forall acc, mem_char "/" t = false -> basename_from t acc = (rev acc ++ t)%list.
Proof.
  unfold mem_char. induction t as [| c t IH]; intros acc; cbn [basename_from existsb].
  - rewrite app_nil_r. reflexivity.
  - intros H. apply orb_false_iff in H. destruct H as [Hc Ht].
    rewrite Ascii.eqb_sym, Hc, (IH _ Ht). cbn [rev]. rewrite <- app_assoc. reflexivity.
Qed.

Lemma basename_from_slash (t1 t2 : codepoints) :
  forall acc, basename_from (t1 ++ "/"%char :: t2)%list acc = basename_from t2 [].
Proof.
  induction t1 as [| c t1 IH]; intros acc; cbn [app basename_from].
  - reflexivity.
  - destruct (Ascii.eqb c "/"); apply IH.
Qed.

Lemma ends_with_slash_split (a : string) :
  ends_with_slash a = true -> exists t, chars a = (t ++ ["/"%char])%list.
Proof.
  unfold ends_with_slash. destruct (rev (chars a)) as [| c l] eqn:R; [discriminate |].
  intros E. apply Ascii.eqb_eq in E. subst c.
  exists (rev l). rewrite <- (rev_involutive (chars a)), R. reflexivity.
Qed.

(** The last component of [os.path.join(a, b)] is [b] when [b] holds no
    slash. *)
Lemma basename_path_join (a b : string) :
  mem_char "/" (chars b) = false -> basename (path_join a b) = b.
Proof.
  intros Hb. unfold basename.
  assert (plain : str (basename_from (chars b) []) = b)
    by (rewrite (basename_from_plain _ _ Hb); apply str_chars).
  assert (E : path_join a b
              = if (negb (truthy_str a) || ends_with_slash a)%bool
                then a ++ b else a ++ "/" ++ b).
  { unfold path_join. destruct b as [| c b]; [reflexivity |].
    destruct (Ascii.eqb c "/") eqn:C.
    - apply Ascii.eqb_eq in C. subst c. cbn in Hb. discriminate.
    - destruct c as [[] [] [] [] [] [] [] []]; try reflexivity. discriminate. }
  rewrite E. destruct a as [| c a].
  - cbn. exact plain.
  - cbn [truthy_str negb orb]. destruct (ends_with_slash (String c a)) eqn:S.
    + destruct (ends_with_slash_split _ S) as [t Ht].
      rewrite chars_append, Ht, <- app_assoc. cbn [app].
      rewrite basename_from_slash. exact plain.
    + rewrite !chars_append. change (chars "/") with ["/"%char]. cbn [app].
      rewrite basename_from_slash. exact plain.
Qed.

(** ** The collection of one fuel, whatever the network does *)

Lemma post_products_ok (csrf : string) (payload : list (string * string))
      (w w' : World) (d : JSON) :
  post_products csrf payload w = (Ok d, w') ->
  exists r k, upcoming w k = Responds r /\ passes r = true /\ json r = Some d.
Proof.
  unfold post_products, request_with_retry, bind.
  rewrite the_six_attempts.
  match goal with
  | |- context [retry_loop ?rq ?l None w] =>
      destruct (@retry_loop_spec rq l the_six_attempts_are_small None w)
        as (o & w1 & n & R & _ & _ & _ & Ho);
      rewrite R
  end.
  destruct o as [r | e]; [| discriminate].
  destruct Ho as (i & _ & E & P & _).
  destruct (json r) as [d' |] eqn:J; [| discriminate].
  intros H. injection H as <- _. exists r, i. auto.
Qed.

Lemma encodable_rows_all (ok : JSON -> bool) (rows : list CollectedRow) :
  forallb (fun row => ok (row_raw row)) rows = true -> encodable_rows ok rows = rows.
Proof.
  induction rows as [| row rows IH]; cbn [forallb encodable_rows]; [reflexivity |].
  intros H. apply andb_true_iff in H. destruct H as [Hr Hs].
  rewrite Hr, (IH Hs). reflexivity.
Qed.

(** [append_jsonl] returns when every row can be encoded, all the rows
    being written then; otherwise it raises with the rows before the first
    such row written. *)
Lemma append_jsonl_outcome (path : string) (rows : list CollectedRow) (w : World) :
  append_jsonl path rows w
  = if forallb (fun row => encodable w (row_raw row)) rows
    then (Ok tt, log_event w (Disk (Append path (map RowLine rows))))
    else (Raise UnicodeEncodeError,
          log_event w (Disk (Append path
                               (map RowLine (encodable_rows (encodable w) rows))))).
Proof.
  unfold append_jsonl, bind, fs_do. cbn beta iota zeta.
  destruct (forallb (fun row => encodable w (row_raw row)) rows) eqn:F;
    [rewrite (encodable_rows_all _ _ F) |]; reflexivity.
Qed.

Lemma collect_ok (csrf base_out fuel : string) (w w' : World) (m : Manifest) :
  collect_one_page_per_fuel csrf base_out fuel w = (Ok m, w') ->
  exists (dir : string) (page : list (string * JSON)) (items : list JSON) (w1 w2 : World),
    dir = run_root base_out fuel (local_date w (clock w)) (uuid4 w (minted w))
    /\ post_products csrf (products_form fuel) w1 = (Ok (JObj page), w2)
    /\ network w1 = network w /\ sent w1 = sent w
    /\ file_at (path_join dir "data.jsonl") (disk w1) = None
    /\ ids w1 = (S (minted w), uuid4 w)
    /\ clock w1 = clock w /\ random w1 = random w /\ drawn w1 = drawn w
    /\ Json.or_empty_list (field page "resultado" JNull) = JArr items
    /\ Json.int (field page "totalPaginas" (JInt 1))
       = Ok (totalPaginas_reported (response_stats m))
    /\ Json.int (field page "totalRegistros" (JInt 0))
       = Ok (totalRegistros_reported (response_stats m))
    /\ Json.int (field page "registrosdaPagina" (JInt (Z.of_nat (List.length items))))
       = Ok (registrosdaPagina_reported (response_stats m))
    /\ m = mkManifest (uuid4 w (minted w)) (Qfloor (clock w)) fuel BASE_URL dir
                      (basename (path_join dir "data.jsonl")) the_query
                      (response_stats m)
    /\ rows_written (response_stats m) = List.length items
    /\ w' = log_event
              (log_event w2
                 (Disk (Append (path_join dir "data.jsonl")
                          (map RowLine
                             (map (fun item =>
                                     mkRow (Qfloor (clock w)) (uuid4 w (minted w))
                                           "precodahora" fuel the_query item)
                                  items)))))
              (Disk (Write (path_join dir "manifest.json") [ManifestDoc m])).
Proof.
  unfold collect_one_page_per_fuel, make_out_paths, page_to_rows.
  unfold bind at 1. unfold new_uuid at 1. cbn beta iota zeta.
  unfold bind at 1. unfold bind at 1. unfold local_date_yyyy_mm_dd at 1. cbn beta iota zeta.
  unfold bind at 1. unfold ensure_dir, fs_do at 1. cbn beta iota zeta.
  unfold ret at 1. cbn beta iota zeta.
  unfold bind at 1. unfold utc_now_iso at 1. cbn beta iota zeta.
  unfold bind at 1. unfold path_exists at 1. cbn beta iota zeta.
  fold (products_form fuel).
  set (dir := run_root base_out fuel (local_date w (clock w)) (uuid4 w (minted w))).
  change (path_join (path_join (path_join (path_join base_out "source=precodahora")
                                          ("anp=" ++ safe_slug fuel))
                               ("dt=" ++ local_date (set_minted w (S (minted w)))
                                                    (clock (set_minted w (S (minted w))))))
                    ("run_id=" ++ uuid4 w (minted w)))
    with dir.
  set (w1 := log_event (set_minted w (S (minted w))) (Disk (MkDirs dir))).
  cbn [data_jsonl manifest root].
  unfold field.
  destruct (file_at (path_join dir "data.jsonl") (disk w1)) eqn:FA;
    [unfold fs_do at 1 | unfold ret at 1]; cbn beta iota zeta;
    unfold bind at 1; unfold bind at 1;
    match goal with
    | |- context [post_products csrf (products_form fuel) ?wX] =>
        destruct (post_products csrf (products_form fuel) wX) as [[page | e] w2] eqn:PP;
        [| discriminate]
    end;
    unfold bind, lift, raise, ret; cbn beta iota zeta;
    (destruct page as [| | | | | | page]; cbn [Json.get]; try discriminate);
    remember (Json.or_empty_list
                match Json.lookup "resultado" page with Some v => v | None => JNull end)
      as res eqn:Hres;
    (destruct res as [| | | | | items |]; cbn [Json.len Json.is_list negb py_iter];
     split_outcomes; try discriminate);
    rewrite append_jsonl_outcome;
    match goal with
    | |- context [if ?b then _ else _] => destruct b; [| discriminate]
    end;
    unfold fs_do; intros H; injection H as <- <-;
    exists dir, page, items; eexists; exists w2;
    (split; [reflexivity |]); (split; [exact PP |]);
    (split; [reflexivity |]); (split; [reflexivity |]);
    (split; [first [exact FA
                   | unfold disk; cbn [log_event trace fs_ops file_at];
                     rewrite String.eqb_refl; reflexivity] |]);
    (split; [reflexivity |]); (split; [reflexivity |]);
    (split; [reflexivity |]); (split; [reflexivity |]);
    (split; [symmetry; exact Hres |]);
    cbn [response_stats totalPaginas_reported totalRegistros_reported
         registrosdaPagina_reported rows_written];
    (split; [assumption |]); (split; [assumption |]); (split; [assumption |]);
    (split; [reflexivity |]); (split; [apply length_map | reflexivity]).
Qed.

(** X11.  The manifest a collection returns describes that run: its
    identifier is the one minted at the start, its timestamp the time at
    the start, its fuel the one asked for; its directory is the one of
    that fuel, day and run under the output directory, and its data file
    is [data.jsonl]. *)
Theorem collection_manifest_describes_the_run
        (csrf base_out fuel : string) (w w' : World) (m : Manifest) :
  collect_one_page_per_fuel csrf base_out fuel w = (Ok m, w') ->
  run_id m = uuid4 w (minted w)
  /\ anp m = fuel
  /\ collected_at_utc m = Qfloor (clock w)
  /\ base_url m = BASE_URL
  /\ query m = the_query
  /\ out_root m = run_root base_out fuel (local_date w (clock w)) (run_id m)
  /\ data_file m = "data.jsonl".
Proof.
  intros H. destruct (collect_ok _ _ _ _ H)
    as (dir & page & items & w1 & w2 & -> & _ & _ & _ & _ & _ & _ & _ & _ & _ & _ & _ & _
        & -> & _).
  cbn [run_id anp collected_at_utc base_url query out_root data_file].
  repeat split. apply basename_path_join. reflexivity.
Qed.

Lemma collection_manifest_describes_the_run_witness :
  exists m w',
    collect_one_page_per_fuel "ImTok.abc.def" "./scraping/raw_out" "GASOLINA"
      (sample_world (scripted [json_reply (page_of [JStr "a"; JStr "b"])]))
    = (Ok m, w')
    /\ run_id m = "run-A" /\ anp m = "GASOLINA" /\ data_file m = "data.jsonl".
Proof.
  eexists _, _. split; [vm_compute; reflexivity |].
  edestruct (@collection_manifest_describes_the_run "ImTok.abc.def" "./scraping/raw_out"
               "GASOLINA"
               (sample_world (scripted [json_reply (page_of [JStr "a"; JStr "b"])])))
    as (R & A & _ & _ & _ & _ & D); [vm_compute; reflexivity |].
  split; [exact R | split; [exact A | exact D]].
Defined.

Lemma data_and_manifest_differ (dir : string) :
  String.eqb (path_join dir "manifest.json") (path_join dir "data.jsonl") = false.
Proof.
  apply String.eqb_neq. intros E. apply (f_equal basename) in E.
  rewrite !basename_path_join in E by reflexivity. discriminate.
Qed.

(** X12.  After a collection that returns, the data file of the run holds
    the rows of this collection and nothing else, whatever it held before,
    as many rows as the manifest says, each with the identifier, the fuel
    and the timestamp of the manifest; and the manifest file holds the
    manifest returned. *)
Theorem collection_leaves_its_files
        (csrf base_out fuel : string) (w w' : World) (m : Manifest) :
  collect_one_page_per_fuel csrf base_out fuel w = (Ok m, w') ->
  exists rows,
    file_at (path_join (out_root m) "data.jsonl") (disk w') = Some (map RowLine rows)
    /\ List.length rows = rows_written (response_stats m)
    /\ Forall (fun row => row_run_id row = run_id m
                          /\ row_anp row = anp m
                          /\ row_collected_at_utc row = collected_at_utc m
                          /\ row_source row = "precodahora")
              rows
    /\ file_at (path_join (out_root m) "manifest.json") (disk w') = Some [ManifestDoc m].
Proof.
  intros H. destruct (collect_ok _ _ _ _ H)
    as (dir & page & items & w1 & w2 & _ & PP & _ & _ & FA & _ & _ & _ & _ & _ & _ & _ & _
        & Em & RW & ->).
  pose proof (post_products_keeps_disk csrf (products_form fuel) w1) as D.
  rewrite PP in D. cbn [snd] in D.
  assert (Er : out_root m = dir) by (rewrite Em; reflexivity).
  rewrite Er.
  eexists. split; [| split; [| split]].
  - unfold disk. cbn [log_event trace fs_ops file_at].
    rewrite data_and_manifest_differ, String.eqb_refl.
    fold (disk w2). rewrite D, FA. reflexivity.
  - rewrite length_map. symmetry. exact RW.
  - apply Forall_forall. intros row I. apply in_map_iff in I.
    destruct I as (item & <- & _). rewrite Em.
    cbn [run_id anp collected_at_utc row_run_id row_anp row_collected_at_utc row_source].
    auto.
  - unfold disk. cbn [log_event trace fs_ops file_at].
    rewrite String.eqb_refl. reflexivity.
Qed.

Lemma collection_leaves_its_files_witness :
  exists m w' rows,
    collect_one_page_per_fuel "ImTok.abc.def" "./scraping/raw_out" "GASOLINA"
      (sample_world (scripted [json_reply (page_of [JStr "a"; JStr "b"])]))
    = (Ok m, w')
    /\ file_at (path_join (out_root m) "data.jsonl") (disk w') = Some (map RowLine rows)
    /\ List.length rows = rows_written (response_stats m).
Proof.
  eexists _, _.
  edestruct (@collection_leaves_its_files "ImTok.abc.def" "./scraping/raw_out" "GASOLINA"
               (sample_world (scripted [json_reply (page_of [JStr "a"; JStr "b"])])))
    as (rows & F & L & _); [vm_compute; reflexivity |].
  exists rows. split; [vm_compute; reflexivity | split; [exact F | exact L]].
Defined.

(** X13.  The counters of a manifest are those of a page the network
    served in reply to the request of the collection, with a status that
    is no error: [totalPaginas], 1 when the page has none; [totalRegistros],
    0 when it has none; [registrosdaPagina], the number of rows written
    when it has none; and the rows written are the items of
    [resultado or []] of that page. *)
Theorem manifest_reports_a_served_page
        (csrf base_out fuel : string) (w w' : World) (m : Manifest) :
  collect_one_page_per_fuel csrf base_out fuel w = (Ok m, w') ->
  exists r k page items,
    upcoming w k = Responds r /\ passes r = true /\ json r = Some (JObj page)
    /\ Json.or_empty_list (field page "resultado" JNull) = JArr items
    /\ rows_written (response_stats m) = List.length items
    /\ Json.int (field page "totalPaginas" (JInt 1))
       = Ok (totalPaginas_reported (response_stats m))
    /\ Json.int (field page "totalRegistros" (JInt 0))
       = Ok (totalRegistros_reported (response_stats m))
    /\ Json.int (field page "registrosdaPagina"
                       (JInt (Z.of_nat (rows_written (response_stats m)))))
       = Ok (registrosdaPagina_reported (response_stats m)).
Proof.
  intros H. destruct (collect_ok _ _ _ _ H)
    as (dir & page & items & w1 & w2 & _ & PP & N & S & _ & _ & _ & _ & _ & R & I1 & I2 & I3
        & _ & RW & _).
  destruct (post_products_ok _ _ _ PP) as (r & k & E & P & J).
  exists r, k, page, items.
  assert (U : upcoming w1 k = upcoming w k) by (unfold upcoming; rewrite N, S; reflexivity).
  rewrite U in E. rewrite RW. auto 10.
Qed.

Lemma manifest_reports_a_served_page_witness :
  exists m w' r k page items,
    collect_one_page_per_fuel "ImTok.abc.def" "./scraping/raw_out" "GASOLINA"
      (sample_world (scripted [status_reply 503; json_reply null_page]))
    = (Ok m, w')
    /\ upcoming (sample_world (scripted [status_reply 503; json_reply null_page])) k
       = Responds r
    /\ json r = Some (JObj page)
    /\ Json.or_empty_list (field page "resultado" JNull) = JArr items
    /\ rows_written (response_stats m) = List.length items.
Proof.
  eexists _, _.
  edestruct (@manifest_reports_a_served_page "ImTok.abc.def" "./scraping/raw_out" "GASOLINA"
               (sample_world (scripted [status_reply 503; json_reply null_page])))
    as (r & k & page & items & E & _ & J & R & L & _); [vm_compute; reflexivity |].
  exists r, k, page, items. split; [vm_compute; reflexivity | auto].
Defined.

(** ** The run, whatever the network does *)

Lemma collection_fields (csrf base_out fuel : string) (w w' : World) (m : Manifest) :
  collect_one_page_per_fuel csrf base_out fuel w = (Ok m, w') ->
  run_id m = uuid4 w (minted w) /\ anp m = fuel.
Proof.
  intros H. destruct (collect_ok _ _ _ _ H)
    as (dir & page & items & w1 & w2 & _ & _ & _ & _ & _ & _ & _ & _ & _ & _ & _ & _ & _
        & -> & _).
  split; reflexivity.
Qed.

Lemma collect_mints_one (csrf base_out fuel : string) (w w' : World) (m : Manifest) :
  collect_one_page_per_fuel csrf base_out fuel w = (Ok m, w') ->
  ids w' = (S (minted w), uuid4 w).
Proof.
  intros H. destruct (collect_ok _ _ _ _ H)
    as (dir & page & items & w1 & w2 & _ & PP & _ & _ & _ & I & _ & _ & _ & _ & _ & _ & _
        & _ & _ & ->).
  pose proof (post_products_keeps_ids csrf (products_form fuel) w1) as K.
  rewrite PP in K. cbn [snd] in K. rewrite <- I, <- K. reflexivity.
Qed.

Lemma bootstrap_keeps_ids (env : Env) : unchanged ids (bootstrap_and_find_csrf env).
Proof.
  intro w. unfold bootstrap_and_find_csrf, save_debug_page, call_find_script_srcs. run_py.
  destruct (network w (List.length (sent w))) as [r | what]; [| reflexivity].
  destruct ((400 <=? status_code r) && (status_code r <? 600))%Z%bool; [reflexivity |].
  destruct (scraping_dir_exists env); [| reflexivity].
  destruct (found (extract_csrf_from_html (text r))); [reflexivity |].
  destruct (existsb _ _); [reflexivity |].
  rewrite scan_scripts_keeps_ids. reflexivity.
Qed.

(** The pause between fuels sends nothing and mints nothing. *)
Lemma pause_keeps_ids (idx total : nat) : unchanged ids (pause idx total).
Proof.
  intro w. unfold pause. destruct (idx <? total)%nat; [| reflexivity].
  unfold bind, random_uniform, sleep. cbn beta iota.
  destruct (Qle_bool _ SLEEP_MAX); reflexivity.
Qed.


(** A loop that returns has collected the fuels still to do, in order, each
    under the next identifier of the source. *)
Lemma fuel_loop_runs (env : Env) (csrf : string) (total : nat) (todo : list (nat * string)) :
  forall runs w runs' w',
    fuel_loop env csrf total todo runs w = (Ok runs', w') ->
    exists new,
      runs' = (runs ++ new)%list
      /\ map anp new = map snd todo
      /\ map run_id new = map (uuid4 w) (seq (minted w) (List.length todo))
      /\ ids w' = ((minted w + List.length todo)%nat, uuid4 w).
Proof.
  induction todo as [| [idx fuel] rest IH]; intros runs w runs' w'; cbn [fuel_loop].
  - unfold ret. intros H. injection H as <- <-. exists [].
    rewrite app_nil_r, Nat.add_0_r. auto.
  - unfold bind at 1. unfold try_finally. unfold bind at 1.
    destruct (collect_one_page_per_fuel csrf (OUT_DIR env) fuel w) as [[m | e] w1] eqn:C.
    + pose proof (collect_mints_one _ _ _ _ C) as I1.
      pose proof (collection_fields _ _ _ _ C) as (R & A).
      unfold ret at 1. cbn beta iota zeta.
      pose proof (pause_keeps_ids idx total w1) as I2. unfold pause in I2.
      match type of I2 with
      | ids (snd (?p w1)) = _ => destruct (p w1) as [[[] | e] w2]
      end; [| discriminate].
      cbn [snd] in I2.
      intros H. destruct (IH _ _ _ _ H) as (new & -> & An & Rn & In).
      exists (m :: new). rewrite <- app_assoc. split; [reflexivity |].
      rewrite I1 in I2. injection I2 as M2 U2.
      cbn [map List.length seq snd]. rewrite A, R, An, Rn, In, M2, U2.
      repeat split. f_equal. lia.
    + match goal with
      | |- context [(if ?b then ?p else ?q) w1] => destruct ((if b then p else q) w1) as [[[] | e'] w2]
      end; discriminate.
Qed.

(** X14.  A run of [main] that returns has written one overall manifest,
    which lists the four fuels in the order of [FUELS], each collected
    under its own identifier: the four next values of the identifier
    source, in order. *)
Theorem main_collects_every_fuel_in_order (env : Env) (w0 w' : World) :
  main env w0 = (Ok tt, w') ->
  exists o,
    overall_writes (trace w') = o :: overall_writes (trace w0)
    /\ map anp (runs o) = FUELS
    /\ map run_id (runs o) = map (uuid4 w0) (seq (minted w0) 4)
    /\ out_dir o = abspath env (OUT_DIR env).
Proof.
  intros H.
  destruct (main_stamps_before_the_loop _ _ H) as (csrf & w1 & rs & w2 & B & L & _ & O).
  eexists. split; [exact O |]. cbn [runs out_dir].
  destruct (fuel_loop_runs _ _ _ _ _ _ L) as (new & -> & A & R & _).
  pose proof (bootstrap_keeps_ids env (log_event w0 (Disk (MkDirs (OUT_DIR env))))) as K.
  rewrite B in K. cbn [snd] in K. injection K as M U.
  cbn [app]. rewrite A, R, M, U. repeat split.
Qed.

Lemma main_collects_every_fuel_in_order_witness :
  exists o,
    overall_writes (trace (snd (main sample_env full_run_world))) = [o]
    /\ map anp (runs o) = FUELS
    /\ map run_id (runs o) = ["run-A"; "run-B"; "run-C"; "run-D"].
Proof.
  edestruct (@main_collects_every_fuel_in_order sample_env full_run_world)
    as (o & O & A & R & _); [vm_compute; reflexivity |].
  exists o. split; [exact O | split; [exact A | exact R]].
Defined.

(** ** Time goes forward *)

Lemma calm_refl (w : World) : calm w w.
Proof.
  split; [reflexivity | split; [apply Qle_refl |]].
  exists []. split; [reflexivity | constructor].
Qed.

Lemma calm_trans (w1 w2 w3 : World) : calm w1 w2 -> calm w2 w3 -> calm w1 w3.
Proof.
  intros (R1 & C1 & t1 & T1 & F1) (R2 & C2 & t2 & T2 & F2).
  split; [congruence | split; [eapply Qle_trans; eassumption |]].
  exists (t2 ++ t1)%list. split.
  - rewrite T2, T1, app_assoc. reflexivity.
  - rewrite sleeps_app. apply Forall_app. auto.
Qed.

Lemma calm_fair (w w' : World) : fair w -> calm w w' -> fair w'.
Proof. intros F (R & _) k. rewrite R. apply F. Qed.

Lemma calm_log (w : World) (e : Event) : sleeps [e] = [] -> calm w (log_event w e).
Proof.
  intros S. split; [reflexivity | split; [apply Qle_refl |]].
  exists [e]. split; [reflexivity | rewrite S; constructor].
Qed.

Lemma forward_ret {A} (post : A -> Prop) (a : A) : post a -> forward_to post (ret a).
Proof.
  intros P w F. split; [apply calm_refl |].
  cbn. intros a' E. injection E as <-. exact P.
Qed.

Lemma forward_raise {A} (post : A -> Prop) (e : Exn) : forward_to post (raise e).
Proof. intros w F. split; [apply calm_refl | cbn; discriminate]. Qed.

Lemma forward_lift {A} (o : Outcome A) : forward_to anything (lift o).
Proof. intros w F. split; [apply calm_refl | intros; exact I]. Qed.

Lemma forward_weaken {A} (P Q : A -> Prop) (m : Py A) :
  (forall a, P a -> Q a) -> forward_to P m -> forward_to Q m.
Proof. intros PQ H w F. destruct (H w F) as [C V]. split; auto. Qed.

Lemma forward_any {A} (P : A -> Prop) (m : Py A) : forward_to P m -> forward_to anything m.
Proof. apply forward_weaken. intros; exact I. Qed.

Lemma forward_bind {A B} (P : A -> Prop) (Q : B -> Prop) (m : Py A) (k : A -> Py B) :
  forward_to P m -> (forall a, P a -> forward_to Q (k a)) -> forward_to Q (bind m k).
Proof.
  intros Hm Hk w F. unfold bind. destruct (Hm w F) as [C V].
  destruct (m w) as [[a | e] w1]; cbn [fst snd] in *.
  - destruct (Hk a (V a eq_refl) w1 (calm_fair F C)) as [C' V'].
    split; [exact (calm_trans C C') | exact V'].
  - split; [exact C | discriminate].
Qed.

Lemma forward_try_finally {A} (P : A -> Prop) (m : Py A) (g : Py unit) :
  forward_to P m -> forward_to anything g -> forward_to P (try_finally m g).
Proof.
  intros Hm Hg w F. unfold try_finally. destruct (Hm w F) as [C V].
  destruct (m w) as [[a | e] w1]; cbn [fst snd] in *;
    destruct (Hg w1 (calm_fair F C)) as [C' _];
    destruct (g w1) as [[u | e'] w2]; cbn [fst snd] in *;
    (split; [exact (calm_trans C C') |]); try discriminate.
  intros a' E. apply V. exact E.
Qed.

Lemma forward_sleep (d : Q) : nonneg d -> forward_to anything (sleep d).
Proof.
  intros D w F. split; [| intros; exact I].
  unfold sleep. destruct (Qle_bool d SLEEP_MAX); cbn [snd]; [| apply calm_refl].
  split; [reflexivity | split].
  - cbn. unfold nonneg in D. lra.
  - exists [Slept d]. split; [reflexivity | repeat constructor; exact D].
Qed.

Lemma forward_random_uniform (a b : Q) :
  (0 <= a)%Q -> (a <= b)%Q -> forward_to nonneg (random_uniform a b).
Proof.
  intros A B w F. split.
  - split; [reflexivity | split; [apply Qle_refl |]].
    exists []. split; [reflexivity | constructor].
  - cbn. intros v E. injection E as <-. unfold nonneg.
    pose proof (F (drawn w)). nra.
Qed.

Lemma forward_new_uuid : forward_to anything new_uuid.
Proof.
  intros w F. split; [| intros; exact I].
  split; [reflexivity | split; [apply Qle_refl |]].
  exists []. split; [reflexivity | constructor].
Qed.

Lemma forward_utc_now_iso : forward_to anything utc_now_iso.
Proof. intros w F. split; [apply calm_refl | intros; exact I]. Qed.

Lemma forward_local_date : forward_to anything local_date_yyyy_mm_dd.
Proof. intros w F. split; [apply calm_refl | intros; exact I]. Qed.

Lemma forward_path_exists (path : string) : forward_to anything (path_exists path).
Proof. intros w F. split; [apply calm_refl | intros; exact I]. Qed.

Lemma forward_session_request (rq : Request) : forward_to anything (session_request rq).
Proof.
  intros w F. split; [| intros; exact I]. unfold session_request.
  destruct (network w (List.length (sent w))); cbn [snd]; apply calm_log; reflexivity.
Qed.

Lemma forward_fs_do (op : FsOp) : forward_to anything (fs_do op).
Proof. intros w F. split; [apply calm_log; reflexivity | intros; exact I]. Qed.

Lemma forward_compute_backoff (attempt : Z) : forward_to nonneg (compute_backoff attempt).
Proof.
  unfold compute_backoff. destruct (MAX_ATTEMPT <? attempt)%Z; [apply forward_raise |].
  apply (@forward_bind _ _ nonneg nonneg).
  - apply forward_random_uniform; lra.
  - intros fraction Hf. apply forward_ret. apply backoff_of_nonneg. exact Hf.
Qed.

Lemma integer_value_nonneg (l : codepoints) :
  forallb is_decimal l = true ->
  forall acc, (0 <= acc)%Z ->
              (0 <= fold_left (fun a c => (10 * a + Json.digit_value c)%Z) l acc)%Z.
Proof.
  induction l as [| c l IH]; cbn [forallb fold_left]; [auto |].
  intros H acc Hacc. apply andb_true_iff in H. destruct H as [Hc Hl].
  apply (IH Hl). unfold is_decimal, between in Hc. apply andb_true_iff in Hc.
  destruct Hc as [Lo _]. apply N.leb_le in Lo. unfold Json.digit_value. lia.
Qed.

Lemma forward_py_float (v : string) : forward_to nonneg (lift (py_float v)).
Proof.
  intros w F. split; [apply calm_refl |].
  unfold lift, py_float. cbn [fst].
  destruct (forallb is_decimal (chars v)) eqn:D; [| discriminate].
  intros d E. injection E as <-. unfold nonneg.
  change 0%Q with (inject_Z 0). rewrite <- Zle_Qle.
  apply integer_value_nonneg; [exact D | lia].
Qed.

Lemma forward_append_jsonl (path : string) (rows : list CollectedRow) :
  forward_to anything (append_jsonl path rows).
Proof.
  intros w F. split; [| intros; exact I].
  rewrite append_jsonl_outcome.
  destruct (forallb _ rows); cbn [snd]; apply calm_log; reflexivity.
Qed.

Create HintDb forward.
#[local] Hint Resolve forward_raise forward_lift forward_new_uuid forward_utc_now_iso
  forward_local_date forward_path_exists forward_session_request forward_fs_do
  forward_append_jsonl : forward.

Ltac forward_steps :=
  repeat first
    [ progress intros
    | solve [auto with forward]
    | apply forward_ret; exact I
    | apply forward_sleep; assumption
    | match goal with
      | |- forward_to _ (if ?b then _ else _) => destruct b
      | |- forward_to _ (match ?x with _ => _ end) => destruct x
      end
    | apply forward_try_finally
    | eapply forward_bind;
      [first [apply forward_compute_backoff | apply forward_py_float] | intros ? ?]
    | eapply (@forward_bind _ _ anything) ].

(** The wait of a rate-limited attempt is not negative. *)
Lemma forward_rate_limit_wait (attempt : Z) (r : Response) :
  forward_to nonneg
    (match header_get "Retry-After" (headers r) with
     | Some retry_after =>
         if isdigit retry_after then lift (py_float retry_after)
         else compute_backoff attempt
     | None => compute_backoff attempt
     end).
Proof.
  destruct (header_get "Retry-After" (headers r)) as [v |];
    [destruct (isdigit v) |];
    first [apply forward_py_float | apply forward_compute_backoff].
Qed.

Lemma forward_attempt_body (rq : Request) (attempt : Z) :
  forward_to anything (attempt_body rq attempt).
Proof.
  unfold attempt_body, raise_for_status.
  eapply (@forward_bind _ _ anything); [apply forward_session_request |].
  intros r _. destruct (status_code r =? 429)%Z.
  - eapply forward_bind; [apply forward_rate_limit_wait |].
    intros d Hd. forward_steps.
  - forward_steps.
Qed.

Lemma forward_retry_loop (rq : Request) (attempts : list Z) :
  forall last_err, forward_to anything (retry_loop rq attempts last_err).
Proof.
  induction attempts as [| attempt rest IH]; intros last_err; cbn [retry_loop].
  - apply forward_raise.
  - intros w F. destruct (@forward_attempt_body rq attempt w F) as [C _].
    pose proof (calm_fair F C) as F1.
    destruct (attempt_body rq attempt w) as [[[r |] | e] w1]; cbn [fst snd] in *.
    + split; [exact C | intros; exact I].
    + destruct (IH last_err w1 F1) as [C' _].
      split; [exact (calm_trans C C') | intros; exact I].
    + assert (T : forward_to anything
                    (wait_s <- compute_backoff attempt ;;
                     sleep wait_s ;;; retry_loop rq rest (Some e)))
        by (pose proof (IH (Some e)); forward_steps).
      destruct (T w1 F1) as [C' _].
      split; [exact (calm_trans C C') | intros; exact I].
Qed.

Lemma forward_post_products (csrf : string) (payload : list (string * string)) :
  forward_to anything (post_products csrf payload).
Proof.
  unfold post_products, request_with_retry.
  eapply (@forward_bind _ _ anything); [apply forward_retry_loop |].
  forward_steps.
Qed.

Lemma forward_scan_scripts (urls : list string) : forward_to anything (scan_scripts urls).
Proof.
  induction urls as [| url rest IH]; cbn [scan_scripts]; [apply forward_raise |].
  unfold session_get.
  eapply (@forward_bind _ _ anything); [apply forward_session_request |].
  intros rr _. destruct (negb (status_code rr =? 200)%Z); [exact IH |].
  destruct (found (extract_csrf_from_js_text (text rr))); [apply forward_ret; exact I |].
  eapply (@forward_bind _ _ anything); [| intros; exact IH].
  apply forward_sleep. unfold nonneg. lra.
Qed.

Lemma forward_bootstrap (env : Env) : forward_to anything (bootstrap_and_find_csrf env).
Proof.
  pose proof forward_scan_scripts.
  unfold bootstrap_and_find_csrf, save_debug_page, call_find_script_srcs, session_get,
    raise_for_status.
  forward_steps.
Qed.

Lemma forward_collect (csrf base_out fuel : string) :
  forward_to anything (collect_one_page_per_fuel csrf base_out fuel).
Proof.
  pose proof forward_post_products.
  unfold collect_one_page_per_fuel, make_out_paths, page_to_rows, ensure_dir.
  forward_steps.
Qed.

Lemma forward_pause (idx total : nat) :
  forward_to anything
    (if (idx <? total)%nat
     then sleep_s <- random_uniform (fst SLEEP_BETWEEN_FUELS) (snd SLEEP_BETWEEN_FUELS) ;;
          sleep sleep_s
     else ret tt).
Proof.
  destruct (idx <? total)%nat; [| apply forward_ret; exact I].
  eapply forward_bind; [apply forward_random_uniform; cbn; lra |].
  intros d Hd. apply forward_sleep. exact Hd.
Qed.

Lemma forward_fuel_loop (env : Env) (csrf : string) (total : nat) (todo : list (nat * string)) :
  forall runs, forward_to anything (fuel_loop env csrf total todo runs).
Proof.
  induction todo as [| [idx fuel] rest IH]; intros runs; cbn [fuel_loop];
    [apply forward_ret; exact I |].
  eapply (@forward_bind _ _ anything); [| intros; apply IH].
  apply forward_try_finally; [| apply forward_pause].
  eapply (@forward_bind _ _ anything); [apply forward_collect |].
  intros. apply forward_ret. exact I.
Qed.

Lemma forward_main (env : Env) : forward_to anything (main env).
Proof.
  pose proof forward_bootstrap. pose proof forward_fuel_loop.
  unfold main, ensure_dir. forward_steps.
Qed.

(** X15.  When the random source gives no negative number, no sleep of
    a run of [main] lasts a negative time, in no branch of the retries, of
    the scan of the script assets or of the pauses between fuels; and the
    clock does not go back. *)
Theorem main_sleeps_no_negative_time (env : Env) (w0 : World) :
  fair w0 ->
  (clock w0 <= clock (snd (main env w0)))%Q
  /\ exists t,
       trace (snd (main env w0)) = (t ++ trace w0)%list
       /\ Forall (fun d => (0 <= d)%Q) (sleeps t).
Proof.
  intros F. destruct (@forward_main env w0 F) as [(_ & C & T) _]. auto.
Qed.

Lemma sample_world_is_fair (net : nat -> Reply) : fair (sample_world net).
Proof. intros k. cbn. discriminate. Qed.

Lemma main_sleeps_no_negative_time_witness :
  (clock full_run_world <= clock (snd (main sample_env full_run_world)))%Q
  /\ exists t,
       trace (snd (main sample_env full_run_world)) = (t ++ trace full_run_world)%list
       /\ Forall (fun d => (0 <= d)%Q) (sleeps t).
Proof.
  apply (@main_sleeps_no_negative_time sample_env full_run_world).
  apply sample_world_is_fair.
Defined.

Lemma collection_time (csrf base_out fuel : string) (w w' : World) (m : Manifest) :
  collect_one_page_per_fuel csrf base_out fuel w = (Ok m, w') ->
  collected_at_utc m = Qfloor (clock w).
Proof.
  intros H. destruct (collect_ok _ _ _ _ H)
    as (dir & page & items & w1 & w2 & _ & _ & _ & _ & _ & _ & _ & _ & _ & _ & _ & _ & _
        & -> & _).
  reflexivity.
Qed.

(** The fuels of a loop that returns were collected at times that do not
    decrease, none before the loop began. *)
Lemma fuel_loop_times (env : Env) (csrf : string) (total : nat) (todo : list (nat * string)) :
  forall runs w runs' w',
    fair w ->
    fuel_loop env csrf total todo runs w = (Ok runs', w') ->
    exists new,
      runs' = (runs ++ new)%list
      /\ Forall (fun m => (Qfloor (clock w) <= collected_at_utc m)%Z) new
      /\ StronglySorted Z.le (map collected_at_utc new).
Proof.
  induction todo as [| [idx fuel] rest IH]; intros runs w runs' w' F; cbn [fuel_loop].
  - unfold ret. intros H. injection H as <- <-. exists [].
    rewrite app_nil_r. repeat constructor.
  - unfold bind at 1. unfold try_finally. unfold bind at 1.
    destruct (@forward_collect csrf (OUT_DIR env) fuel w F) as [C1 _].
    destruct (collect_one_page_per_fuel csrf (OUT_DIR env) fuel w) as [[m | e] w1] eqn:C.
    + cbn [snd] in C1. pose proof (collection_time _ _ _ _ C) as T.
      pose proof (calm_fair F C1) as F1.
      unfold ret at 1. cbn beta iota zeta.
      destruct (@forward_pause idx total w1 F1) as [C2 _].
      match type of C2 with
      | calm _ (snd (?p w1)) => destruct (p w1) as [[[] | e] w2] eqn:P
      end; [| discriminate].
      cbn [snd] in C2. pose proof (calm_fair F1 C2) as F2.
      intros H. destruct (IH _ _ _ _ F2 H) as (new & -> & A & S).
      assert (L : (Qfloor (clock w) <= Qfloor (clock w2))%Z).
      { apply Qfloor_resp_le. destruct C1 as (_ & L1 & _). destruct C2 as (_ & L2 & _).
        eapply Qle_trans; eassumption. }
      exists (m :: new). rewrite <- app_assoc. split; [reflexivity |].
      assert (A' : Forall (fun m0 => (Qfloor (clock w) <= collected_at_utc m0)%Z) new).
      { eapply Forall_impl; [| exact A]. cbn. intros m0 H0. lia. }
      split.
      * constructor; [rewrite T; lia | exact A'].
      * cbn [map]. constructor; [exact S |].
        rewrite T. apply Forall_map. exact A'.
    + match goal with
      | |- context [(if ?b then ?p else ?q) w1] =>
          destruct ((if b then p else q) w1) as [[[] | e'] w2]
      end; discriminate.
Qed.

(** X16.  When the random source gives no negative number and [main]
    returns, the runs of the overall manifest were collected at times that
    do not decrease along the list, and none of them before the time
    recorded as [finished_at_utc]. *)
Theorem overall_timestamps_are_ordered (env : Env) (w0 w' : World) :
  fair w0 ->
  main env w0 = (Ok tt, w') ->
  exists o,
    overall_writes (trace w') = o :: overall_writes (trace w0)
    /\ Forall (fun m => (finished_at_utc o <= collected_at_utc m)%Z) (runs o)
    /\ StronglySorted Z.le (map collected_at_utc (runs o)).
Proof.
  intros F H.
  destruct (main_stamps_before_the_loop _ _ H) as (csrf & w1 & rs & w2 & B & L & _ & O).
  eexists. split; [exact O |]. cbn [runs finished_at_utc].
  assert (F1 : fair w1).
  { destruct (@forward_bootstrap env (log_event w0 (Disk (MkDirs (OUT_DIR env)))))
      as [C _]; [exact F |].
    rewrite B in C. cbn [snd] in C. exact (calm_fair (w := log_event w0 _) F C). }
  destruct (fuel_loop_times _ _ _ _ _ F1 L) as (new & -> & A & S).
  cbn [app]. auto.
Qed.

Lemma overall_timestamps_are_ordered_witness :
  exists o,
    overall_writes (trace (snd (main sample_env full_run_world))) = [o]
    /\ Forall (fun m => (finished_at_utc o <= collected_at_utc m)%Z) (runs o)
    /\ StronglySorted Z.le (map collected_at_utc (runs o)).
Proof.
  edestruct (@overall_timestamps_are_ordered sample_env full_run_world)
    as (o & O & A & S); [apply sample_world_is_fair | vm_compute; reflexivity |].
  exists o. split; [exact O | split; [exact A | exact S]].
Defined.

(** ** How much is asked of the site *)















(** ** All or nothing *)




(** X20.  [main] writes the overall manifest when it returns, once and
    last of all, and in no other case: a run that raises, in the bootstrap
    or in the collection of a fuel, has written none. *)
Theorem overall_manifest_iff_run_returns (env : Env) (w0 : World) :
  match main env w0 with
  | (Ok _, w') =>
      exists o t,
        trace w' = Disk (Write (overall_path env) [OverallDoc o]) :: t
        /\ overall_writes (trace w') = o :: overall_writes (trace w0)
  | (Raise _, w') => overall_writes (trace w') = overall_writes (trace w0)
  end.
Proof.
  destruct (main env w0) as [[[] | e] w'] eqn:M.
  - destruct (main_stamps_before_the_loop _ _ M) as (csrf & w1 & rs & w2 & _ & _ & T & O).
    eexists _, _. split; [exact T | exact O].
  - revert M. unfold main, ensure_dir, fs_do, utc_now_iso.
    unfold bind at 1. cbn beta iota zeta.
    unfold bind at 1.
    pose proof (quiet_bootstrap env (log_event w0 (Disk (MkDirs (OUT_DIR env))))) as Qb.
    destruct (bootstrap_and_find_csrf env (log_event w0 (Disk (MkDirs (OUT_DIR env)))))
      as [[csrf | e1] w1].
    + unfold bind at 1. cbn beta iota zeta. unfold bind at 1.
      pose proof (quiet_fuel_loop env csrf (List.length FUELS) (enumerate1 FUELS) [] w1) as Ql.
      destruct (fuel_loop env csrf (List.length FUELS) (enumerate1 FUELS) [] w1)
        as [[rs | e2] w2]; [discriminate |].
      intros H. injection H as _ <-. cbn [snd] in *. rewrite Ql, Qb. reflexivity.
    + intros H. injection H as _ <-. cbn [snd] in *. rewrite Qb. reflexivity.
Qed.

(** ** What is asked of the site *)






